(** * The SHACL validation engine ([src/validation-engine.js])

    A shallow embedding of the [ValidationEngine] class and of [nodeLabel]:
    the engine's fields are a record threaded through a state-and-exception
    monad, the external collaborators (shapes graph, store, validators, term
    factory) are the fields of a [Context] record, and the mutual recursion
    between shape validation and constraint dispatch is tied by a depth
    counter. *)

From Stdlib Require Import String Ascii List ZArith QArith Qround Lia Bool.
From Stdlib Require Import DecimalString.
Import ListNotations.
Open Scope string_scope.
Open Scope Z_scope.

Set Implicit Arguments.
Set Warnings "-register-all".

(* ================================================================= *)
(** ** RDF terms and quads *)

(** The terms the engine handles.  A literal keeps the IRI of its datatype;
    a [Collection] is rdfquery's list-valued term with its [elements]. *)
Inductive Term : Type :=
| NamedNode (value : string)
| BlankNode (value : string)
| Literal (value : string) (language : string) (datatype : string)
| DefaultGraph
| Collection (elements : list Term).

Definition termType (node : Term) : string :=
  match node with
  | NamedNode _ => "NamedNode"
  | BlankNode _ => "BlankNode"
  | Literal _ _ _ => "Literal"
  | DefaultGraph => "DefaultGraph"
  | Collection _ => "Collection"
  end.

(** [node.value]; a [Collection] has no such property, and no path of the
    engine reads it there. *)
Definition value (node : Term) : string :=
  match node with
  | NamedNode v | BlankNode v | Literal v _ _ => v
  | DefaultGraph => ""
  | Collection _ => ""
  end.

Definition elements (node : Term) : list Term :=
  match node with
  | Collection els => els
  | _ => []
  end.

Record Quad : Type := quad {
  subject : Term;
  predicate : Term;
  object : Term
}.

Definition DataGraph : Type := list Quad.

(** rdfquery's [T]: the named node of a prefixed name.  The expansion of the
    prefix is left out: every use in the engine goes through [T]. *)
Definition T (qname : string) : Term := NamedNode qname.

(** [T(...).equals(other)] for a named node. *)
Definition equals (t other : Term) : bool :=
  match t, other with
  | NamedNode a, NamedNode b => String.eqb a b
  | _, _ => false
  end.

(* ================================================================= *)
(** ** JavaScript strings *)

(** [s.indexOf(ns) === 0] *)
Definition startsWith (s ns : string) : bool := String.prefix ns s.

(** [s.substring(n)] *)
Definition substringFrom (n : nat) (s : string) : string :=
  String.substring n (String.length s - n) s.

(** [acc.join(sep)] on an array of strings *)
Definition join (sep : string) (acc : list string) : string :=
  String.concat sep acc.

(** The first occurrence of [pat] in [s], as the text before and after it. *)
Fixpoint splitFirst (pat s : string) : option (string * string) :=
  if String.prefix pat s then Some ("", substringFrom (String.length pat) s)
  else match s with
       | EmptyString => None
       | String c s' =>
           match splitFirst pat s' with
           | Some (before, after) => Some (String c before, after)
           | None => None
           end
       end.

(** GetSubstitution of ECMAScript for a string pattern (no captures): in the
    replacement text [$$] is a dollar sign, [$&] the matched text, [$`] the
    text before the match and [$'] the text after it; any other [$] stands
    for itself. *)
Fixpoint getSubstitution (matched before after replacement : string) : string :=
  match replacement with
  | EmptyString => EmptyString
  | String "$" (String c rest) =>
      if Ascii.eqb c "$" then
        String "$" (getSubstitution matched before after rest)
      else if Ascii.eqb c "&" then
        matched ++ getSubstitution matched before after rest
      else if Ascii.eqb c "`" then
        before ++ getSubstitution matched before after rest
      else if Ascii.eqb c "'" then
        after ++ getSubstitution matched before after rest
      else String "$" (String c (getSubstitution matched before after rest))
  | String c rest => String c (getSubstitution matched before after rest)
  end.

(** [str.replace(pat, replacement)] with a string pattern: only the first
    occurrence is replaced. *)
Definition replace (str pat replacement : string) : string :=
  match splitFirst pat str with
  | Some (before, after) =>
      before ++ getSubstitution pat before after replacement ++ after
  | None => str
  end.

Fixpoint hasDollar (s : string) : bool :=
  match s with
  | EmptyString => false
  | String c rest => Ascii.eqb c "$" || hasDollar rest
  end.

(** [str'] is [str] with the first occurrence of [pat], if there is one,
    replaced by [replacement] (expanded as [getSubstitution] says), and
    every later occurrence left as it is. *)
Definition replacesFirst (pat replacement str str' : string) : Prop :=
  ((forall before after, str <> before ++ pat ++ after) /\ str' = str)
  \/ (exists before after,
        str = before ++ pat ++ after
        /\ (forall before' after',
              str = before' ++ pat ++ after' ->
              (String.length before <= String.length before')%nat)
        /\ str' = before ++ getSubstitution pat before after replacement ++ after).

(* ================================================================= *)
(** ** JavaScript numbers, as far as [|] needs them *)

Inductive JsNumber : Type :=
| NaN
| Infinite
| Finite (q : Q).

(** ToInt32: not-a-number and the infinities are 0; a finite number is
    truncated and wrapped into the signed 32-bit range. *)
Definition ToInt32 (n : JsNumber) : Z :=
  match n with
  | NaN | Infinite => 0
  | Finite q =>
      let int := if Qle_bool 0 q then Qfloor q else Qceiling q in
      let int32bit := int mod 2 ^ 32 in
      if int32bit >=? 2 ^ 31 then int32bit - 2 ^ 32 else int32bit
  end.

(** The primitive a property read hands to [|]: absent, a string, or a term
    object. *)
Inductive JsOperand : Type :=
| OpUndefined
| OpString (s : string)
| OpTerm (t : Term).

(** The second argument of [TermFactory.literal] as the engine passes it. *)
Inductive LiteralArg : Type :=
| NoArg
| ArgTerm (t : Term)
| ArgNumber (n : Z).

(* ================================================================= *)
(** ** The store and [nodeLabel] *)

(** [context.$shapes]: [namespaces] lists the properties of the object
    [store.namespaces], prefix and namespace, in the order in which the
    prefixes were declared (a prefix is listed once, where it was first
    declared); [messages node] is the answer of
    [query().match(node, 'sh:message', '?message').getNodeArray('?message')]. *)
Record Store : Type := {
  namespaces : list (string * string);
  messages : Term -> list Term
}.

Definition isDecimalDigit (c : ascii) : bool :=
  (48 <=? nat_of_ascii c)%nat && (nat_of_ascii c <=? 57)%nat.

Fixpoint numeralValue (s : string) (acc : N) : option N :=
  match s with
  | EmptyString => Some acc
  | String c rest =>
      if isDecimalDigit c
      then numeralValue rest (10 * acc + N.of_nat (nat_of_ascii c - 48))
      else None
  end.

(** A property key that is an array index: the decimal numeral, without
    leading zeros, of an integer from 0 to 2^32 - 2. *)
Definition arrayIndex (key : string) : option N :=
  match key with
  | EmptyString => None
  | String c rest =>
      if Ascii.eqb c "0" && negb (String.eqb rest "") then None
      else
        match numeralValue key 0 with
        | Some n => if (n <=? 4294967294)%N then Some n else None
        | None => None
        end
  end.

Fixpoint insertIndexed (n : N) (d : string * string)
    (l : list (N * (string * string))) : list (N * (string * string)) :=
  match l with
  | [] => [(n, d)]
  | (m, e) :: rest =>
      if (n <? m)%N then (n, d) :: l else (m, e) :: insertIndexed n d rest
  end.

(** The properties whose key is an array index, in ascending order of the
    index. *)
Fixpoint indexedProperties (props : list (string * string))
    : list (N * (string * string)) :=
  match props with
  | [] => []
  | d :: rest =>
      match arrayIndex (fst d) with
      | Some n => insertIndexed n d (indexedProperties rest)
      | None => indexedProperties rest
      end
  end.

Definition namedProperties (props : list (string * string))
    : list (string * string) :=
  filter (fun d => match arrayIndex (fst d) with Some _ => false | None => true end)
    props.

(** The order in which [for (const key in object)] enumerates the properties
    of an ordinary object: the array indices in ascending numeric order,
    then the other keys in the order of their creation. *)
Definition forIn (props : list (string * string)) : list (string * string) :=
  map snd (indexedProperties props) ++ namedProperties props.

(** The [for (const prefix in store.namespaces)] loop of [nodeLabel]. *)
Fixpoint namedNodeLabel (v : string) (nss : list (string * string)) : string :=
  match nss with
  | [] => "<" ++ v ++ ">"
  | (prefix, ns) :: rest =>
      if startsWith v ns
      then prefix ++ ":" ++ substringFrom (String.length ns) v
      else namedNodeLabel v rest
  end.

Fixpoint nodeLabel (node : Term) (store : Store) : string :=
  match node with
  | Collection els => join ", " (map (fun e => nodeLabel e store) els)
  | NamedNode v => namedNodeLabel v (forIn (namespaces store))
  | BlankNode v => "Blank node " ++ v
  | _ => "" ++ value node
  end.

(* ================================================================= *)
(** ** Shapes, constraints and validators *)

(** Modelled from the spec: a shape is a property shape iff its [path] is
    present ([Shape] is not part of this file). *)
Record Shape : Type := {
  shapeNode : Term;
  severity : Term;
  path : option Term;
  deactivated : bool
}.

Definition isPropertyShape (s : Shape) : bool :=
  match path s with
  | Some _ => true
  | None => false
  end.

Record ValidationFunction : Type := { funcName : string }.

Record ConstraintComponent : Type := {
  node : Term;
  nodeValidationFunction : option ValidationFunction;
  nodeValidationFunctionGeneric : bool;
  propertyValidationFunction : option ValidationFunction;
  propertyValidationFunctionGeneric : bool
}.

(** [parameterValues] lists the parameters in [for ... in] order. *)
Record Constraint : Type := {
  shape : Shape;
  component : ConstraintComponent;
  paramValue : Term;
  parameterValues : list (string * Term);
  componentMessages : list string
}.

(** What a validator may hand back: [JObject path value message] is a result
    object with those three optional properties. *)
Inductive JsValue : Type :=
| JUndefined
| JNull
| JBoolean (b : bool)
| JNumber (n : Z)
| JString (s : string)
| JObject (objPath : option Term) (objValue : option Term) (objMessage : option string)
| JArray (items : list JsValue).

Definition typeof (obj : JsValue) : string :=
  match obj with
  | JUndefined => "undefined"
  | JNull => "object"
  | JBoolean _ => "boolean"
  | JNumber _ => "number"
  | JString _ => "string"
  | JObject _ _ _ => "object"
  | JArray _ => "object"
  end.

(** [if (v)]: [undefined], [null], [false], [0] and the empty string are
    falsy, every object is truthy. *)
Definition truthy (v : JsValue) : bool :=
  match v with
  | JUndefined | JNull => false
  | JBoolean b => b
  | JNumber n => negb (n =? 0)
  | JString s => negb (String.eqb s "")
  | JObject _ _ _ | JArray _ => true
  end.

(** What [throw] raises and [catch (e)] receives: an [Error] or [TypeError]
    object with its message, or any other value, since a validator may throw
    whatever it likes. *)
Inductive JsError : Type :=
| Error (message : string)
| TypeError (message : string)
| Thrown (v : JsValue).

(** [if (e)] for a caught value: an error object is an object. *)
Definition truthyError (e : JsError) : bool :=
  match e with
  | Error _ | TypeError _ => true
  | Thrown v => truthy v
  end.

(** The run of [validationFunction.execute]: it returns a value, raises, or
    first asks the engine whether a node violates a shape (the logical
    combinators do, through the context) and goes on with the answer. *)
Inductive Validator : Type :=
| Return (obj : JsValue)
| Raise (e : JsError)
| CallValidateNodeAgainstShape
    (focusNode : Term) (s : Shape) (rdfDataGraph : DataGraph)
    (k : bool -> Validator).

(** The collaborators the engine reaches through [this.context] and its
    imports: the store [$shapes], the shapes graph, the shapes' own methods,
    the validators, [TermFactory.literal], and the runtime's conversion of
    strings that are not empty and of term objects to numbers. *)
Record Context : Type := {
  shapes_store : Store;
  getShapesWithTarget : list Shape;
  getShape : Term -> Shape;
  getTargetNodes : Shape -> DataGraph -> list Term;
  getConstraints : Shape -> list Constraint;
  getValueNodes : Shape -> Term -> DataGraph -> list Term;
  execute : ValidationFunction -> Term -> option Term -> Constraint -> Validator;
  literal : string -> LiteralArg -> Term;
  StringToNumber : string -> JsNumber;
  toString : Term -> string
}.

(* ================================================================= *)
(** ** The engine's state *)

(** Modelled from the spec: the configuration holds the batch limit, [-1]
    for unlimited ([ValidationEngineConfiguration] is not part of this
    file). *)
Record ValidationEngineConfiguration : Type := {
  getValidationErrorBatch : Z
}.

Definition ValidationEngineConfiguration_new : ValidationEngineConfiguration :=
  {| getValidationErrorBatch := -1 |}.

(** The fields of [this], and the term factory's blank-node counter that is
    threaded with them. *)
Record ValidationEngine : Type := {
  conformanceOnly : bool;
  results : list Quad;
  recordErrorsLevel : Z;
  violationsCount : Z;
  configuration : ValidationEngineConfiguration;
  validationError : option JsError;
  blankNodeCounter : nat
}.

Definition constructor (conformanceOnly : bool) : ValidationEngine :=
  {| conformanceOnly := conformanceOnly;
     results := [];
     recordErrorsLevel := 0;
     violationsCount := 0;
     configuration := ValidationEngineConfiguration_new;
     validationError := None;
     blankNodeCounter := 0 |}.

Definition set_results (r : list Quad) (this : ValidationEngine) :=
  {| conformanceOnly := conformanceOnly this;
     results := r;
     recordErrorsLevel := recordErrorsLevel this;
     violationsCount := violationsCount this;
     configuration := configuration this;
     validationError := validationError this;
     blankNodeCounter := blankNodeCounter this |}.

Definition set_recordErrorsLevel (l : Z) (this : ValidationEngine) :=
  {| conformanceOnly := conformanceOnly this;
     results := results this;
     recordErrorsLevel := l;
     violationsCount := violationsCount this;
     configuration := configuration this;
     validationError := validationError this;
     blankNodeCounter := blankNodeCounter this |}.

Definition set_violationsCount (n : Z) (this : ValidationEngine) :=
  {| conformanceOnly := conformanceOnly this;
     results := results this;
     recordErrorsLevel := recordErrorsLevel this;
     violationsCount := n;
     configuration := configuration this;
     validationError := validationError this;
     blankNodeCounter := blankNodeCounter this |}.

Definition set_validationError (e : option JsError) (this : ValidationEngine) :=
  {| conformanceOnly := conformanceOnly this;
     results := results this;
     recordErrorsLevel := recordErrorsLevel this;
     violationsCount := violationsCount this;
     configuration := configuration this;
     validationError := e;
     blankNodeCounter := blankNodeCounter this |}.

Definition set_blankNodeCounter (n : nat) (this : ValidationEngine) :=
  {| conformanceOnly := conformanceOnly this;
     results := results this;
     recordErrorsLevel := recordErrorsLevel this;
     violationsCount := violationsCount this;
     configuration := configuration this;
     validationError := validationError this;
     blankNodeCounter := n |}.

Definition getConfiguration (this : ValidationEngine) : ValidationEngineConfiguration :=
  configuration this.

Definition setConfiguration (c : ValidationEngineConfiguration) (this : ValidationEngine) :=
  {| conformanceOnly := conformanceOnly this;
     results := results this;
     recordErrorsLevel := recordErrorsLevel this;
     violationsCount := violationsCount this;
     configuration := c;
     validationError := validationError this;
     blankNodeCounter := blankNodeCounter this |}.

Definition maxErrorsReached (this : ValidationEngine) : bool :=
  if getValidationErrorBatch (getConfiguration this) =? -1 then false
  else violationsCount this >=? getValidationErrorBatch (getConfiguration this).

(* ================================================================= *)
(** ** Methods as state-and-exception computations *)

(** How a call ends: normally with a value, by a raised failure, or not at
    all within the recursion depth allowed.  The engine's fields as the call
    left them come with the first two. *)
Inductive Completion (A : Type) : Type :=
| Normal (a : A) (this : ValidationEngine)
| Throw (e : JsError) (this : ValidationEngine)
| Diverge.

Arguments Normal {A} a this.
Arguments Throw {A} e this.
Arguments Diverge {A}.

Definition M (A : Type) : Type := ValidationEngine -> Completion A.

Definition ret {A} (a : A) : M A := fun this => Normal a this.

Definition bind {A B} (m : M A) (f : A -> M B) : M B :=
  fun this =>
    match m this with
    | Normal a this' => f a this'
    | Throw e this' => Throw e this'
    | Diverge => Diverge
    end.

Definition throw {A} (e : JsError) : M A := fun this => Throw e this.

Definition gets {A} (f : ValidationEngine -> A) : M A :=
  fun this => Normal (f this) this.

Definition modify (f : ValidationEngine -> ValidationEngine) : M unit :=
  fun this => Normal tt (f this).

(** [try { body } catch (e) { handler }] *)
Definition tryCatch {A} (body : M A) (handler : JsError -> M A) : M A :=
  fun this =>
    match body this with
    | Normal a this' => Normal a this'
    | Throw e this' => handler e this'
    | Diverge => Diverge
    end.

Declare Scope engine_scope.
Delimit Scope engine_scope with engine.
Notation "x <- m ;; k" := (bind m (fun x => k))
  (at level 61, m at next level, right associativity) : engine_scope.
Notation "m ;; k" := (bind m (fun _ => k))
  (at level 61, right associativity) : engine_scope.
Open Scope engine_scope.

(** A [for] loop over an array that carries one local variable. *)
Fixpoint forLoop {A S} (l : list A) (body : A -> S -> M S) (s : S) : M S :=
  match l with
  | [] => ret s
  | x :: rest => s' <- body x s ;; forLoop rest body s'
  end.

(** [if (call) { flag = true }] *)
Definition orFlag (call : M bool) (flag : bool) : M bool :=
  b <- call ;; ret (if b then true else flag).

(* ================================================================= *)
(** ** The engine's methods *)

Record ValidationReport : Type := ValidationReport_new {
  reportQuads : list Quad
}.

(** [TermFactory.blankNode()]: a fresh blank node, named after the counter. *)
Definition blankNode : M Term :=
  n <- gets blankNodeCounter ;;
  modify (set_blankNodeCounter (S n)) ;;
  ret (BlankNode ("b" ++ NilEmpty.string_of_uint (Nat.to_uint n))).

Definition addResultProperty (result predicate object : Term) : M unit :=
  modify (fun this => set_results (results this ++ [quad result predicate object]) this).

Definition createResult (constraint : Constraint) (focusNode : Term)
    (valueNode : option Term) : M Term :=
  result <- blankNode ;;
  let severity := severity (shape constraint) in
  let sourceConstraintComponent := node (component constraint) in
  let sourceShape := shapeNode (shape constraint) in
  addResultProperty result (T "rdf:type") (T "sh:ValidationResult") ;;
  addResultProperty result (T "sh:resultSeverity") severity ;;
  addResultProperty result (T "sh:sourceConstraintComponent") sourceConstraintComponent ;;
  addResultProperty result (T "sh:sourceShape") sourceShape ;;
  addResultProperty result (T "sh:focusNode") focusNode ;;
  match valueNode with
  | Some v => addResultProperty result (T "sh:value") v
  | None => ret tt
  end ;;
  ret result.

(** [msg.language] and [msg.datatype] *)
Definition language_of (msg : Term) : JsOperand :=
  match msg with
  | Literal _ l _ => OpString l
  | _ => OpUndefined
  end.

Definition datatype_of (msg : Term) : JsOperand :=
  match msg with
  | Literal _ _ d => OpTerm (NamedNode d)
  | _ => OpUndefined
  end.

(** [obj.path], [obj.value] and [obj.message]: reading a property of [null]
    raises; an array has none of the three. *)
Definition getPath (obj : JsValue) : M (option Term) :=
  match obj with
  | JNull => throw (TypeError "Cannot read properties of null (reading 'path')")
  | JObject p _ _ => ret p
  | _ => ret None
  end.

Definition getValue (obj : JsValue) : M (option Term) :=
  match obj with
  | JNull => throw (TypeError "Cannot read properties of null (reading 'value')")
  | JObject _ v _ => ret v
  | _ => ret None
  end.

Definition getMessage (obj : JsValue) : M (option string) :=
  match obj with
  | JNull => throw (TypeError "Cannot read properties of null (reading 'message')")
  | JObject _ _ m => ret m
  | _ => ret None
  end.

(** A string is truthy unless it is empty. *)
Definition truthyString (m : option string) : option string :=
  match m with
  | Some EmptyString => None
  | other => other
  end.

Section Engine.

Variable context : Context.

(** ToNumber of a string: the empty string is 0; what any other string
    converts to is the context's to say. *)
Definition stringToNumber (s : string) : JsNumber :=
  if String.eqb s "" then Finite 0 else StringToNumber context s.

(** ToNumber of an operand: a term object is converted through its
    [toString]. *)
Definition ToNumber (op : JsOperand) : JsNumber :=
  match op with
  | OpUndefined => NaN
  | OpString s => stringToNumber s
  | OpTerm t => stringToNumber (toString context t)
  end.

(** [a | b] *)
Definition bitwiseOr (a b : JsOperand) : Z :=
  Z.lor (ToInt32 (ToNumber a)) (ToInt32 (ToNumber b)).

(** The body of the [for (const key in values)] loop of [withSubstitutions]. *)
Definition substituteParameter (str : string) (kv : string * Term) : string :=
  let label := nodeLabel (snd kv) (shapes_store context) in
  let str := replace str ("{$" ++ fst kv ++ "}") label in
  replace str ("{?" ++ fst kv ++ "}") label.

Definition withSubstitutions (msg : Term) (constraint : Constraint) : Term :=
  let str := value msg in
  let values := parameterValues constraint in
  let str := fold_left substituteParameter values str in
  literal context str (ArgNumber (bitwiseOr (language_of msg) (datatype_of msg))).

Definition createResultMessages (result : Term) (constraint : Constraint) : M unit :=
  let ms := messages (shapes_store context) (shapeNode (shape constraint)) in
  let ms :=
    if (length ms =? 0)%nat
    then map (fun m => literal context m NoArg) (componentMessages constraint)
    else ms in
  let ms :=
    if (length ms =? 0)%nat
    then messages (shapes_store context) (node (component constraint))
    else ms in
  forLoop ms (fun m _ =>
    let str := withSubstitutions m constraint in
    addResultProperty result (T "sh:resultMessage") str) tt.

(** [if (constraint.shape.isPropertyShape()) addResultProperty(result,
    sh:resultPath, constraint.shape.path)] *)
Definition addShapePath (result : Term) (constraint : Constraint) : M unit :=
  if isPropertyShape (shape constraint) then
    match path (shape constraint) with
    | Some p => addResultProperty result (T "sh:resultPath") p
    | None => ret tt
    end
  else ret tt.

Definition createResultFromObject (obj : JsValue) (constraint : Constraint)
    (focusNode : Term) (valueNode : option Term) : M bool :=
  match obj with
  | JBoolean false =>
      level <- gets recordErrorsLevel ;;
      conformance <- gets conformanceOnly ;;
      if level >? 0 then
        (if conformance then ret false else ret true)
      else if conformance then ret false
      else
        result <- createResult constraint focusNode valueNode ;;
        addShapePath result constraint ;;
        createResultMessages result constraint ;;
        ret true
  | JString s =>
      level <- gets recordErrorsLevel ;;
      conformance <- gets conformanceOnly ;;
      if level >? 0 then
        (if conformance then ret false else ret true)
      else if conformance then ret false
      else
        result <- createResult constraint focusNode valueNode ;;
        addShapePath result constraint ;;
        addResultProperty result (T "sh:resultMessage")
          (literal context s (ArgTerm (T "xsd:string"))) ;;
        createResultMessages result constraint ;;
        ret true
  | _ =>
      if String.eqb (typeof obj) "object" then
        level <- gets recordErrorsLevel ;;
        conformance <- gets conformanceOnly ;;
        if level >? 0 then
          (if conformance then ret false else ret true)
        else if conformance then ret false
        else
          result <- createResult constraint focusNode None ;;
          objPath <- getPath obj ;;
          match objPath with
          | Some p => addResultProperty result (T "sh:resultPath") p
          | None => addShapePath result constraint
          end ;;
          objValue <- getValue obj ;;
          match objValue with
          | Some v => addResultProperty result (T "sh:value") v
          | None =>
              match valueNode with
              | Some v => addResultProperty result (T "sh:value") v
              | None => ret tt
              end
          end ;;
          objMessage <- getMessage obj ;;
          match truthyString objMessage with
          | Some m =>
              addResultProperty result (T "sh:resultMessage")
                (literal context m (ArgTerm (T "xsd:string")))
          | None => createResultMessages result constraint
          end ;;
          ret true
      else ret false
  end.

(** [Array.isArray(obj)] and the two ways the dispatcher normalises an
    outcome: element by element, or as one value. *)
Definition createResultsFromOutcome (obj : JsValue) (constraint : Constraint)
    (focusNode : Term) (valueNode : option Term) : M bool :=
  match obj with
  | JArray items =>
      forLoop items (fun item errorFound =>
        orFlag (createResultFromObject item constraint focusNode valueNode) errorFound)
        false
  | _ =>
      orFlag (createResultFromObject obj constraint focusNode valueNode) false
  end.

Section Dispatch.

(** The engine's own [validateNodeAgainstShape], one level further down. *)
Variable recur : Term -> Shape -> DataGraph -> M bool.

Fixpoint runValidator (v : Validator) : M JsValue :=
  match v with
  | Return obj => ret obj
  | Raise e => throw e
  | CallValidateNodeAgainstShape focusNode s rdfDataGraph k =>
      found <- recur focusNode s rdfDataGraph ;;
      runValidator (k found)
  end.

(** [recordErrorsLevel++; obj = validationFunction.execute(...);
    recordErrorsLevel--] *)
Definition executeSuppressed (validationFunction : ValidationFunction)
    (focusNode : Term) (valueNode : option Term) (constraint : Constraint) : M JsValue :=
  modify (fun this => set_recordErrorsLevel (recordErrorsLevel this + 1) this) ;;
  obj <- runValidator (execute context validationFunction focusNode valueNode constraint) ;;
  modify (fun this => set_recordErrorsLevel (recordErrorsLevel this - 1) this) ;;
  ret obj.

(** The loop of the generic branch, with its [break]. *)
Fixpoint genericLoop (validationFunction : ValidationFunction) (focusNode : Term)
    (constraint : Constraint) (valueNodes : list Term) (errorFound : bool) : M bool :=
  match valueNodes with
  | [] => ret errorFound
  | valueNode :: rest =>
      reached <- gets maxErrorsReached ;;
      if reached then ret errorFound
      else
        obj <- executeSuppressed validationFunction focusNode (Some valueNode) constraint ;;
        iterationError <-
          createResultsFromOutcome obj constraint focusNode (Some valueNode) ;;
        (if iterationError
         then modify (fun this => set_violationsCount (violationsCount this + 1) this)
         else ret tt) ;;
        genericLoop validationFunction focusNode constraint rest
          (errorFound || iterationError)
  end.

Definition validateNodeAgainstConstraint_body (focusNode : Term)
    (valueNodes : list Term) (constraint : Constraint) (rdfDataGraph : DataGraph)
    : M bool :=
  reached <- gets maxErrorsReached ;;
  if reached then ret true
  else if equals (T "sh:PropertyConstraintComponent") (node (component constraint)) then
    forLoop valueNodes (fun valueNode errorFound =>
      orFlag (recur valueNode (getShape context (paramValue constraint)) rdfDataGraph)
             errorFound) false
  else
    let validationFunction :=
      if isPropertyShape (shape constraint)
      then propertyValidationFunction (component constraint)
      else nodeValidationFunction (component constraint) in
    match validationFunction with
    | Some validationFunction =>
        let generic :=
          if isPropertyShape (shape constraint)
          then propertyValidationFunctionGeneric (component constraint)
          else nodeValidationFunctionGeneric (component constraint) in
        if generic then
          genericLoop validationFunction focusNode constraint valueNodes false
        else
          obj <- executeSuppressed validationFunction focusNode None constraint ;;
          createResultsFromOutcome obj constraint focusNode None
    | None =>
        throw (Error ("Cannot find validator for constraint component "
                      ++ value (node (component constraint))))
    end.

Definition validateNodeAgainstShape_body (focusNode : Term) (s : Shape)
    (rdfDataGraph : DataGraph) : M bool :=
  reached <- gets maxErrorsReached ;;
  if reached then ret true
  else if deactivated s then ret false
  else
    let constraints := getConstraints context s in
    let valueNodes := getValueNodes context s focusNode rdfDataGraph in
    forLoop constraints (fun constraint errorFound =>
      orFlag (validateNodeAgainstConstraint_body focusNode valueNodes constraint
                rdfDataGraph) errorFound) false.

End Dispatch.

(** The recursion of the two methods through each other, [depth] calls of
    [validateNodeAgainstShape] deep below the outermost one. *)
Fixpoint validateNodeAgainstShape (depth : nat) (focusNode : Term) (s : Shape)
    (rdfDataGraph : DataGraph) : M bool :=
  validateNodeAgainstShape_body
    (match depth with
     | O => fun _ _ _ _ => Diverge
     | S d => validateNodeAgainstShape d
     end) focusNode s rdfDataGraph.

Definition validateNodeAgainstConstraint (depth : nat) (focusNode : Term)
    (valueNodes : list Term) (constraint : Constraint) (rdfDataGraph : DataGraph)
    : M bool :=
  validateNodeAgainstConstraint_body
    (match depth with
     | O => fun _ _ _ _ => Diverge
     | S d => validateNodeAgainstShape d
     end) focusNode valueNodes constraint rdfDataGraph.

(** The [try] block of [validateAll]. *)
Definition validateAll_try (depth : nat) (rdfDataGraph : DataGraph) : M bool :=
  modify (set_results []) ;;
  let foundError := false in
  let shapes := getShapesWithTarget context in
  forLoop shapes (fun s foundError =>
    let focusNodes := getTargetNodes context s rdfDataGraph in
    forLoop focusNodes (fun focusNode foundError =>
      orFlag (validateNodeAgainstShape depth focusNode s rdfDataGraph) foundError)
      foundError) foundError.

Definition validateAll (depth : nat) (rdfDataGraph : DataGraph) : M bool :=
  reached <- gets maxErrorsReached ;;
  if reached then ret true
  else
    modify (set_validationError None) ;;
    tryCatch (validateAll_try depth rdfDataGraph)
      (fun e => modify (set_validationError (Some e)) ;; ret true).

(** [validationError] is [None] for [null]; a caught value is stored as it
    is, and [if (this.validationError)] tests its truthiness.  The logging
    call [error(...)] changes nothing in the engine. *)
Definition getReport : M ValidationReport :=
  fun this =>
    match validationError this with
    | Some e =>
        if truthyError e then Throw e this
        else Normal (ValidationReport_new (results this)) this
    | None => Normal (ValidationReport_new (results this)) this
    end.

End Engine.

(** [getReport] called again [n] more times after a first call. *)
Fixpoint getReportAgain (n : nat) (this : ValidationEngine)
    : Completion ValidationReport :=
  match n with
  | O => getReport this
  | S k =>
      match getReport this with
      | Normal _ this' => getReportAgain k this'
      | Throw _ this' => getReportAgain k this'
      | Diverge => Diverge
      end
  end.

(** The validation results a list of quads holds: the subjects typed
    [sh:ValidationResult]. *)
Definition isResultQuad (q : Quad) : bool :=
  equals (T "rdf:type") (predicate q) && equals (T "sh:ValidationResult") (object q).

Definition resultNodes (quads : list Quad) : list Term :=
  map subject (filter isResultQuad quads).

Definition isSourceShapeQuad (q : Quad) : bool :=
  equals (T "sh:sourceShape") (predicate q).

(** The source shapes the results of a list of quads are attributed to. *)
Definition sourceShapes (quads : list Quad) : list Term :=
  map object (filter isSourceShapeQuad quads).

(** An outcome that [createResultFromObject] takes for a violation. *)
Definition isViolation (obj : JsValue) : bool :=
  match obj with
  | JBoolean false => true
  | JString _ => true
  | _ => String.eqb (typeof obj) "object"
  end.

(** [s'] is [s] or a shape nested in it through property constraints. *)
Inductive nests (context : Context) : Shape -> Shape -> Prop :=
| nests_here : forall s, nests context s s
| nests_inside : forall s constraint s',
    In constraint (getConstraints context s) ->
    equals (T "sh:PropertyConstraintComponent") (node (component constraint)) = true ->
    nests context (getShape context (paramValue constraint)) s' ->
    nests context s s'.

(** Every constraint a shape lists has that shape, by its node, as its
    owner. *)
Definition constraintsOwned (context : Context) : Prop :=
  forall s constraint,
    In constraint (getConstraints context s) ->
    shapeNode (shape constraint) = shapeNode s.

(* ================================================================= *)
(** ** Specifications of computations *)

(** A specification of a computation by two relations between the engine
    before and after: [RN] for a normal end, [RT] for a raised failure; [Pre]
    is what the engine must satisfy before, and [Q] what the value returned
    satisfies. *)
Definition sat (Pre : ValidationEngine -> Prop)
    (RN RT : ValidationEngine -> ValidationEngine -> Prop)
    {A} (Q : A -> Prop) (m : M A) (this : ValidationEngine) : Prop :=
  Pre this ->
  match m this with
  | Normal a this' => Q a /\ RN this this'
  | Throw _ this' => RT this this'
  | Diverge => True
  end.

(** [m2] ends as [m1] does wherever [m1] ends within its recursion depth. *)
Definition below {A} (m1 m2 : M A) : Prop :=
  forall this, m1 this = Diverge \/ m1 this = m2 this.

(** What composing such specifications takes: [RN] is a preorder that keeps
    [Pre], and a normal end followed by a failure is a failure. *)
Class Lawful (Pre : ValidationEngine -> Prop)
    (RN RT : ValidationEngine -> ValidationEngine -> Prop) : Prop := {
  RN_refl : forall this, RN this this;
  RN_trans : forall a b c, RN a b -> RN b c -> RN a c;
  RN_RT : forall a b c, RN a b -> RT b c -> RT a c;
  RN_sub_RT : forall a b, RN a b -> RT a b;
  Pre_RN : forall a b, Pre a -> RN a b -> Pre b
}.

(** A quad that names a source shape names one of [P]. *)
Definition attributed (P : Term -> Prop) (q : Quad) : Prop :=
  isSourceShapeQuad q = true -> P (object q).

(** The engine after the making of a result: quads were added, attributed to
    [P], and the flags, the configuration, the level and the counter are as
    before. *)
Definition recorded (P : Term -> Prop) (this this' : ValidationEngine) : Prop :=
  conformanceOnly this' = conformanceOnly this
  /\ configuration this' = configuration this
  /\ recordErrorsLevel this' = recordErrorsLevel this
  /\ violationsCount this' = violationsCount this
  /\ exists added,
       results this' = (results this ++ added)%list /\ Forall (attributed P) added.

(** The engine after an evaluation: the counter did not go down, quads were
    added and attributed to [P], none of them if recording was suppressed
    when the evaluation began. *)
Definition grows (P : Term -> Prop) (this this' : ValidationEngine) : Prop :=
  conformanceOnly this' = conformanceOnly this
  /\ configuration this' = configuration this
  /\ violationsCount this <= violationsCount this'
  /\ exists added,
       results this' = (results this ++ added)%list
       /\ Forall (attributed P) added
       /\ (0 < recordErrorsLevel this -> added = []).

(** After a normal end the suppression level is back where it was; after a
    failure it may be left higher. *)
Definition evaluated (P : Term -> Prop) (this this' : ValidationEngine) : Prop :=
  recordErrorsLevel this' = recordErrorsLevel this /\ grows P this this'.

Definition interrupted (P : Term -> Prop) (this this' : ValidationEngine) : Prop :=
  recordErrorsLevel this <= recordErrorsLevel this' /\ grows P this this'.

Definition balanced (this : ValidationEngine) : Prop := 0 <= recordErrorsLevel this.

(** The shapes [P] a result of evaluating [s] may be attributed to: [s] and
    what it nests. *)
Definition nestedShapeNode (context : Context) (s : Shape) (t : Term) : Prop :=
  exists s', nests context s s' /\ t = shapeNode s'.

(** Conformance-only mode below the batch limit, and what an evaluation
    leaves alone there. *)
Definition conforming (this : ValidationEngine) : Prop :=
  conformanceOnly this = true /\ maxErrorsReached this = false.

Definition untouched (this this' : ValidationEngine) : Prop :=
  conformanceOnly this' = conformanceOnly this
  /\ configuration this' = configuration this
  /\ violationsCount this' = violationsCount this
  /\ validationError this' = validationError this
  /\ results this' = results this.

(** The counter is never taken back. *)
Definition counted (this this' : ValidationEngine) : Prop :=
  violationsCount this <= violationsCount this'.

(* ================================================================= *)
(** ** Sample shapes graphs *)

Module Sample.

Definition store : Store :=
  {| namespaces := [("ex", "http://example.org/")];
     messages := fun _ => [] |}.

Definition personShape : Shape :=
  {| shapeNode := NamedNode "http://example.org/PersonShape";
     severity := T "sh:Violation";
     path := None;
     deactivated := false |}.

Definition nameShape : Shape :=
  {| shapeNode := NamedNode "http://example.org/NameShape";
     severity := T "sh:Violation";
     path := Some (NamedNode "http://example.org/name");
     deactivated := false |}.

Definition alice : Term := NamedNode "http://example.org/alice".
Definition bob : Term := NamedNode "http://example.org/bob".

(** A component whose node and property validators are both the function
    called [name]. *)
Definition componentOf (iri name : string) (generic : bool) : ConstraintComponent :=
  {| node := T iri;
     nodeValidationFunction := Some {| funcName := name |};
     nodeValidationFunctionGeneric := generic;
     propertyValidationFunction := Some {| funcName := name |};
     propertyValidationFunctionGeneric := generic |}.

Definition constraintOf (s : Shape) (c : ConstraintComponent) : Constraint :=
  {| shape := s;
     component := c;
     paramValue := T "sh:none";
     parameterValues := [];
     componentMessages := [] |}.

(** A component without validators. *)
Definition bareComponent (iri : string) : ConstraintComponent :=
  {| node := T iri;
     nodeValidationFunction := None;
     nodeValidationFunctionGeneric := false;
     propertyValidationFunction := None;
     propertyValidationFunctionGeneric := false |}.

(** [sh:property nameShape] on [s]. *)
Definition propertyConstraint (s nested : Shape) : Constraint :=
  {| shape := s;
     component := bareComponent "sh:PropertyConstraintComponent";
     paramValue := shapeNode nested;
     parameterValues := [];
     componentMessages := [] |}.

(** The validators of the samples, by name: one that reports a violation,
    one that returns [null], one that raises, one that returns two
    violations at once, one that negates the nested [nameShape], and one
    that conforms. *)
Definition sampleExecute (f : ValidationFunction) (focusNode : Term)
    (valueNode : option Term) (constraint : Constraint) : Validator :=
  if String.eqb (funcName f) "violation" then Return (JBoolean false)
  else if String.eqb (funcName f) "null" then Return JNull
  else if String.eqb (funcName f) "raise" then Raise (Error "validator failed")
  else if String.eqb (funcName f) "pair" then
    Return (JArray [JBoolean false; JBoolean false])
  else if String.eqb (funcName f) "not" then
    CallValidateNodeAgainstShape focusNode nameShape []
      (fun found => Return (JBoolean found))
  else Return (JBoolean true).

Definition sampleLiteral (str : string) (arg : LiteralArg) : Term :=
  match arg with
  | ArgTerm (NamedNode d) => Literal str "" d
  | _ => Literal str "" "xsd:string"
  end.

Definition isDigit (c : ascii) : bool :=
  (48 <=? nat_of_ascii c)%nat && (nat_of_ascii c <=? 57)%nat.

Fixpoint decimalValue (s : string) (acc : Z) : option Z :=
  match s with
  | EmptyString => Some acc
  | String c rest =>
      if isDigit c
      then decimalValue rest (10 * acc + Z.of_nat (nat_of_ascii c - 48))
      else None
  end.

(** String-to-number for the strings of the samples: a run of decimal digits
    is its number, the empty string is 0, and text with any other character
    in it is not a number. *)
Definition sampleStringToNumber (s : string) : JsNumber :=
  match decimalValue s 0 with
  | Some n => Finite (inject_Z n)
  | None => NaN
  end.

Definition sampleToString (t : Term) : string :=
  match t with
  | NamedNode v => "<" ++ v ++ ">"
  | BlankNode v => "_:" ++ v
  | Literal v _ _ => v
  | _ => "[object Object]"
  end.

Definition givenNameShape : Shape :=
  {| shapeNode := NamedNode "http://example.org/GivenNameShape";
     severity := T "sh:Violation";
     path := Some (NamedNode "http://example.org/givenName");
     deactivated := false |}.

Definition shapeOf (t : Term) : Shape :=
  if equals (shapeNode nameShape) t then nameShape
  else if equals (shapeNode givenNameShape) t then givenNameShape
  else personShape.

(** A shapes graph with [personShape] as the only shape with targets. *)
Definition sampleContext (targets : list Term)
    (constraintsOf : Shape -> list Constraint) : Context :=
  {| shapes_store := store;
     getShapesWithTarget := [personShape];
     getShape := shapeOf;
     getTargetNodes := fun _ _ => targets;
     getConstraints := constraintsOf;
     getValueNodes := fun _ focusNode _ => [focusNode];
     execute := sampleExecute;
     literal := sampleLiteral;
     StringToNumber := sampleStringToNumber;
     toString := sampleToString |}.

Definition isPerson (s : Shape) : bool := equals (shapeNode personShape) (shapeNode s).

(** [personShape] with one constraint, its validator called [name]. *)
Definition oneConstraint (name : string) (generic : bool) (s : Shape) : list Constraint :=
  if isPerson s
  then [constraintOf s (componentOf "sh:SampleConstraintComponent" name generic)]
  else [].

(** [personShape] nests [nameShape], which has two constraints that every
    value node violates. *)
Definition nestedConstraints (s : Shape) : list Constraint :=
  if isPerson s then [propertyConstraint s nameShape]
  else [constraintOf s (componentOf "sh:FirstConstraintComponent" "violation" true);
        constraintOf s (componentOf "sh:SecondConstraintComponent" "violation" true)].


(** [personShape] nests [nameShape], which nests [givenNameShape], whose one
    constraint every value node violates. *)
Definition deepConstraints (s : Shape) : list Constraint :=
  if isPerson s then [propertyConstraint s nameShape]
  else if equals (shapeNode nameShape) (shapeNode s)
  then [propertyConstraint s givenNameShape]
  else [constraintOf s (componentOf "sh:SampleConstraintComponent" "violation" true)].

(** A shapes graph no shape of which has targets. *)
Definition emptyContext : Context :=
  {| shapes_store := store;
     getShapesWithTarget := [];
     getShape := shapeOf;
     getTargetNodes := fun _ _ => [];
     getConstraints := fun _ => [];
     getValueNodes := fun _ focusNode _ => [focusNode];
     execute := sampleExecute;
     literal := sampleLiteral;
     StringToNumber := sampleStringToNumber;
     toString := sampleToString |}.

Definition withBatch (n : Z) (this : ValidationEngine) : ValidationEngine :=
  setConfiguration {| getValidationErrorBatch := n |} this.

(** A constraint with the parameter [value] bound to [ex:Foo]. *)
Definition fooConstraint : Constraint :=
  {| shape := personShape;
     component := componentOf "sh:SampleConstraintComponent" "violation" true;
     paramValue := NamedNode "http://example.org/Foo";
     parameterValues := [("value", NamedNode "http://example.org/Foo")];
     componentMessages := [] |}.

(** Three declarations that all match [http://example.org/vocab/...]: the
    first declared is neither the longest nor the shortest of them. *)
Definition orderedStore : Store :=
  {| namespaces := [("first", "http://example.org/");
                    ("longest", "http://example.org/vocab/");
                    ("shortest", "http://")];
     messages := fun _ => [] |}.

Definition plainContext : Context := sampleContext [] (fun _ => []).

End Sample.

(* ================================================================= *)
(** ** What a recorded violation holds *)

(** The message templates of a constraint: those of its shape; if it has
    none, those of the constraint itself; if there are none either, those of
    the component's node. *)
Definition messageTemplates (context : Context) (constraint : Constraint) : list Term :=
  match messages (shapes_store context) (shapeNode (shape constraint)) with
  | (_ :: _) as ms => ms
  | [] =>
      match componentMessages constraint with
      | (_ :: _) as ms => map (fun m => literal context m NoArg) ms
      | [] => messages (shapes_store context) (node (component constraint))
      end
  end.

Definition messageQuads (context : Context) (result : Term) (constraint : Constraint)
    : list Quad :=
  map (fun m => quad result (T "sh:resultMessage") (withSubstitutions context m constraint))
      (messageTemplates context constraint).

Definition valueQuads (result : Term) (valueNode : option Term) : list Quad :=
  match valueNode with
  | Some v => [quad result (T "sh:value") v]
  | None => []
  end.

(** The quads every result has, and the value node if there is one. *)
Definition defaultQuads (result : Term) (constraint : Constraint) (focusNode : Term)
    (valueNode : option Term) : list Quad :=
  [quad result (T "rdf:type") (T "sh:ValidationResult");
   quad result (T "sh:resultSeverity") (severity (shape constraint));
   quad result (T "sh:sourceConstraintComponent") (node (component constraint));
   quad result (T "sh:sourceShape") (shapeNode (shape constraint));
   quad result (T "sh:focusNode") focusNode]
  ++ valueQuads result valueNode.

Definition shapePathQuads (result : Term) (constraint : Constraint) : list Quad :=
  match path (shape constraint) with
  | Some p => [quad result (T "sh:resultPath") p]
  | None => []
  end.

(** The blank node the next result gets. *)
Definition freshResult (this : ValidationEngine) : Term :=
  BlankNode ("b" ++ NilEmpty.string_of_uint (Nat.to_uint (blankNodeCounter this))).

(** The engine with one more result, made of the quads [added]. *)
Definition recordedWith (added : list Quad) (this : ValidationEngine) : ValidationEngine :=
  set_results (results this ++ added)
    (set_blankNodeCounter (S (blankNodeCounter this)) this).

(** The quads of a detailed violation [{path, value, message}]: what the
    object gives goes before what the constraint and the value node give. *)
Definition detailedQuads (context : Context) (result : Term) (constraint : Constraint)
    (focusNode : Term) (valueNode objPath objValue : option Term)
    (objMessage : option string) : list Quad :=
  defaultQuads result constraint focusNode None
  ++ match objPath with
     | Some p => [quad result (T "sh:resultPath") p]
     | None => shapePathQuads result constraint
     end
  ++ match objValue with
     | Some v => [quad result (T "sh:value") v]
     | None => valueQuads result valueNode
     end
  ++ match truthyString objMessage with
     | Some m =>
         [quad result (T "sh:resultMessage")
            (literal context m (ArgTerm (T "xsd:string")))]
     | None => messageQuads context result constraint
     end.

(** How many value nodes a loop evaluates before the batch limit stops it,
    when each of them counts as a violation. *)
Definition evaluatedBeforeLimit (this : ValidationEngine) (n : nat) : nat :=
  if getValidationErrorBatch (getConfiguration this) =? -1 then n
  else Nat.min n
         (Z.to_nat (getValidationErrorBatch (getConfiguration this)
                    - violationsCount this)).

(** An evaluation whose answer [false] means that no result was added. *)
Definition quiet (m : M bool) (this : ValidationEngine) : Prop :=
  balanced this ->
  match m this with
  | Normal found this' =>
      evaluated (fun _ => True) this this'
      /\ (found = false -> results this' = results this)
  | Throw _ this' => interrupted (fun _ => True) this this'
  | Diverge => True
  end.

(** A loop body that carries a flag: the flag it returns is [false] only if
    the flag it got was and no result was added. *)
Definition flagged (body : bool -> M bool) (this : ValidationEngine) : Prop :=
  forall flag,
    balanced this ->
    match body flag this with
    | Normal found this' =>
        evaluated (fun _ => True) this this'
        /\ (found = false -> flag = false /\ results this' = results this)
    | Throw _ this' => interrupted (fun _ => True) this this'
    | Diverge => True
    end.

(** The stored failure is the same. *)
Definition sameFailure (this this' : ValidationEngine) : Prop :=
  validationError this' = validationError this.



(** The source shape each result is given: subject and object of the
    [sh:sourceShape] quads. *)
Definition attributions (quads : list Quad) : list (Term * Term) :=
  map (fun q => (subject q, object q)) (filter isSourceShapeQuad quads).

(** How many results an outcome gets where results are recorded: one for a
    violation, one for each violation among the elements of an array. *)
Definition resultsOf (obj : JsValue) : nat :=
  match obj with
  | JArray items => length (filter isViolation items)
  | _ => if isViolation obj then 1 else 0
  end.

(** An outcome that is not [null] and, if it is an array, has no [null]
    among its elements. *)
Definition withoutNull (obj : JsValue) : Prop :=
  obj <> JNull /\ forall items, obj = JArray items -> ~ In JNull items.

(** Results are recorded and counted without limit: recording is not
    suppressed, conformance-only mode is off and there is no batch limit. *)
Definition recording (this : ValidationEngine) : Prop :=
  recordErrorsLevel this <= 0
  /\ conformanceOnly this = false
  /\ getValidationErrorBatch (getConfiguration this) = -1.

(** The engine after exactly [n] results were added, each with [node] as its
    one source shape. *)
Definition recordedExactly (node : Term) (n : nat)
    (this this' : ValidationEngine) : Prop :=
  recordErrorsLevel this' = recordErrorsLevel this
  /\ conformanceOnly this' = conformanceOnly this
  /\ configuration this' = configuration this
  /\ exists added,
       results this' = (results this ++ added)%list
       /\ length (resultNodes added) = n
       /\ attributions added = map (fun r => (r, node)) (resultNodes added).

(** For the focus node [v], every constraint of the shape [nested] is its
    own, is not a property constraint, and is evaluated by a generic
    validator that returns [outcome constraint w] for the value node [w]
    without asking the engine. *)
Definition evaluatedDirectly (context : Context) (rdfDataGraph : DataGraph)
    (nested : Shape) (outcome : Constraint -> Term -> JsValue) (v : Term) : Prop :=
  forall constraint,
    In constraint (getConstraints context nested) ->
    equals (T "sh:PropertyConstraintComponent") (node (component constraint)) = false
    /\ shapeNode (shape constraint) = shapeNode nested
    /\ (if isPropertyShape (shape constraint)
        then propertyValidationFunctionGeneric (component constraint)
        else nodeValidationFunctionGeneric (component constraint)) = true
    /\ exists validationFunction,
         (if isPropertyShape (shape constraint)
          then propertyValidationFunction (component constraint)
          else nodeValidationFunction (component constraint))
         = Some validationFunction
         /\ forall w,
              In w (getValueNodes context nested v rdfDataGraph) ->
              execute context validationFunction v (Some w) constraint
              = Return (outcome constraint w)
              /\ withoutNull (outcome constraint w).

(** The violations among the outcomes for every value node of the property
    constraint, every constraint of the nested shape and every value node of
    the nested shape. *)
Definition violationsFound (context : Context) (rdfDataGraph : DataGraph)
    (nested : Shape) (outcome : Term -> Constraint -> Term -> JsValue)
    (valueNodes : list Term) : nat :=
  list_sum
    (map (fun v =>
       list_sum
         (map (fun constraint =>
            list_sum
              (map (fun w => resultsOf (outcome v constraint w))
                 (getValueNodes context nested v rdfDataGraph)))
            (getConstraints context nested)))
       valueNodes).

(** What was added gives every result one source shape. *)
Definition paired (this this' : ValidationEngine) : Prop :=
  exists added,
    results this' = (results this ++ added)%list
    /\ map fst (attributions added) = resultNodes added.

(* ================================================================= *)
(** ** Strings: prefixes, first occurrences, replacement *)

Lemma substring_whole (s : string) : String.substring 0 (String.length s) s = s.
Proof.
  induction s as [|c s IH]; simpl; [reflexivity|].
  now rewrite IH.
Qed.

Lemma substringFrom_append (ns suffix : string) :
  substringFrom (String.length ns) (ns ++ suffix) = suffix.
Proof.
  unfold substringFrom.
  induction ns as [|c ns IH]; simpl.
  - rewrite Nat.sub_0_r. apply substring_whole.
  - exact IH.
Qed.

Lemma startsWith_append (ns suffix : string) : startsWith (ns ++ suffix) ns = true.
Proof.
  unfold startsWith.
  induction ns as [|c ns IH]; simpl.
  - now destruct suffix.
  - destruct (ascii_dec c c) as [_|n]; [exact IH | now elim n].
Qed.

Lemma startsWith_split (s ns : string) :
  startsWith s ns = true -> exists suffix, s = ns ++ suffix.
Proof.
  unfold startsWith. revert s.
  induction ns as [|c ns IH]; intros s H.
  - now exists s.
  - destruct s as [|d s]; simpl in H; [discriminate|].
    destruct (ascii_dec c d) as [->|]; [|discriminate].
    destruct (IH s H) as [suffix ->]. now exists suffix.
Qed.

Lemma startsWith_iff (s ns : string) :
  startsWith s ns = true <-> exists suffix, s = ns ++ suffix.
Proof.
  split; [apply startsWith_split|].
  intros [suffix ->]. apply startsWith_append.
Qed.

Lemma splitFirst_unfold (pat s : string) :
  splitFirst pat s =
  if String.prefix pat s then Some ("", substringFrom (String.length pat) s)
  else match s with
       | EmptyString => None
       | String c s' =>
           match splitFirst pat s' with
           | Some (before, after) => Some (String c before, after)
           | None => None
           end
       end.
Proof. now destruct s. Qed.

Lemma prefix_rest (pat s : string) :
  String.prefix pat s = true -> s = pat ++ substringFrom (String.length pat) s.
Proof.
  intros E. destruct (startsWith_split _ _ E) as [suffix ->].
  now rewrite substringFrom_append.
Qed.

Lemma splitFirst_occurrence (pat s before after : string) :
  splitFirst pat s = Some (before, after) -> s = before ++ pat ++ after.
Proof.
  revert before after.
  induction s as [|c s IH]; intros before after H; rewrite splitFirst_unfold in H.
  - destruct (String.prefix pat "") eqn:E; [|discriminate].
    injection H as <- <-. now apply prefix_rest.
  - destruct (String.prefix pat (String c s)) eqn:E.
    + injection H as <- <-. now apply prefix_rest.
    + destruct (splitFirst pat s) as [[b a]|] eqn:F; [|discriminate].
      injection H as <- <-. simpl. f_equal. now apply IH.
Qed.

Lemma splitFirst_earliest (pat s before after : string) :
  splitFirst pat s = Some (before, after) ->
  forall before' after', s = before' ++ pat ++ after' ->
  (String.length before <= String.length before')%nat.
Proof.
  revert before.
  induction s as [|c s IH]; intros before H before' after' Hs;
    rewrite splitFirst_unfold in H.
  - destruct (String.prefix pat "") eqn:E; [|discriminate].
    injection H as <- _. simpl. lia.
  - destruct (String.prefix pat (String c s)) eqn:E.
    + injection H as <- _. simpl. lia.
    + destruct (splitFirst pat s) as [[b a]|] eqn:F; [|discriminate].
      injection H as <- <-.
      destruct before' as [|d before'].
      * simpl in Hs. rewrite Hs in E.
        pose proof (startsWith_append pat after') as P.
        unfold startsWith in P. congruence.
      * simpl in Hs. injection Hs as _ Hs. simpl.
        apply le_n_S. now apply (IH b eq_refl before' after').
Qed.

Lemma splitFirst_absent (pat s : string) :
  splitFirst pat s = None ->
  forall before after, s <> before ++ pat ++ after.
Proof.
  induction s as [|c s IH]; intros H before after Hs; rewrite splitFirst_unfold in H.
  - destruct (String.prefix pat "") eqn:E; [discriminate|].
    destruct before; [|discriminate].
    simpl in Hs. rewrite Hs in E.
    pose proof (startsWith_append pat after) as P. unfold startsWith in P. congruence.
  - destruct (String.prefix pat (String c s)) eqn:E; [discriminate|].
    destruct (splitFirst pat s) as [[b a]|] eqn:F; [discriminate|].
    destruct before as [|d before].
    + simpl in Hs. rewrite Hs in E.
      pose proof (startsWith_append pat after) as P. unfold startsWith in P. congruence.
    + simpl in Hs. injection Hs as _ Hs. now apply (IH eq_refl before after).
Qed.

Lemma replace_replacesFirst (str pat replacement : string) :
  replacesFirst pat replacement str (replace str pat replacement).
Proof.
  unfold replacesFirst, replace.
  destruct (splitFirst pat str) as [[before after]|] eqn:E.
  - right. exists before, after. repeat split.
    + now apply splitFirst_occurrence.
    + now apply splitFirst_earliest with (s := str) (after := after).
  - left. split; [now apply splitFirst_absent | reflexivity].
Qed.

Lemma getSubstitution_plain (matched before after replacement : string) :
  hasDollar replacement = false ->
  getSubstitution matched before after replacement = replacement.
Proof.
  induction replacement as [|c rest IH]; intros H; [reflexivity|].
  simpl in H. apply orb_false_iff in H as [Hc Hrest].
  specialize (IH Hrest).
  simpl.
  destruct c as [b0 b1 b2 b3 b4 b5 b6 b7].
  destruct b0, b1, b2, b3, b4, b5, b6, b7; try discriminate; now rewrite IH.
Qed.

(* ================================================================= *)
(** ** Labels *)

Lemma namedNodeLabel_first (iri : string) (before after : list (string * string))
    (prefix ns suffix : string) :
  (forall d, In d before -> forall sfx, iri <> snd d ++ sfx) ->
  iri = ns ++ suffix ->
  namedNodeLabel iri (before ++ (prefix, ns) :: after)%list = prefix ++ ":" ++ suffix.
Proof.
  intros Hbefore ->.
  induction before as [|[p n] before IH]; simpl.
  - now rewrite startsWith_append, substringFrom_append.
  - destruct (startsWith (ns ++ suffix) n) eqn:E.
    + apply startsWith_split in E as [sfx E].
      now elim (Hbefore (p, n) (or_introl eq_refl) sfx).
    + apply IH. intros d Hd. apply Hbefore. now right.
Qed.

Lemma namedNodeLabel_none (iri : string) (nss : list (string * string)) :
  (forall d, In d nss -> forall sfx, iri <> snd d ++ sfx) ->
  namedNodeLabel iri nss = "<" ++ iri ++ ">".
Proof.
  induction nss as [|[p n] nss IH]; intros H; simpl; [reflexivity|].
  destruct (startsWith iri n) eqn:E.
  - apply startsWith_split in E as [sfx E].
    now elim (H (p, n) (or_introl eq_refl) sfx).
  - apply IH. intros d Hd. apply H. now right.
Qed.

Lemma indexedProperties_named (props : list (string * string)) :
  (forall d, In d props -> arrayIndex (fst d) = None) ->
  indexedProperties props = [].
Proof.
  induction props as [|d rest IH]; intros Hnamed; [reflexivity|].
  simpl. rewrite (Hnamed d (or_introl eq_refl)).
  apply IH. intros e He. apply Hnamed. now right.
Qed.

Lemma namedProperties_named (props : list (string * string)) :
  (forall d, In d props -> arrayIndex (fst d) = None) ->
  namedProperties props = props.
Proof.
  unfold namedProperties.
  induction props as [|d rest IH]; intros Hnamed; [reflexivity|].
  simpl. rewrite (Hnamed d (or_introl eq_refl)). f_equal.
  apply IH. intros e He. apply Hnamed. now right.
Qed.

Lemma forIn_named (props : list (string * string)) :
  (forall d, In d props -> arrayIndex (fst d) = None) ->
  forIn props = props.
Proof.
  intros Hnamed. unfold forIn.
  now rewrite indexedProperties_named, namedProperties_named.
Qed.

Lemma In_insertIndexed (x : N * (string * string)) (n : N) (d : string * string)
    (l : list (N * (string * string))) :
  In x (insertIndexed n d l) -> x = (n, d) \/ In x l.
Proof.
  induction l as [|[m e] rest IH]; simpl.
  - intros [<-|[]]. now left.
  - destruct (n <? m)%N; simpl.
    + intros [<-|[<-|H]]; auto.
    + intros [<-|H]; auto. destruct (IH H); auto.
Qed.

Lemma In_indexedProperties (x : N * (string * string)) (props : list (string * string)) :
  In x (indexedProperties props) -> In (snd x) props.
Proof.
  induction props as [|d rest IH]; simpl; [auto|].
  destruct (arrayIndex (fst d)) as [n|]; [|auto].
  intros H. apply In_insertIndexed in H as [->|H]; auto.
Qed.

Lemma In_forIn (d : string * string) (props : list (string * string)) :
  In d (forIn props) -> In d props.
Proof.
  unfold forIn, namedProperties. rewrite in_app_iff, in_map_iff, filter_In.
  intros [(x & <- & Hx)|[H _]]; [now apply In_indexedProperties | exact H].
Qed.

(** C8, as amended: [nodeLabel] by kind of term.  A collection is labelled
    by its elements' labels with ", " between them; a named node by
    [prefix:suffix] for the first namespace that its IRI starts with, in the
    order in which [for ... in] enumerates the namespace table, and by its
    IRI in angle brackets when none does; a blank node by "Blank node " and
    its identifier; any other term by its value.  The enumeration is the
    order of the declarations as long as no prefix is an array index. *)
Theorem nodeLabel_by_term_kind (store : Store) :
  (nodeLabel (Collection []) store = ""
   /\ (forall e, nodeLabel (Collection [e]) store = nodeLabel e store)
   /\ (forall e1 e2 rest,
         nodeLabel (Collection (e1 :: e2 :: rest)) store
         = nodeLabel e1 store ++ ", " ++ nodeLabel (Collection (e2 :: rest)) store))
  /\ (forall iri before prefix ns after suffix,
        forIn (namespaces store) = (before ++ (prefix, ns) :: after)%list ->
        (forall d, In d before -> forall sfx, iri <> snd d ++ sfx) ->
        iri = ns ++ suffix ->
        nodeLabel (NamedNode iri) store = prefix ++ ":" ++ suffix)
  /\ ((forall d, In d (namespaces store) -> arrayIndex (fst d) = None) ->
      forIn (namespaces store) = namespaces store)
  /\ (forall iri,
        (forall d, In d (namespaces store) -> forall sfx, iri <> snd d ++ sfx) ->
        nodeLabel (NamedNode iri) store = "<" ++ iri ++ ">")
  /\ (forall id, nodeLabel (BlankNode id) store = "Blank node " ++ id)
  /\ (forall node,
        termType node <> "Collection" ->
        termType node <> "NamedNode" ->
        termType node <> "BlankNode" ->
        nodeLabel node store = value node).
Proof.
  split; [split; [|split]|split; [|split; [|split; [|split]]]].
  - reflexivity.
  - intros e. reflexivity.
  - intros e1 e2 rest. reflexivity.
  - intros iri before prefix ns after suffix Hns Hbefore Hiri.
    simpl. rewrite Hns. now apply namedNodeLabel_first.
  - apply forIn_named.
  - intros iri H. simpl. apply namedNodeLabel_none.
    intros d Hd. apply H. now apply In_forIn.
  - reflexivity.
  - intros [v|v|v l d| |els] H1 H2 H3; simpl in *; congruence.
Qed.

Lemma nodeLabel_by_term_kind_witness :
  (forall d, In d (namespaces Sample.orderedStore) -> arrayIndex (fst d) = None)
  /\ forIn (namespaces Sample.orderedStore)
     = ([] ++ ("first", "http://example.org/")
           :: [("longest", "http://example.org/vocab/"); ("shortest", "http://")])%list
  /\ "http://example.org/vocab/Foo" = "http://example.org/" ++ "vocab/Foo"
  /\ nodeLabel (NamedNode "http://example.org/vocab/Foo") Sample.orderedStore
     = "first" ++ ":" ++ "vocab/Foo".
Proof.
  assert (Hnamed :
    forall d, In d (namespaces Sample.orderedStore) -> arrayIndex (fst d) = None).
  { intros d [<-|[<-|[<-|[]]]]; reflexivity. }
  destruct (nodeLabel_by_term_kind Sample.orderedStore)
    as (_ & Hfirst & Hdeclared & _).
  split; [exact Hnamed|]. split; [exact (Hdeclared Hnamed)|]. split; [reflexivity|].
  apply (Hfirst "http://example.org/vocab/Foo" [] "first" "http://example.org/"
           [("longest", "http://example.org/vocab/"); ("shortest", "http://")]
           "vocab/Foo").
  - exact (Hdeclared Hnamed).
  - intros d [].
  - reflexivity.
Defined.

(** C8, as stated, fails: with [ex] declared for [http://example.org/] and,
    after it, [1] for [http://example.org/vocab/], the first declared
    namespace that the IRI [http://example.org/vocab/Foo] starts with is
    that of [ex], and the label is made with [1], which [for ... in]
    enumerates first. *)
Lemma nodeLabel_array_index_prefix_first :
  let store :=
    {| namespaces := [("ex", "http://example.org/"); ("1", "http://example.org/vocab/")];
       messages := fun _ => [] |} in
  startsWith "http://example.org/vocab/Foo" "http://example.org/" = true
  /\ nodeLabel (NamedNode "http://example.org/vocab/Foo") store = "1:Foo"
  /\ nodeLabel (NamedNode "http://example.org/vocab/Foo") store
     <> "ex" ++ ":" ++ "vocab/Foo".
Proof.
  cbv zeta. split; [reflexivity|]. split; [reflexivity | discriminate].
Qed.

(* ================================================================= *)
(** ** Message substitution *)

Lemma substituteParameter_replacesFirst (context : Context) (str key : string)
    (v : Term) :
  let label := nodeLabel v (shapes_store context) in
  exists mid,
    replacesFirst ("{$" ++ key ++ "}") label str mid
    /\ replacesFirst ("{?" ++ key ++ "}") label mid
         (substituteParameter context str (key, v)).
Proof.
  intros label. unfold substituteParameter. simpl fst. simpl snd.
  exists (replace str ("{$" ++ key ++ "}") label).
  split; apply replace_replacesFirst.
Qed.

(** C7, as amended: for each parameter in turn, [withSubstitutions] replaces
    the first occurrence of [{$name}] and then the first occurrence of
    [{?name}] by the label of the parameter's value, and leaves later
    occurrences as they are; a label without a dollar sign is inserted as it
    is.  With [ex:] declared for [http://example.org/] and [value] bound to
    [http://example.org/Foo], "Value {$value} is invalid" becomes
    "Value ex:Foo is invalid". *)
Theorem withSubstitutions_replaces_first_occurrences (context : Context) :
  (forall msg constraint,
      withSubstitutions context msg constraint
      = literal context
          (fold_left (substituteParameter context) (parameterValues constraint)
             (value msg))
          (ArgNumber (bitwiseOr context (language_of msg) (datatype_of msg))))
  /\ (forall str key v,
        exists mid,
          replacesFirst ("{$" ++ key ++ "}") (nodeLabel v (shapes_store context))
            str mid
          /\ replacesFirst ("{?" ++ key ++ "}") (nodeLabel v (shapes_store context))
               mid (substituteParameter context str (key, v)))
  /\ (forall matched before after label,
        hasDollar label = false ->
        getSubstitution matched before after label = label)
  /\ (namespaces (shapes_store context) = [("ex", "http://example.org/")] ->
      fold_left (substituteParameter context)
        [("value", NamedNode "http://example.org/Foo")]
        "Value {$value} is invalid"
      = "Value ex:Foo is invalid").
Proof.
  split; [reflexivity|].
  split; [intros; apply substituteParameter_replacesFirst|].
  split; [intros; now apply getSubstitution_plain|].
  intros Hns. unfold substituteParameter. simpl. rewrite Hns. reflexivity.
Qed.

Lemma withSubstitutions_replaces_first_occurrences_witness :
  namespaces (shapes_store Sample.plainContext) = [("ex", "http://example.org/")]
  /\ value (withSubstitutions Sample.plainContext
              (Literal "Value {$value} is invalid" "" "xsd:string")
              Sample.fooConstraint)
     = "Value ex:Foo is invalid".
Proof.
  split; [reflexivity|].
  destruct (withSubstitutions_replaces_first_occurrences Sample.plainContext)
    as (Hloop & _ & _ & Hexample).
  rewrite Hloop. simpl parameterValues. simpl value at 2.
  rewrite (Hexample eq_refl). reflexivity.
Defined.

(** C7, as stated, fails: a placeholder that occurs twice is replaced once. *)
Lemma withSubstitutions_second_occurrence_stays :
  value (withSubstitutions Sample.plainContext
           (Literal "{$value} or {$value}" "" "xsd:string") Sample.fooConstraint)
  = "ex:Foo or {$value}"
  /\ value (withSubstitutions Sample.plainContext
              (Literal "{$value} or {$value}" "" "xsd:string") Sample.fooConstraint)
     <> "ex:Foo or ex:Foo".
Proof.
  split; [reflexivity | discriminate].
Qed.

Lemma ToInt32_range (n : JsNumber) : - 2 ^ 31 <= ToInt32 n < 2 ^ 31.
Proof.
  destruct n as [| |q]; unfold ToInt32; cbv zeta;
    change (2 ^ 32) with 4294967296; change (2 ^ 31) with 2147483648;
    [lia | lia |].
  generalize (if Qle_bool 0 q then Qfloor q else Qceiling q) as int. intros int.
  pose proof (Z.mod_pos_bound int 4294967296 eq_refl) as B.
  rewrite Z.geb_leb.
  destruct (Z.leb_spec 2147483648 (int mod 4294967296)); lia.
Qed.

Lemma lor_int32 (a b : Z) :
  - 2 ^ 31 <= a < 2 ^ 31 -> - 2 ^ 31 <= b < 2 ^ 31 ->
  - 2 ^ 31 <= Z.lor a b < 2 ^ 31.
Proof.
  intros Ha Hb.
  assert (Hsign : forall x, - 2 ^ 31 <= x < 2 ^ 31 <-> (Z.shiftr x 31 = 0 \/ Z.shiftr x 31 = -1)).
  { intros x. rewrite Z.shiftr_div_pow2 by lia.
    change (2 ^ 31) with 2147483648.
    pose proof (Z.div_mod x 2147483648 ltac:(lia)).
    pose proof (Z.mod_pos_bound x 2147483648 ltac:(lia)). lia. }
  apply Hsign. rewrite Z.shiftr_lor.
  apply Hsign in Ha, Hb.
  destruct Ha as [-> | ->], Hb as [-> | ->]; simpl; auto.
Qed.

Lemma stringToNumber_zero (context : Context) (s : string) :
  s = "" \/ StringToNumber context s = NaN ->
  ToInt32 (stringToNumber context s) = 0.
Proof.
  unfold stringToNumber. intros [->|H]; [reflexivity|].
  destruct (String.eqb s ""); [reflexivity | now rewrite H].
Qed.

(** C10: the literal [withSubstitutions] builds does not keep the template's
    language tag or datatype.  Its second argument is always the 32-bit
    integer [msg.language | msg.datatype]; that integer is 0 when the
    language is empty or does not convert to a number and the datatype does
    not convert to a number, so two templates that differ only in such a tag
    or datatype give the same literal. *)
Theorem withSubstitutions_drops_language_and_datatype (context : Context)
    (v lang dt : string) (constraint : Constraint) :
  (exists n, - 2 ^ 31 <= n < 2 ^ 31
     /\ withSubstitutions context (Literal v lang dt) constraint
        = literal context
            (fold_left (substituteParameter context) (parameterValues constraint) v)
            (ArgNumber n))
  /\ (lang = "" \/ StringToNumber context lang = NaN ->
      StringToNumber context (toString context (NamedNode dt)) = NaN ->
      withSubstitutions context (Literal v lang dt) constraint
      = literal context
          (fold_left (substituteParameter context) (parameterValues constraint) v)
          (ArgNumber 0)
      /\ forall lang' dt',
           lang' = "" \/ StringToNumber context lang' = NaN ->
           StringToNumber context (toString context (NamedNode dt')) = NaN ->
           withSubstitutions context (Literal v lang' dt') constraint
           = withSubstitutions context (Literal v lang dt) constraint).
Proof.
  assert (Hzero : forall l d,
    l = "" \/ StringToNumber context l = NaN ->
    StringToNumber context (toString context (NamedNode d)) = NaN ->
    bitwiseOr context (language_of (Literal v l d)) (datatype_of (Literal v l d)) = 0).
  { intros l d Hl Hd. unfold bitwiseOr. cbn [language_of datatype_of ToNumber].
    rewrite (stringToNumber_zero context Hl).
    now rewrite (@stringToNumber_zero context (toString context (NamedNode d))
                   (or_intror Hd)). }
  split.
  - eexists. split; [|reflexivity].
    apply lor_int32; apply ToInt32_range.
  - intros Hlang Hdt. split.
    + unfold withSubstitutions. now rewrite (Hzero lang dt).
    + intros lang' dt' Hlang' Hdt'. unfold withSubstitutions.
      now rewrite (Hzero lang dt), (Hzero lang' dt').
Qed.

Lemma withSubstitutions_drops_language_and_datatype_witness :
  ("" = "" \/ StringToNumber Sample.plainContext "" = NaN)
  /\ StringToNumber Sample.plainContext
       (toString Sample.plainContext (NamedNode "xsd:string")) = NaN
  /\ withSubstitutions Sample.plainContext
       (Literal "Value {$value} is invalid" "" "xsd:string")
       Sample.fooConstraint
     = literal Sample.plainContext "Value ex:Foo is invalid" (ArgNumber 0)
  /\ ("en" = "" \/ StringToNumber Sample.plainContext "en" = NaN)
  /\ StringToNumber Sample.plainContext
       (toString Sample.plainContext (NamedNode "rdf:langString")) = NaN
  /\ withSubstitutions Sample.plainContext
       (Literal "Value {$value} is invalid" "en" "rdf:langString")
       Sample.fooConstraint
     = withSubstitutions Sample.plainContext
         (Literal "Value {$value} is invalid" "" "xsd:string")
         Sample.fooConstraint.
Proof.
  pose proof (@withSubstitutions_drops_language_and_datatype Sample.plainContext
                "Value {$value} is invalid" "" "xsd:string" Sample.fooConstraint)
    as H.
  destruct H as [_ H].
  destruct (H (or_introl eq_refl) eq_refl) as [Hzero Hsame].
  split; [now left|]. split; [reflexivity|]. split; [exact Hzero|].
  split; [now right|]. split; [reflexivity|].
  exact (Hsame "en" "rdf:langString" (or_intror eq_refl) eq_refl).
Defined.

(* ================================================================= *)
(** ** Reasoning about computations *)

Lemma bind_gets {A B} (f : ValidationEngine -> A) (k : A -> M B) this :
  bind (gets f) k this = k (f this) this.
Proof. reflexivity. Qed.

Lemma bind_modify {B} (g : ValidationEngine -> ValidationEngine) (k : unit -> M B) this :
  bind (modify g) k this = k tt (g this).
Proof. reflexivity. Qed.

Lemma bind_ret {A B} (a : A) (k : A -> M B) this : bind (ret a) k this = k a this.
Proof. reflexivity. Qed.

Lemma bind_throw {A B} (e : JsError) (k : A -> M B) this :
  bind (throw e) k this = Throw e this.
Proof. reflexivity. Qed.

Lemma bind_bind {A B C} (m : M A) (f : A -> M B) (g : B -> M C) this :
  bind (bind m f) g this = bind m (fun a => bind (f a) g) this.
Proof. unfold bind. now destruct (m this). Qed.

Section Specification.

Context {Pre : ValidationEngine -> Prop}
  {RN RT : ValidationEngine -> ValidationEngine -> Prop}
  {laws : Lawful Pre RN RT}.


Lemma sat_ret {A} (Q : A -> Prop) (a : A) this : Q a -> sat Pre RN RT Q (ret a) this.
Proof. intros H _. simpl. split; [exact H | apply RN_refl]. Qed.

Lemma sat_throw {A} (Q : A -> Prop) (e : JsError) this : sat Pre RN RT Q (throw e) this.
Proof. intros _. simpl. apply RN_sub_RT, RN_refl. Qed.

Lemma sat_weaken {A} (P Q : A -> Prop) (m : M A) this :
  sat Pre RN RT P m this -> (forall a, P a -> Q a) -> sat Pre RN RT Q m this.
Proof.
  unfold sat. intros H HPQ Hpre. specialize (H Hpre).
  destruct (m this); intuition.
Qed.

Lemma sat_bind {A B} (P : A -> Prop) (Q : B -> Prop) (m : M A) (f : A -> M B) this :
  sat Pre RN RT P m this ->
  (forall a this', P a -> RN this this' -> sat Pre RN RT Q (f a) this') ->
  sat Pre RN RT Q (bind m f) this.
Proof.
  unfold sat, bind. intros Hm Hf Hpre. specialize (Hm Hpre).
  destruct (m this) as [a this'|e this'|]; auto.
  destruct Hm as [Ha Hrel].
  specialize (Hf a this' Ha Hrel (Pre_RN _ _ Hpre Hrel)).
  destruct (f a this') as [b this''|e this''|]; auto.
  - destruct Hf as [Hb Hrel']. split; [exact Hb|]. exact (RN_trans _ _ _ Hrel Hrel').
  - exact (RN_RT _ _ _ Hrel Hf).
Qed.

Lemma sat_gets {A B} (Q : B -> Prop) (f : ValidationEngine -> A) (k : A -> M B) this :
  sat Pre RN RT Q (k (f this)) this -> sat Pre RN RT Q (bind (gets f) k) this.
Proof. trivial. Qed.

Lemma sat_modify {B} (Q : B -> Prop) (g : ValidationEngine -> ValidationEngine)
    (k : unit -> M B) this :
  RN this (g this) -> sat Pre RN RT Q (k tt) (g this) -> sat Pre RN RT Q (bind (modify g) k) this.
Proof.
  unfold sat, bind, modify. intros Hg Hk Hpre.
  specialize (Hk (Pre_RN _ _ Hpre Hg)).
  destruct (k tt (g this)) as [b this'|e this'|]; auto.
  - destruct Hk as [Hb Hrel]. split; [exact Hb|]. exact (RN_trans _ _ _ Hg Hrel).
  - exact (RN_RT _ _ _ Hg Hk).
Qed.

Lemma sat_orFlag (P Q : bool -> Prop) (call : M bool) (flag : bool) this :
  sat Pre RN RT P call this ->
  (forall b, P b -> Q (if b then true else flag)) ->
  sat Pre RN RT Q (orFlag call flag) this.
Proof.
  intros Hcall HPQ. unfold orFlag.
  apply sat_bind with (P := P); [exact Hcall|].
  intros b this' Hb _. apply sat_ret. auto.
Qed.

Lemma sat_forLoop {A S} (I : S -> Prop) (l : list A) (body : A -> S -> M S) :
  (forall x s this, In x l -> I s -> sat Pre RN RT I (body x s) this) ->
  forall s this, I s -> sat Pre RN RT I (forLoop l body s) this.
Proof.
  induction l as [|x l IH]; intros Hbody s this Hs; simpl.
  - now apply sat_ret.
  - apply sat_bind with (P := I).
    + apply Hbody; simpl; auto.
    + intros s' this' Hs' _. apply IH; auto.
      intros y t this'' Hy. apply Hbody. simpl; auto.
Qed.

End Specification.

(* ================================================================= *)
(** ** The recursion depth is only a bound *)

Lemma below_refl {A} (m : M A) : below m m.
Proof. intros this. now right. Qed.

Lemma below_trans {A} (m1 m2 m3 : M A) : below m1 m2 -> below m2 m3 -> below m1 m3.
Proof.
  intros H12 H23 this.
  destruct (H12 this) as [H|H]; [now left|].
  destruct (H23 this) as [H'|H']; [left | right]; congruence.
Qed.

Lemma below_Diverge {A} (m : M A) : below (fun _ => Diverge) m.
Proof. intros this. now left. Qed.

Lemma below_bind {A B} (m1 m2 : M A) (f1 f2 : A -> M B) :
  below m1 m2 -> (forall a, below (f1 a) (f2 a)) -> below (bind m1 f1) (bind m2 f2).
Proof.
  intros Hm Hf this. unfold bind.
  destruct (Hm this) as [H|H]; [left; now rewrite H|].
  rewrite <- H. destruct (m1 this) as [a this'|e this'|]; auto.
  apply Hf.
Qed.

Lemma below_orFlag (call1 call2 : M bool) (flag : bool) :
  below call1 call2 -> below (orFlag call1 flag) (orFlag call2 flag).
Proof.
  intros H. unfold orFlag. apply below_bind; [exact H|].
  intros b. apply below_refl.
Qed.

Lemma below_forLoop {A S} (l : list A) (body1 body2 : A -> S -> M S) :
  (forall x s, below (body1 x s) (body2 x s)) ->
  forall s, below (forLoop l body1 s) (forLoop l body2 s).
Proof.
  intros Hbody. induction l as [|x l IH]; intros s; simpl.
  - apply below_refl.
  - apply below_bind; [apply Hbody | exact IH].
Qed.

Lemma below_tryCatch {A} (body1 body2 : M A) (handler : JsError -> M A) :
  below body1 body2 -> below (tryCatch body1 handler) (tryCatch body2 handler).
Proof.
  intros H this. unfold tryCatch.
  destruct (H this) as [E|E]; [left; now rewrite E | right; now rewrite E].
Qed.

Section Deeper.

Variable context : Context.
Variables recur1 recur2 : Term -> Shape -> DataGraph -> M bool.
Hypothesis recur_below :
  forall focusNode s rdfDataGraph,
    below (recur1 focusNode s rdfDataGraph) (recur2 focusNode s rdfDataGraph).

Lemma below_runValidator (v : Validator) :
  below (runValidator recur1 v) (runValidator recur2 v).
Proof.
  induction v as [obj|e|focusNode s rdfDataGraph k IH]; simpl.
  - apply below_refl.
  - apply below_refl.
  - apply below_bind; [apply recur_below | exact IH].
Qed.

Lemma below_executeSuppressed (validationFunction : ValidationFunction)
    (focusNode : Term) (valueNode : option Term) (constraint : Constraint) :
  below
    (executeSuppressed context recur1 validationFunction focusNode valueNode constraint)
    (executeSuppressed context recur2 validationFunction focusNode valueNode constraint).
Proof.
  unfold executeSuppressed.
  apply below_bind; [apply below_refl|]. intros _.
  apply below_bind; [apply below_runValidator|]. intros obj. apply below_refl.
Qed.

Lemma below_genericLoop (validationFunction : ValidationFunction) (focusNode : Term)
    (constraint : Constraint) (valueNodes : list Term) (errorFound : bool) :
  below
    (genericLoop context recur1 validationFunction focusNode constraint valueNodes
       errorFound)
    (genericLoop context recur2 validationFunction focusNode constraint valueNodes
       errorFound).
Proof.
  revert errorFound.
  induction valueNodes as [|valueNode rest IH]; intros errorFound; simpl.
  - apply below_refl.
  - apply below_bind; [apply below_refl|]. intros [|]; [apply below_refl|].
    apply below_bind; [apply below_executeSuppressed|]. intros obj.
    apply below_bind; [apply below_refl|]. intros iterationError.
    apply below_bind; [apply below_refl|]. intros _. apply IH.
Qed.

Lemma below_validateNodeAgainstConstraint_body (focusNode : Term)
    (valueNodes : list Term) (constraint : Constraint) (rdfDataGraph : DataGraph) :
  below
    (validateNodeAgainstConstraint_body context recur1 focusNode valueNodes constraint
       rdfDataGraph)
    (validateNodeAgainstConstraint_body context recur2 focusNode valueNodes constraint
       rdfDataGraph).
Proof.
  unfold validateNodeAgainstConstraint_body.
  apply below_bind; [apply below_refl|]. intros [|]; [apply below_refl|].
  destruct (equals (T "sh:PropertyConstraintComponent") (node (component constraint))).
  - apply below_forLoop. intros valueNode errorFound.
    apply below_orFlag, recur_below.
  - destruct (if isPropertyShape (shape constraint)
              then propertyValidationFunction (component constraint)
              else nodeValidationFunction (component constraint));
      [|apply below_refl].
    destruct (if isPropertyShape (shape constraint)
              then propertyValidationFunctionGeneric (component constraint)
              else nodeValidationFunctionGeneric (component constraint)).
    + apply below_genericLoop.
    + apply below_bind; [apply below_executeSuppressed|]. intros obj.
      apply below_refl.
Qed.

Lemma below_validateNodeAgainstShape_body (focusNode : Term) (s : Shape)
    (rdfDataGraph : DataGraph) :
  below (validateNodeAgainstShape_body context recur1 focusNode s rdfDataGraph)
        (validateNodeAgainstShape_body context recur2 focusNode s rdfDataGraph).
Proof.
  unfold validateNodeAgainstShape_body.
  apply below_bind; [apply below_refl|]. intros [|]; [apply below_refl|].
  destruct (deactivated s); [apply below_refl|].
  apply below_forLoop. intros constraint errorFound.
  apply below_orFlag, below_validateNodeAgainstConstraint_body.
Qed.

End Deeper.

Lemma validateNodeAgainstShape_one_deeper (context : Context) (depth : nat)
    (focusNode : Term) (s : Shape) (rdfDataGraph : DataGraph) :
  below (validateNodeAgainstShape context depth focusNode s rdfDataGraph)
        (validateNodeAgainstShape context (S depth) focusNode s rdfDataGraph).
Proof.
  revert focusNode s rdfDataGraph.
  induction depth as [|depth IH]; intros focusNode s rdfDataGraph.
  - simpl. apply below_validateNodeAgainstShape_body.
    intros. apply below_Diverge.
  - change (below
      (validateNodeAgainstShape_body context (validateNodeAgainstShape context depth)
         focusNode s rdfDataGraph)
      (validateNodeAgainstShape_body context
         (validateNodeAgainstShape context (S depth)) focusNode s rdfDataGraph)).
    apply below_validateNodeAgainstShape_body. exact IH.
Qed.

Lemma validateNodeAgainstShape_deeper (context : Context) (depth depth' : nat)
    (focusNode : Term) (s : Shape) (rdfDataGraph : DataGraph) :
  (depth <= depth')%nat ->
  below (validateNodeAgainstShape context depth focusNode s rdfDataGraph)
        (validateNodeAgainstShape context depth' focusNode s rdfDataGraph).
Proof.
  induction 1 as [|depth' _ IH]; [apply below_refl|].
  eapply below_trans; [exact IH | apply validateNodeAgainstShape_one_deeper].
Qed.

Lemma validateAll_try_deeper (context : Context) (depth depth' : nat)
    (rdfDataGraph : DataGraph) :
  (depth <= depth')%nat ->
  below (validateAll_try context depth rdfDataGraph)
        (validateAll_try context depth' rdfDataGraph).
Proof.
  intros Hle. unfold validateAll_try.
  apply below_bind; [apply below_refl|]. intros _. cbv zeta.
  apply below_forLoop. intros s foundError.
  apply below_forLoop. intros focusNode foundError'.
  now apply below_orFlag, validateNodeAgainstShape_deeper.
Qed.

(** A run that ends within some recursion depth ends the same way within any
    greater one. *)
Lemma validateAll_deeper (context : Context) (depth depth' : nat)
    (rdfDataGraph : DataGraph) :
  (depth <= depth')%nat ->
  below (validateAll context depth rdfDataGraph)
        (validateAll context depth' rdfDataGraph).
Proof.
  intros Hle. unfold validateAll.
  apply below_bind; [apply below_refl|]. intros [|]; [apply below_refl|].
  apply below_bind; [apply below_refl|]. intros _.
  now apply below_tryCatch, validateAll_try_deeper.
Qed.

(* ================================================================= *)
(** ** The batch limit and the stored failure *)

Lemma maxErrorsReached_set_results r this :
  maxErrorsReached (set_results r this) = maxErrorsReached this.
Proof. reflexivity. Qed.

Lemma maxErrorsReached_set_validationError e this :
  maxErrorsReached (set_validationError e this) = maxErrorsReached this.
Proof. reflexivity. Qed.

Lemma maxErrorsReached_set_recordErrorsLevel l this :
  maxErrorsReached (set_recordErrorsLevel l this) = maxErrorsReached this.
Proof. reflexivity. Qed.

Lemma maxErrorsReached_limit (this : ValidationEngine) (N : Z) :
  0 < N ->
  getValidationErrorBatch (getConfiguration this) = N ->
  N <= violationsCount this ->
  maxErrorsReached this = true.
Proof.
  intros HN Hbatch Hcount. unfold maxErrorsReached. rewrite Hbatch.
  destruct (N =? -1) eqn:E; [lia|]. lia.
Qed.

Lemma getReportAgain_stored (e : JsError) (this : ValidationEngine) (n : nat) :
  validationError this = Some e ->
  truthyError e = true ->
  getReportAgain n this = Throw e this.
Proof.
  intros H Htruthy.
  induction n as [|n IH]; simpl; unfold getReport; now rewrite H, Htruthy.
Qed.

Lemma validateAll_catches (context : Context) (depth depth' : nat)
    (rdfDataGraph : DataGraph) (this this' : ValidationEngine) (e : JsError) :
  maxErrorsReached this = false ->
  validateAll_try context depth rdfDataGraph (set_validationError None this)
  = Throw e this' ->
  (depth <= depth')%nat ->
  validateAll context depth' rdfDataGraph this
  = Normal true (set_validationError (Some e) this').
Proof.
  intros Hlimit Hraise Hdeeper.
  assert (Hhere : validateAll context depth rdfDataGraph this
                  = Normal true (set_validationError (Some e) this')).
  { unfold validateAll. rewrite bind_gets, Hlimit, bind_modify.
    unfold tryCatch. now rewrite Hraise. }
  destruct (validateAll_deeper context rdfDataGraph Hdeeper this) as [H|H];
    congruence.
Qed.




(** The dispatcher's own failure: a constraint component without a validator
    for the kind of shape. *)
Lemma missing_validator_raises (context : Context) (depth : nat) (focusNode : Term)
    (valueNodes : list Term) (constraint : Constraint) (rdfDataGraph : DataGraph)
    (this : ValidationEngine) :
  maxErrorsReached this = false ->
  equals (T "sh:PropertyConstraintComponent") (node (component constraint)) = false ->
  (if isPropertyShape (shape constraint)
   then propertyValidationFunction (component constraint)
   else nodeValidationFunction (component constraint)) = None ->
  validateNodeAgainstConstraint context depth focusNode valueNodes constraint
    rdfDataGraph this
  = Throw (Error ("Cannot find validator for constraint component "
                  ++ value (node (component constraint)))) this.
Proof.
  intros Hlimit Hcomponent Hnone.
  unfold validateNodeAgainstConstraint, validateNodeAgainstConstraint_body.
  rewrite bind_gets, Hlimit, Hcomponent, Hnone. reflexivity.
Qed.

(** A validator's failure: what [execute] raises, the dispatcher raises, with
    the suppression level left one higher. *)
Lemma raising_validator_raises (context : Context) (depth : nat) (focusNode : Term)
    (valueNodes : list Term) (constraint : Constraint) (rdfDataGraph : DataGraph)
    (validationFunction : ValidationFunction) (e : JsError)
    (this : ValidationEngine) :
  maxErrorsReached this = false ->
  equals (T "sh:PropertyConstraintComponent") (node (component constraint)) = false ->
  (if isPropertyShape (shape constraint)
   then propertyValidationFunction (component constraint)
   else nodeValidationFunction (component constraint)) = Some validationFunction ->
  (if isPropertyShape (shape constraint)
   then propertyValidationFunctionGeneric (component constraint)
   else nodeValidationFunctionGeneric (component constraint)) = false ->
  execute context validationFunction focusNode None constraint = Raise e ->
  validateNodeAgainstConstraint context depth focusNode valueNodes constraint
    rdfDataGraph this
  = Throw e (set_recordErrorsLevel (recordErrorsLevel this + 1) this).
Proof.
  intros Hlimit Hcomponent Hvalidator Hgeneric Hraise.
  unfold validateNodeAgainstConstraint, validateNodeAgainstConstraint_body.
  rewrite bind_gets, Hlimit, Hcomponent, Hvalidator, Hgeneric.
  unfold executeSuppressed. now rewrite Hraise.
Qed.

(** C2, as amended: once the violation counter has reached a positive batch
    limit, [validateAll], [validateNodeAgainstShape] and
    [validateNodeAgainstConstraint] each return [true] at once, and the loop
    over the value nodes stops, with the engine left as it was and whatever
    the validators are. *)
Theorem batch_limit_reached_skips_evaluation
    (context : Context) (depth : nat) (rdfDataGraph : DataGraph)
    (this : ValidationEngine) (N : Z) (focusNode : Term) (s : Shape)
    (valueNodes : list Term) (constraint : Constraint)
    (HN : 0 < N)
    (Hbatch : getValidationErrorBatch (getConfiguration this) = N)
    (Hcount : N <= violationsCount this) :
  validateAll context depth rdfDataGraph this = Normal true this
  /\ validateNodeAgainstShape context depth focusNode s rdfDataGraph this
     = Normal true this
  /\ validateNodeAgainstConstraint context depth focusNode valueNodes constraint
       rdfDataGraph this = Normal true this
  /\ forall recur validationFunction errorFound,
       genericLoop context recur validationFunction focusNode constraint valueNodes
         errorFound this = Normal errorFound this.
Proof.
  pose proof (maxErrorsReached_limit this HN Hbatch Hcount) as Hreached.
  repeat split.
  - unfold validateAll. now rewrite bind_gets, Hreached.
  - destruct depth; simpl; unfold validateNodeAgainstShape_body;
      now rewrite bind_gets, Hreached.
  - unfold validateNodeAgainstConstraint, validateNodeAgainstConstraint_body.
    now rewrite bind_gets, Hreached.
  - intros recur validationFunction errorFound.
    destruct valueNodes; simpl; [reflexivity|]. now rewrite bind_gets, Hreached.
Qed.

Lemma batch_limit_reached_skips_evaluation_witness :
  let context := Sample.sampleContext [Sample.alice] (Sample.oneConstraint "violation" true) in
  let this := set_violationsCount 1 (Sample.withBatch 1 (constructor false)) in
  0 < 1
  /\ getValidationErrorBatch (getConfiguration this) = 1
  /\ 1 <= violationsCount this
  /\ validateAll context 0 [] this = Normal true this.
Proof.
  intros context this.
  split; [lia|]. split; [reflexivity|]. split; [simpl; lia|].
  refine (proj1 (batch_limit_reached_skips_evaluation context 0 [] this (N := 1)
                   Sample.alice Sample.personShape [Sample.alice]
                   (Sample.constraintOf Sample.personShape
                      (Sample.componentOf "sh:SampleConstraintComponent" "violation" true))
                   _ _ _)).
  - lia.
  - reflexivity.
  - simpl; lia.
Defined.

(** C2, as stated, fails: with a batch limit of 1, one value node for which
    the validator returns two violations at once gets two validation
    results, while the counter goes to 1. *)
Lemma batch_limit_does_not_bound_results :
  let context :=
    Sample.sampleContext [Sample.alice] (Sample.oneConstraint "pair" true) in
  let this := Sample.withBatch 1 (constructor false) in
  match validateAll context 0 [] this with
  | Normal _ this' =>
      violationsCount this' = 1
      /\ length (resultNodes (results this')) = 2%nat
      /\ ~ (Z.of_nat (length (resultNodes (results this')))
            <= getValidationErrorBatch (getConfiguration this))
  | _ => False
  end.
Proof.
  cbv zeta.
  match goal with |- match ?c with _ => _ end =>
    let v := eval vm_compute in c in change c with v end.
  cbv iota beta.
  split; [reflexivity|]. split; [reflexivity|]. simpl. lia.
Qed.

(* ================================================================= *)
(** ** What recording a result changes *)

Ltac destruct_engine_relations :=
  repeat match goal with
  | H : recorded _ _ _ |- _ => destruct H as (? & ? & ? & ? & ? & ? & ?)
  | H : evaluated _ _ _ |- _ => destruct H as (? & ?)
  | H : interrupted _ _ _ |- _ => destruct H as (? & ?)
  | H : grows _ _ _ |- _ => destruct H as (? & ? & ? & ? & ? & ? & ?)
  | H : untouched _ _ |- _ => destruct H as (? & ? & ? & ? & ?)
  end.

Section Recording.

Variable context : Context.
Variable P : Term -> Prop.

Lemma recorded_refl this : recorded P this this.
Proof.
  repeat split. exists []. now rewrite app_nil_r.
Qed.

Lemma recorded_trans a b c : recorded P a b -> recorded P b c -> recorded P a c.
Proof.
  intros Hab Hbc. destruct_engine_relations.
  repeat split; try congruence.
  match goal with
  | H1 : results b = (_ ++ ?x)%list, H2 : results c = (_ ++ ?y)%list |- _ =>
      exists (x ++ y)%list; rewrite H2, H1, app_assoc; split; [reflexivity|];
      now apply Forall_app
  end.
Qed.

#[global] Instance recorded_lawful : Lawful (fun _ => True) (recorded P) (recorded P).
Proof.
  constructor; auto using recorded_refl; apply recorded_trans.
Qed.

Lemma grows_refl this : grows P this this.
Proof.
  repeat split; try lia. exists []. now rewrite app_nil_r.
Qed.

Lemma grows_trans a b c :
  recordErrorsLevel a <= recordErrorsLevel b ->
  grows P a b -> grows P b c -> grows P a c.
Proof.
  intros Hlevel Hab Hbc. destruct_engine_relations.
  repeat split; try congruence; try lia.
  match goal with
  | H1 : results b = (_ ++ ?x)%list, H2 : results c = (_ ++ ?y)%list |- _ =>
      exists (x ++ y)%list; rewrite H2, H1, app_assoc; split; [reflexivity|];
      split; [now apply Forall_app|]
  end.
  intros Hpos.
  match goal with
  | H1 : 0 < recordErrorsLevel a -> _, H2 : 0 < recordErrorsLevel b -> _ |- _ =>
      rewrite H1, H2 by lia; reflexivity
  end.
Qed.

#[global] Instance evaluated_lawful : Lawful balanced (evaluated P) (interrupted P).
Proof.
  constructor.
  - intros this. split; [reflexivity | apply grows_refl].
  - intros a b c [Lab Gab] [Lbc Gbc]. split; [congruence|].
    apply grows_trans with b; auto; lia.
  - intros a b c [Lab Gab] [Lbc Gbc]. split; [lia|].
    apply grows_trans with b; auto; lia.
  - intros a b [Lab Gab]. split; [lia | exact Gab].
  - intros a b Ha [Lab _]. unfold balanced in *. lia.
Qed.

(** What a result adds is allowed when recording is not suppressed. *)
Lemma recorded_evaluated {A} (Q : A -> Prop) (m : M A) this :
  recordErrorsLevel this <= 0 ->
  sat (fun _ => True) (recorded P) (recorded P) Q m this ->
  sat balanced (evaluated P) (interrupted P) Q m this.
Proof.
  intros Hlevel Hm _. specialize (Hm I).
  assert (Hconv : forall this', recorded P this this' -> evaluated P this this').
  { intros this' H. destruct_engine_relations.
    split; [assumption|]. repeat split; try assumption; try lia.
    eexists; split; [eassumption|]. split; [assumption|]. intros; lia. }
  destruct (m this) as [a this'|e this'|]; auto.
  - destruct Hm. auto.
  - apply RN_sub_RT. auto.
Qed.

Lemma blankNode_recorded this :
  sat (fun _ => True) (recorded P) (recorded P) (fun _ : Term => True) blankNode this.
Proof.
  intros _. simpl. split; [exact I|].
  repeat split. exists []. simpl. now rewrite app_nil_r.
Qed.

Lemma addResultProperty_recorded (result predicate object : Term) this :
  (equals (T "sh:sourceShape") predicate = true -> P object) ->
  sat (fun _ => True) (recorded P) (recorded P) (fun _ : unit => True)
    (addResultProperty result predicate object) this.
Proof.
  intros H _. simpl. split; [exact I|].
  repeat split. eexists. split; [reflexivity|].
  constructor; [exact H | constructor].
Qed.

Ltac recorded_step :=
  first
    [ apply sat_ret; exact I
    | apply addResultProperty_recorded;
      first [ assumption | let H := fresh in intros H; simpl in H; discriminate H ]
    | apply sat_bind with (P := fun _ => True); [| intros ? ? _ _] ].

Lemma createResult_recorded (constraint : Constraint) (focusNode : Term)
    (valueNode : option Term) this :
  P (shapeNode (shape constraint)) ->
  sat (fun _ => True) (recorded P) (recorded P) (fun _ : Term => True)
    (createResult constraint focusNode valueNode) this.
Proof.
  intros HP. unfold createResult.
  apply sat_bind with (P := fun _ => True); [apply blankNode_recorded|].
  intros result this1 _ _.
  assert (Hsource : equals (T "sh:sourceShape") (T "sh:sourceShape") = true -> 
                    P (shapeNode (shape constraint))) by auto.
  do 5 (recorded_step; [recorded_step|]).
  recorded_step; [destruct valueNode; recorded_step|].
  recorded_step.
Qed.

Lemma addShapePath_recorded (result : Term) (constraint : Constraint) this :
  sat (fun _ => True) (recorded P) (recorded P) (fun _ : unit => True)
    (addShapePath result constraint) this.
Proof.
  unfold addShapePath.
  destruct (isPropertyShape (shape constraint)); [|recorded_step].
  destruct (path (shape constraint)); recorded_step.
Qed.

Lemma createResultMessages_recorded (result : Term) (constraint : Constraint) this :
  sat (fun _ => True) (recorded P) (recorded P) (fun _ : unit => True)
    (createResultMessages context result constraint) this.
Proof.
  unfold createResultMessages.
  apply sat_forLoop; [|exact I].
  intros m [] this' _ _. recorded_step.
Qed.

End Recording.

(* ================================================================= *)
(** ** What an evaluation changes *)

Lemma getPath_recorded (P : Term -> Prop) (obj : JsValue) this :
  sat (fun _ => True) (recorded P) (recorded P) (fun _ : option Term => True)
    (getPath obj) this.
Proof. destruct obj; simpl; first [now apply sat_ret | apply sat_throw]. Qed.

Lemma getValue_recorded (P : Term -> Prop) (obj : JsValue) this :
  sat (fun _ => True) (recorded P) (recorded P) (fun _ : option Term => True)
    (getValue obj) this.
Proof. destruct obj; simpl; first [now apply sat_ret | apply sat_throw]. Qed.

Lemma getMessage_recorded (P : Term -> Prop) (obj : JsValue) this :
  sat (fun _ => True) (recorded P) (recorded P) (fun _ : option string => True)
    (getMessage obj) this.
Proof. destruct obj; simpl; first [now apply sat_ret | apply sat_throw]. Qed.

Ltac recorded_steps :=
  repeat first
    [ apply sat_ret; exact I
    | apply createResult_recorded; assumption
    | apply addShapePath_recorded
    | apply createResultMessages_recorded
    | apply getPath_recorded
    | apply getValue_recorded
    | apply getMessage_recorded
    | apply addResultProperty_recorded;
      let H := fresh in intros H; simpl in H; discriminate H
    | apply sat_bind with (P := fun _ => True); [| intros ? ? _ _]
    | match goal with
      | |- sat _ _ _ _ (match ?x with _ => _ end) _ => destruct x
      end ].

Lemma createResultFromObject_evaluated (context : Context) (P : Term -> Prop)
    (obj : JsValue) (constraint : Constraint) (focusNode : Term)
    (valueNode : option Term) this :
  P (shapeNode (shape constraint)) ->
  sat balanced (evaluated P) (interrupted P) (fun _ : bool => True)
    (createResultFromObject context obj constraint focusNode valueNode) this.
Proof.
  intros HP.
  assert (Hsuppressed :
    forall m : M bool,
      sat (fun _ => True) (recorded P) (recorded P) (fun _ : bool => True) m this ->
      sat balanced (evaluated P) (interrupted P) (fun _ : bool => True)
        (level <- gets recordErrorsLevel ;;
         conformance <- gets conformanceOnly ;;
         if level >? 0 then (if conformance then ret false else ret true)
         else if conformance then ret false else m) this).
  { intros m Hm. do 2 apply sat_gets.
    destruct (recordErrorsLevel this >? 0) eqn:E;
      destruct (conformanceOnly this); try (now apply sat_ret).
    apply recorded_evaluated; [lia | exact Hm]. }
  unfold createResultFromObject.
  destruct obj as [| |[|]| | | |]; simpl String.eqb; cbv iota;
    try (now apply sat_ret);
    apply Hsuppressed; recorded_steps.
Qed.

Lemma createResultsFromOutcome_evaluated (context : Context) (P : Term -> Prop)
    (obj : JsValue) (constraint : Constraint) (focusNode : Term)
    (valueNode : option Term) this :
  P (shapeNode (shape constraint)) ->
  sat balanced (evaluated P) (interrupted P) (fun _ : bool => True)
    (createResultsFromOutcome context obj constraint focusNode valueNode) this.
Proof.
  intros HP. unfold createResultsFromOutcome.
  assert (Hone : forall o flag this',
    sat balanced (evaluated P) (interrupted P) (fun _ : bool => True)
      (orFlag (createResultFromObject context o constraint focusNode valueNode) flag)
      this').
  { intros o flag this'. eapply sat_orFlag.
    - now apply createResultFromObject_evaluated.
    - auto. }
  destruct obj; try apply Hone.
  apply sat_forLoop; [|exact I]. intros; apply Hone.
Qed.

Lemma sat_suppressed {A} (P P' : Term -> Prop) (Q : A -> Prop) (m : M A) this :
  0 < recordErrorsLevel this ->
  sat balanced (evaluated P) (interrupted P) Q m this ->
  sat balanced (evaluated P') (interrupted P') Q m this.
Proof.
  intros Hlevel Hm Hpre. specialize (Hm Hpre).
  assert (Hgrows : forall this', grows P this this' -> grows P' this this').
  { intros this' H. destruct_engine_relations.
    repeat split; try assumption.
    match goal with Hadded : 0 < _ -> ?added = [] |- _ =>
      exists added; rewrite (Hadded Hlevel) in *; auto
    end. }
  destruct (m this) as [a this'|e this'|]; auto.
  - destruct Hm as (Ha & Hl & Hg).
    split; [exact Ha|]. split; [exact Hl|]. now apply Hgrows.
  - destruct Hm as (Hl & Hg). split; [exact Hl|]. now apply Hgrows.
Qed.

Lemma sat_attributed_more {A} (P P' : Term -> Prop) (Q : A -> Prop) (m : M A) this :
  (forall t, P t -> P' t) ->
  sat balanced (evaluated P) (interrupted P) Q m this ->
  sat balanced (evaluated P') (interrupted P') Q m this.
Proof.
  intros HPP Hm Hpre. specialize (Hm Hpre).
  assert (Hgrows : forall this', grows P this this' -> grows P' this this').
  { intros this' H. destruct_engine_relations.
    repeat split; try assumption.
    match goal with Hall : Forall _ ?added |- _ =>
      exists added; repeat split; auto;
      eapply Forall_impl; [|exact Hall]; unfold attributed; auto
    end. }
  destruct (m this) as [a this'|e this'|]; auto.
  - destruct Hm as (Ha & Hl & Hg).
    split; [exact Ha|]. split; [exact Hl|]. now apply Hgrows.
  - destruct Hm as (Hl & Hg). split; [exact Hl|]. now apply Hgrows.
Qed.

Section Evaluation.

Variable context : Context.

(** The shapes a result of evaluating a shape may name: closed under the
    constraints of the shape and under nesting. *)
Variable Allowed : Shape -> Term -> Prop.
Hypothesis Allowed_own :
  forall s constraint,
    In constraint (getConstraints context s) ->
    Allowed s (shapeNode (shape constraint)).
Hypothesis Allowed_nested :
  forall s constraint t,
    In constraint (getConstraints context s) ->
    equals (T "sh:PropertyConstraintComponent") (node (component constraint)) = true ->
    Allowed (getShape context (paramValue constraint)) t ->
    Allowed s t.

Variable recur : Term -> Shape -> DataGraph -> M bool.
Hypothesis recur_evaluated :
  forall focusNode s rdfDataGraph this,
    sat balanced (evaluated (Allowed s)) (interrupted (Allowed s))
      (fun _ : bool => True) (recur focusNode s rdfDataGraph) this.

Lemma runValidator_suppressed (P : Term -> Prop) (v : Validator) this :
  0 < recordErrorsLevel this ->
  sat balanced (evaluated P) (interrupted P) (fun _ : JsValue => True)
    (runValidator recur v) this.
Proof.
  revert this.
  induction v as [obj|e|focusNode s rdfDataGraph k IH]; intros this Hlevel; simpl.
  - now apply sat_ret.
  - apply sat_throw.
  - apply sat_bind with (P := fun _ => True).
    + apply sat_suppressed with (P := Allowed s); auto.
    + intros found this' _ [Hl _]. apply IH. lia.
Qed.

Lemma executeSuppressed_evaluated (P : Term -> Prop)
    (validationFunction : ValidationFunction) (focusNode : Term)
    (valueNode : option Term) (constraint : Constraint) this :
  sat balanced (evaluated P) (interrupted P) (fun _ : JsValue => True)
    (executeSuppressed context recur validationFunction focusNode valueNode
       constraint) this.
Proof.
  intros Hbalanced. unfold balanced in Hbalanced.
  unfold executeSuppressed. rewrite bind_modify.
  set (this1 := set_recordErrorsLevel (recordErrorsLevel this + 1) this).
  assert (H1 : 0 < recordErrorsLevel this1) by (simpl; lia).
  pose proof (@runValidator_suppressed P
                (execute context validationFunction focusNode valueNode constraint)
                this1 H1) as Hrun.
  assert (Hb1 : balanced this1) by (unfold balanced; lia).
  specialize (Hrun Hb1). unfold bind at 1.
  destruct (runValidator recur _ this1) as [obj this2|e this2|]; auto.
  - destruct Hrun as (_ & Hl & Hg). simpl.
    split; [exact I|]. destruct_engine_relations.
    match goal with Hadded : 0 < _ -> ?added = [] |- _ =>
      rewrite (Hadded H1) in *
    end.
    subst this1; simpl in *.
    unfold evaluated, interrupted, grows; simpl.
    repeat split; try assumption; try lia.
    exists []. repeat split; auto.
  - destruct Hrun as (Hl & Hg). destruct_engine_relations.
    match goal with Hadded : 0 < _ -> ?added = [] |- _ =>
      rewrite (Hadded H1) in *
    end.
    subst this1; simpl in *.
    unfold evaluated, interrupted, grows; simpl.
    repeat split; try assumption; try lia.
    exists []. repeat split; auto.
Qed.

Lemma countViolation_evaluated (P : Term -> Prop) (iterationError : bool) this :
  sat balanced (evaluated P) (interrupted P) (fun _ : unit => True)
    (if iterationError
     then modify (fun this => set_violationsCount (violationsCount this + 1) this)
     else ret tt) this.
Proof.
  destruct iterationError; [|now apply sat_ret].
  intros _. simpl. split; [exact I|]. split; [reflexivity|].
  repeat split; simpl; try lia.
  exists []. rewrite app_nil_r. auto.
Qed.

Lemma genericLoop_evaluated (P : Term -> Prop)
    (validationFunction : ValidationFunction) (focusNode : Term)
    (constraint : Constraint) (valueNodes : list Term) (errorFound : bool) this :
  P (shapeNode (shape constraint)) ->
  sat balanced (evaluated P) (interrupted P) (fun _ : bool => True)
    (genericLoop context recur validationFunction focusNode constraint valueNodes
       errorFound) this.
Proof.
  intros HP. revert errorFound this.
  induction valueNodes as [|valueNode rest IH]; intros errorFound this; simpl.
  - now apply sat_ret.
  - apply sat_gets. destruct (maxErrorsReached this); [now apply sat_ret|].
    apply sat_bind with (P := fun _ => True);
      [apply executeSuppressed_evaluated|]. intros obj this1 _ _.
    apply sat_bind with (P := fun _ => True);
      [now apply createResultsFromOutcome_evaluated|]. intros iterationError this2 _ _.
    apply sat_bind with (P := fun _ => True);
      [apply countViolation_evaluated|]. intros [] this3 _ _.
    apply IH.
Qed.

Lemma validateNodeAgainstConstraint_body_evaluated (P : Term -> Prop)
    (focusNode : Term) (valueNodes : list Term) (constraint : Constraint)
    (rdfDataGraph : DataGraph) this :
  (equals (T "sh:PropertyConstraintComponent") (node (component constraint)) = false ->
   P (shapeNode (shape constraint))) ->
  (equals (T "sh:PropertyConstraintComponent") (node (component constraint)) = true ->
   forall t, Allowed (getShape context (paramValue constraint)) t -> P t) ->
  sat balanced (evaluated P) (interrupted P) (fun _ : bool => True)
    (validateNodeAgainstConstraint_body context recur focusNode valueNodes constraint
       rdfDataGraph) this.
Proof.
  intros Hown Hnested. unfold validateNodeAgainstConstraint_body.
  apply sat_gets. destruct (maxErrorsReached this); [now apply sat_ret|].
  destruct (equals (T "sh:PropertyConstraintComponent") (node (component constraint)))
    eqn:Hcomponent.
  - apply sat_forLoop; [|exact I].
    intros valueNode errorFound this' _ _.
    eapply sat_orFlag; [|auto].
    apply sat_attributed_more
      with (P := Allowed (getShape context (paramValue constraint))).
    + now apply Hnested.
    + apply recur_evaluated.
  - pose proof (Hown eq_refl) as HP.
    destruct (if isPropertyShape (shape constraint)
              then propertyValidationFunction (component constraint)
              else nodeValidationFunction (component constraint))
      as [validationFunction|]; [|apply sat_throw].
    destruct (if isPropertyShape (shape constraint)
              then propertyValidationFunctionGeneric (component constraint)
              else nodeValidationFunctionGeneric (component constraint)).
    + now apply genericLoop_evaluated.
    + apply sat_bind with (P := fun _ => True);
        [apply executeSuppressed_evaluated|]. intros obj this1 _ _.
      now apply createResultsFromOutcome_evaluated.
Qed.

Lemma validateNodeAgainstShape_body_evaluated (focusNode : Term) (s : Shape)
    (rdfDataGraph : DataGraph) this :
  sat balanced (evaluated (Allowed s)) (interrupted (Allowed s))
    (fun _ : bool => True)
    (validateNodeAgainstShape_body context recur focusNode s rdfDataGraph) this.
Proof.
  unfold validateNodeAgainstShape_body.
  apply sat_gets. destruct (maxErrorsReached this); [now apply sat_ret|].
  destruct (deactivated s); [now apply sat_ret|].
  apply sat_forLoop; [|exact I].
  intros constraint errorFound this' Hin _.
  eapply sat_orFlag; [|auto].
  apply validateNodeAgainstConstraint_body_evaluated.
  - intros _. now apply Allowed_own.
  - intros Hcomponent t. now apply Allowed_nested.
Qed.

End Evaluation.

Section Invariants.

Variable context : Context.
Variable Allowed : Shape -> Term -> Prop.
Hypothesis Allowed_own :
  forall s constraint,
    In constraint (getConstraints context s) ->
    Allowed s (shapeNode (shape constraint)).
Hypothesis Allowed_nested :
  forall s constraint t,
    In constraint (getConstraints context s) ->
    equals (T "sh:PropertyConstraintComponent") (node (component constraint)) = true ->
    Allowed (getShape context (paramValue constraint)) t ->
    Allowed s t.

Lemma Diverge_sat {A} Pre RN RT (Q : A -> Prop) this :
  sat Pre RN RT Q (fun _ => Diverge) this.
Proof. intros _. exact I. Qed.

Lemma validateNodeAgainstShape_evaluated (depth : nat) (focusNode : Term) (s : Shape)
    (rdfDataGraph : DataGraph) this :
  sat balanced (evaluated (Allowed s)) (interrupted (Allowed s))
    (fun _ : bool => True)
    (validateNodeAgainstShape context depth focusNode s rdfDataGraph) this.
Proof.
  revert focusNode s rdfDataGraph this.
  induction depth as [|depth IH]; intros focusNode s rdfDataGraph this; simpl;
    apply validateNodeAgainstShape_body_evaluated with (Allowed := Allowed); auto.
  intros. apply Diverge_sat.
Qed.

Lemma validateNodeAgainstConstraint_evaluated (P : Term -> Prop) (depth : nat)
    (focusNode : Term) (valueNodes : list Term) (constraint : Constraint)
    (rdfDataGraph : DataGraph) this :
  (equals (T "sh:PropertyConstraintComponent") (node (component constraint)) = false ->
   P (shapeNode (shape constraint))) ->
  (equals (T "sh:PropertyConstraintComponent") (node (component constraint)) = true ->
   forall t, Allowed (getShape context (paramValue constraint)) t -> P t) ->
  sat balanced (evaluated P) (interrupted P) (fun _ : bool => True)
    (validateNodeAgainstConstraint context depth focusNode valueNodes constraint
       rdfDataGraph) this.
Proof.
  intros HP Hnested. unfold validateNodeAgainstConstraint.
  apply validateNodeAgainstConstraint_body_evaluated with (Allowed := Allowed); auto.
  destruct depth; intros.
  - apply Diverge_sat.
  - apply validateNodeAgainstShape_evaluated.
Qed.

End Invariants.

(* ================================================================= *)
(** ** Specifications that every evaluation keeps *)

Section Traversal.

Variable context : Context.

Context {Pre : ValidationEngine -> Prop}
  {RN RT : ValidationEngine -> ValidationEngine -> Prop}
  {laws : Lawful Pre RN RT}.

(** What the boolean an evaluation returns satisfies. *)
Variable Qb : bool -> Prop.
Hypothesis Qb_false : Qb false.
Hypothesis Qb_reached : forall this, Pre this -> maxErrorsReached this = true -> Qb true.
Hypothesis Qb_flag : forall b flag, Qb b -> Qb flag -> Qb (if b then true else flag).
Hypothesis Qb_or : forall a b, Qb a -> Qb b -> Qb (a || b).

Hypothesis level_kept :
  forall l this, RN this (set_recordErrorsLevel l this).
Hypothesis count_kept :
  forall b this, Qb b ->
    sat Pre RN RT (fun _ : unit => True)
      (if b then modify (fun this => set_violationsCount (violationsCount this + 1) this)
       else ret tt) this.
Hypothesis outcome_kept :
  forall obj constraint focusNode valueNode this,
    sat Pre RN RT Qb
      (createResultsFromOutcome context obj constraint focusNode valueNode) this.

Section Step.

Variable recur : Term -> Shape -> DataGraph -> M bool.
Hypothesis recur_kept :
  forall focusNode s rdfDataGraph this,
    sat Pre RN RT Qb (recur focusNode s rdfDataGraph) this.

Lemma sat_reached {A} (Q : A -> Prop) (k : bool -> M A) this :
  (Pre this -> sat Pre RN RT Q (k (maxErrorsReached this)) this) ->
  sat Pre RN RT Q (reached <- gets maxErrorsReached ;; k reached) this.
Proof. intros H Hpre. now apply H. Qed.

Lemma runValidator_kept (v : Validator) this :
  sat Pre RN RT (fun _ : JsValue => True) (runValidator recur v) this.
Proof.
  revert this.
  induction v as [obj|e|focusNode s rdfDataGraph k IH]; intros this; simpl.
  - now apply sat_ret.
  - apply sat_throw.
  - apply sat_bind with (P := Qb); [apply recur_kept|].
    intros found this' _ _. apply IH.
Qed.

Lemma executeSuppressed_kept (validationFunction : ValidationFunction)
    (focusNode : Term) (valueNode : option Term) (constraint : Constraint) this :
  sat Pre RN RT (fun _ : JsValue => True)
    (executeSuppressed context recur validationFunction focusNode valueNode
       constraint) this.
Proof.
  unfold executeSuppressed.
  apply sat_modify; [apply level_kept|].
  apply sat_bind with (P := fun _ => True); [apply runValidator_kept|].
  intros obj this' _ _.
  apply sat_modify; [apply level_kept|].
  now apply sat_ret.
Qed.

Lemma genericLoop_kept (validationFunction : ValidationFunction) (focusNode : Term)
    (constraint : Constraint) (valueNodes : list Term) (errorFound : bool) this :
  Qb errorFound ->
  sat Pre RN RT Qb
    (genericLoop context recur validationFunction focusNode constraint valueNodes
       errorFound) this.
Proof.
  revert errorFound this.
  induction valueNodes as [|valueNode rest IH]; intros errorFound this Hfound; simpl.
  - now apply sat_ret.
  - apply sat_gets. destruct (maxErrorsReached this); [now apply sat_ret|].
    apply sat_bind with (P := fun _ => True); [apply executeSuppressed_kept|].
    intros obj this1 _ _.
    apply sat_bind with (P := Qb); [apply outcome_kept|].
    intros iterationError this2 Hiteration _.
    apply sat_bind with (P := fun _ => True); [now apply count_kept|].
    intros [] this3 _ _.
    apply IH. now apply Qb_or.
Qed.

Lemma validateNodeAgainstConstraint_body_kept (focusNode : Term)
    (valueNodes : list Term) (constraint : Constraint) (rdfDataGraph : DataGraph)
    this :
  sat Pre RN RT Qb
    (validateNodeAgainstConstraint_body context recur focusNode valueNodes constraint
       rdfDataGraph) this.
Proof.
  unfold validateNodeAgainstConstraint_body.
  apply sat_reached. intros Hpre.
  destruct (maxErrorsReached this) eqn:Hreached;
    [apply sat_ret; now apply Qb_reached with this|].
  destruct (equals (T "sh:PropertyConstraintComponent") (node (component constraint))).
  - apply sat_forLoop; [|exact Qb_false].
    intros valueNode errorFound this' _ Hfound.
    eapply sat_orFlag; [apply recur_kept|]. intros b Hb. now apply Qb_flag.
  - destruct (if isPropertyShape (shape constraint)
              then propertyValidationFunction (component constraint)
              else nodeValidationFunction (component constraint))
      as [validationFunction|]; [|apply sat_throw].
    destruct (if isPropertyShape (shape constraint)
              then propertyValidationFunctionGeneric (component constraint)
              else nodeValidationFunctionGeneric (component constraint)).
    + now apply genericLoop_kept.
    + apply sat_bind with (P := fun _ => True); [apply executeSuppressed_kept|].
      intros obj this1 _ _. apply outcome_kept.
Qed.

Lemma validateNodeAgainstShape_body_kept (focusNode : Term) (s : Shape)
    (rdfDataGraph : DataGraph) this :
  sat Pre RN RT Qb
    (validateNodeAgainstShape_body context recur focusNode s rdfDataGraph) this.
Proof.
  unfold validateNodeAgainstShape_body.
  apply sat_reached. intros Hpre.
  destruct (maxErrorsReached this) eqn:Hreached;
    [apply sat_ret; now apply Qb_reached with this|].
  destruct (deactivated s); [now apply sat_ret|].
  apply sat_forLoop; [|exact Qb_false].
  intros constraint errorFound this' _ Hfound.
  eapply sat_orFlag; [apply validateNodeAgainstConstraint_body_kept|].
  intros b Hb. now apply Qb_flag.
Qed.

End Step.

Lemma validateNodeAgainstShape_kept (depth : nat) (focusNode : Term) (s : Shape)
    (rdfDataGraph : DataGraph) this :
  sat Pre RN RT Qb (validateNodeAgainstShape context depth focusNode s rdfDataGraph)
    this.
Proof.
  revert focusNode s rdfDataGraph this.
  induction depth as [|depth IH]; intros focusNode s rdfDataGraph this; simpl;
    apply validateNodeAgainstShape_body_kept; auto.
  intros ? ? ? ? _. exact I.
Qed.

Lemma validateNodeAgainstConstraint_kept (depth : nat) (focusNode : Term)
    (valueNodes : list Term) (constraint : Constraint) (rdfDataGraph : DataGraph)
    this :
  sat Pre RN RT Qb
    (validateNodeAgainstConstraint context depth focusNode valueNodes constraint
       rdfDataGraph) this.
Proof.
  unfold validateNodeAgainstConstraint.
  apply validateNodeAgainstConstraint_body_kept.
  destruct depth; intros.
  - intros _. exact I.
  - apply validateNodeAgainstShape_kept.
Qed.

(** The two loops of [validateAll]. *)
Lemma traversal_kept (depth : nat) (rdfDataGraph : DataGraph) this :
  sat Pre RN RT Qb
    (forLoop (getShapesWithTarget context) (fun s foundError =>
       forLoop (getTargetNodes context s rdfDataGraph) (fun focusNode foundError =>
         orFlag (validateNodeAgainstShape context depth focusNode s rdfDataGraph)
           foundError) foundError) false) this.
Proof.
  apply sat_forLoop; [|exact Qb_false]. intros s foundError this1 _ Hfound.
  apply sat_forLoop; [|exact Hfound]. intros focusNode foundError' this2 _ Hfound'.
  eapply sat_orFlag; [apply validateNodeAgainstShape_kept|].
  intros b Hb. now apply Qb_flag.
Qed.

End Traversal.

(* ================================================================= *)
(** ** Conformance-only mode and the counter *)

#[global] Instance untouched_lawful : Lawful conforming untouched untouched.
Proof.
  constructor.
  - intros this. repeat split.
  - intros a b c Hab Hbc. destruct_engine_relations. repeat split; congruence.
  - intros a b c Hab Hbc. destruct_engine_relations. repeat split; congruence.
  - auto.
  - intros a b [Hc Hl] Hab. destruct_engine_relations.
    split; [congruence|].
    unfold maxErrorsReached, getConfiguration in *.
    match goal with
    | H1 : configuration b = configuration a,
      H2 : violationsCount b = violationsCount a |- _ => rewrite H1, H2
    end.
    exact Hl.
Qed.

#[global] Instance counted_lawful : Lawful (fun _ => True) counted counted.
Proof.
  constructor; unfold counted; intros; auto; lia.
Qed.

Lemma createResultFromObject_conforming (context : Context) (obj : JsValue)
    (constraint : Constraint) (focusNode : Term) (valueNode : option Term) this :
  sat conforming untouched untouched (fun b : bool => b = false)
    (createResultFromObject context obj constraint focusNode valueNode) this.
Proof.
  unfold createResultFromObject.
  destruct obj as [| |[|]| | | |]; simpl String.eqb; cbv iota;
    try (now apply sat_ret);
    do 2 apply sat_gets;
    intros [Hconformance _]; rewrite Hconformance;
    destruct (recordErrorsLevel this >? 0);
    simpl; repeat split.
Qed.

Lemma createResultsFromOutcome_conforming (context : Context) (obj : JsValue)
    (constraint : Constraint) (focusNode : Term) (valueNode : option Term) this :
  sat conforming untouched untouched (fun b : bool => b = false)
    (createResultsFromOutcome context obj constraint focusNode valueNode) this.
Proof.
  unfold createResultsFromOutcome.
  assert (Hone : forall o flag this', flag = false ->
    sat conforming untouched untouched (fun b : bool => b = false)
      (orFlag (createResultFromObject context o constraint focusNode valueNode) flag)
      this').
  { intros o flag this' ->. eapply sat_orFlag.
    - apply createResultFromObject_conforming.
    - now intros b ->. }
  destruct obj; try now apply Hone.
  apply sat_forLoop; [|reflexivity]. intros; now apply Hone.
Qed.

Lemma createResultFromObject_recorded (context : Context) (P : Term -> Prop)
    (obj : JsValue) (constraint : Constraint) (focusNode : Term)
    (valueNode : option Term) this :
  P (shapeNode (shape constraint)) ->
  sat (fun _ => True) (recorded P) (recorded P) (fun _ : bool => True)
    (createResultFromObject context obj constraint focusNode valueNode) this.
Proof.
  intros HP. unfold createResultFromObject.
  destruct obj as [| |[|]| | | |]; simpl String.eqb; cbv iota;
    try (now apply sat_ret);
    do 2 apply sat_gets;
    destruct (recordErrorsLevel this >? 0); destruct (conformanceOnly this);
    recorded_steps.
Qed.

Lemma createResultsFromOutcome_counted (context : Context) (obj : JsValue)
    (constraint : Constraint) (focusNode : Term) (valueNode : option Term) this :
  sat (fun _ => True) counted counted (fun _ : bool => True)
    (createResultsFromOutcome context obj constraint focusNode valueNode) this.
Proof.
  assert (Hone : forall o this',
    sat (fun _ => True) counted counted (fun _ : bool => True)
      (createResultFromObject context o constraint focusNode valueNode) this').
  { intros o this' _.
    pose proof (@createResultFromObject_recorded context (fun _ => True) o constraint
                  focusNode valueNode this' I I) as H.
    destruct (createResultFromObject context o constraint focusNode valueNode this')
      as [b this''|e this''|]; [destruct H as [_ H]; split; [exact I|] | | exact I];
      destruct_engine_relations; unfold counted; lia. }
  unfold createResultsFromOutcome.
  destruct obj; try (eapply sat_orFlag; [apply Hone | auto]).
  apply sat_forLoop; [|exact I]. intros.
  eapply sat_orFlag; [apply Hone | auto].
Qed.

Lemma validateNodeAgainstShape_conforming (context : Context) (depth : nat)
    (focusNode : Term) (s : Shape) (rdfDataGraph : DataGraph) this :
  sat conforming untouched untouched (fun b : bool => b = false)
    (validateNodeAgainstShape context depth focusNode s rdfDataGraph) this.
Proof.
  apply validateNodeAgainstShape_kept.
  - exact _.
  - reflexivity.
  - intros this' [_ Hlimit] Hreached. congruence.
  - now intros b flag -> ->.
  - now intros a b -> ->.
  - intros l this'. repeat split.
  - intros b this' -> . now apply sat_ret.
  - intros. apply createResultsFromOutcome_conforming.
Qed.

Lemma traversal_conforming (context : Context) (depth : nat)
    (rdfDataGraph : DataGraph) this :
  sat conforming untouched untouched (fun b : bool => b = false)
    (forLoop (getShapesWithTarget context) (fun s foundError =>
       forLoop (getTargetNodes context s rdfDataGraph) (fun focusNode foundError =>
         orFlag (validateNodeAgainstShape context depth focusNode s rdfDataGraph)
           foundError) foundError) false) this.
Proof.
  apply traversal_kept.
  - exact _.
  - reflexivity.
  - intros this' [_ Hlimit] Hreached. congruence.
  - now intros b flag -> ->.
  - now intros a b -> ->.
  - intros l this'. repeat split.
  - intros b this' -> . now apply sat_ret.
  - intros. apply createResultsFromOutcome_conforming.
Qed.

Lemma traversal_counted (context : Context) (depth : nat)
    (rdfDataGraph : DataGraph) this :
  sat (fun _ => True) counted counted (fun _ : bool => True)
    (forLoop (getShapesWithTarget context) (fun s foundError =>
       forLoop (getTargetNodes context s rdfDataGraph) (fun focusNode foundError =>
         orFlag (validateNodeAgainstShape context depth focusNode s rdfDataGraph)
           foundError) foundError) false) this.
Proof.
  apply traversal_kept; try exact _; auto.
  - intros l this'. unfold counted. simpl. lia.
  - intros [|] this' _; [|now apply sat_ret].
    intros _. simpl. split; [exact I|]. unfold counted. simpl. lia.
  - intros. apply createResultsFromOutcome_counted.
Qed.

(* ================================================================= *)
(** ** Suppressed recording *)

Lemma suppressed_results_kept {A} (P : Term -> Prop) (Q : A -> Prop) (m : M A) this :
  0 < recordErrorsLevel this ->
  sat balanced (evaluated P) (interrupted P) Q m this ->
  match m this with
  | Normal _ this' => results this' = results this
  | Throw _ this' => results this' = results this
  | Diverge => True
  end.
Proof.
  intros Hlevel Hm.
  assert (Hbalanced : balanced this) by (unfold balanced; lia).
  specialize (Hm Hbalanced).
  destruct (m this) as [a this'|e this'|]; auto;
    [destruct Hm as [_ Hm]|]; destruct_engine_relations;
    match goal with
    | Hadded : 0 < _ -> ?added = [], Hres : results _ = _ |- _ =>
        rewrite (Hadded Hlevel), app_nil_r in Hres; exact Hres
    end.
Qed.

(* ================================================================= *)
(** ** Conformance-only mode *)

(** What a run in conformance-only mode leaves behind: no result and the
    counter as it was, so that the report, when [getReport] gives one, has
    no results; the answer is [true] only if the batch limit was reached on
    entry or a failure was caught. *)
Lemma conformanceOnly_records_nothing
    (context : Context) (depth : nat) (rdfDataGraph : DataGraph)
    (this : ValidationEngine)
    (Hconformance : conformanceOnly this = true)
    (Hempty : results this = []) :
  match validateAll context depth rdfDataGraph this with
  | Normal found this' =>
      results this' = []
      /\ violationsCount this' = violationsCount this
      /\ found = (maxErrorsReached this
                  || match validationError this' with
                     | Some _ => true
                     | None => false
                     end)
      /\ (forall report this'',
            getReport this' = Normal report this'' -> reportQuads report = [])
  | Throw _ _ => False
  | Diverge => True
  end.
Proof.
  assert (Hreport : forall this',
    results this' = [] ->
    forall report this'',
      getReport this' = Normal report this'' -> reportQuads report = []).
  { intros this' Hres report this''. unfold getReport.
    destruct (validationError this') as [e|];
      [destruct (truthyError e); [discriminate|]|];
      intros H; injection H as <- _; exact Hres. }
  unfold validateAll. rewrite bind_gets.
  destruct (maxErrorsReached this) eqn:Hreached.
  - simpl. repeat split; auto. now apply Hreport.
  - rewrite bind_modify. unfold tryCatch, validateAll_try. rewrite bind_modify.
    cbv zeta.
    set (this1 := set_results [] (set_validationError None this)).
    assert (Hpre : conforming this1) by (split; assumption).
    pose proof (@traversal_conforming context depth rdfDataGraph this1 Hpre) as H.
    destruct (forLoop _ _ false this1) as [found this'|e this'|]; [| |exact I].
    + destruct H as [-> H]. destruct_engine_relations.
      match goal with
      | Hres : results this' = _, Herr : validationError this' = _ |- _ =>
          rewrite Herr; simpl; repeat split; auto; apply Hreport; exact Hres
      end.
    + destruct_engine_relations. simpl.
      repeat split; auto. apply Hreport. simpl. assumption.
Qed.

Lemma conformanceOnly_records_nothing_witness :
  let context :=
    Sample.sampleContext [Sample.alice] (Sample.oneConstraint "violation" false) in
  let this := constructor true in
  conformanceOnly this = true
  /\ results this = []
  /\ match validateAll context 0 [] this with
     | Normal found this' =>
         results this' = []
         /\ violationsCount this' = violationsCount this
         /\ found = (maxErrorsReached this
                     || match validationError this' with
                        | Some _ => true
                        | None => false
                        end)
         /\ (forall report this'',
               getReport this' = Normal report this'' -> reportQuads report = [])
     | Throw _ _ => False
     | Diverge => True
     end.
Proof.
  intros context this.
  split; [reflexivity|]. split; [reflexivity|].
  exact (conformanceOnly_records_nothing context 0 [] this eq_refl eq_refl).
Defined.

(** C4: the code at the failing input.  For one node that violates one
    constraint, the run that records results returns [true] with one
    result; the conformance-only run records nothing and returns [false],
    and so does [validateNodeAgainstShape], which is to return [true] if any
    violation has been found. *)
Lemma conformanceOnly_boolean_differs :
  let context :=
    Sample.sampleContext [Sample.alice] (Sample.oneConstraint "violation" false) in
  match validateAll context 0 [] (constructor false),
        validateAll context 0 [] (constructor true),
        validateNodeAgainstShape context 0 Sample.alice Sample.personShape []
          (constructor true) with
  | Normal recording this1, Normal conformance this2, Normal found this3 =>
      recording = true /\ length (resultNodes (results this1)) = 1%nat
      /\ conformance = false /\ results this2 = []
      /\ recording <> conformance
      /\ found = false
  | _, _, _ => False
  end.
Proof.
  cbv zeta.
  repeat match goal with
  | |- context [match ?c with Normal _ _ => _ | Throw _ _ => _ | Diverge => _ end] =>
      match c with
      | Normal _ _ => fail 1
      | _ => let v := eval vm_compute in c in change c with v
      end
  end.
  cbv iota beta. repeat split. discriminate.
Qed.

(* ================================================================= *)
(** ** What [validateAll] resets *)

(** C5, as amended: if the batch limit is reached on entry, [validateAll]
    returns [true] and leaves the engine as it is.  Otherwise it starts from
    an empty result accumulator and no stored failure, whatever they were
    before; the violation counter is not reset: the run goes on counting from
    its value on entry. *)
Theorem validateAll_resets_results_keeps_counter
    (context : Context) (depth : nat) (rdfDataGraph : DataGraph)
    (this : ValidationEngine) :
  if maxErrorsReached this
  then validateAll context depth rdfDataGraph this = Normal true this
  else
    (forall r e,
        validateAll context depth rdfDataGraph
          (set_results r (set_validationError e this))
        = validateAll context depth rdfDataGraph this)
    /\ match validateAll context depth rdfDataGraph this with
       | Normal _ this' => violationsCount this <= violationsCount this'
       | Throw _ _ => False
       | Diverge => True
       end
    /\ (getShapesWithTarget context = [] ->
        validateAll context depth rdfDataGraph this
        = Normal false (set_results [] (set_validationError None this))).
Proof.
  destruct (maxErrorsReached this) eqn:Hreached.
  - unfold validateAll. now rewrite bind_gets, Hreached.
  - split; [|split].
    + intros r e. unfold validateAll. rewrite !bind_gets.
      rewrite maxErrorsReached_set_results, maxErrorsReached_set_validationError.
      rewrite Hreached, !bind_modify.
      unfold tryCatch, validateAll_try. rewrite !bind_modify. reflexivity.
    + unfold validateAll. rewrite bind_gets, Hreached, bind_modify.
      unfold tryCatch, validateAll_try. rewrite bind_modify. cbv zeta.
      set (this1 := set_results [] (set_validationError None this)).
      pose proof (@traversal_counted context depth rdfDataGraph this1 I) as H.
      destruct (forLoop _ _ false this1) as [found this'|e this'|]; [| |exact I].
      * destruct H as [_ H]. exact H.
      * exact H.
    + intros Hnone. unfold validateAll. rewrite bind_gets, Hreached, bind_modify.
      unfold tryCatch, validateAll_try. rewrite bind_modify. cbv zeta.
      now rewrite Hnone.
Qed.

(** C5, as stated, fails: the counter is not reset.  A first run over one
    violating value node leaves it at 1, and a second run on the same engine
    ends with 2. *)
Lemma validateAll_keeps_violation_count :
  let context :=
    Sample.sampleContext [Sample.alice] (Sample.oneConstraint "violation" true) in
  match validateAll context 0 [] (constructor false) with
  | Normal _ this1 =>
      violationsCount this1 = 1
      /\ maxErrorsReached this1 = false
      /\ match validateAll context 0 [] this1 with
         | Normal _ this2 => violationsCount this2 = 2 /\ violationsCount this2 <> 1
         | _ => False
         end
  | _ => False
  end.
Proof.
  cbv zeta.
  match goal with |- match ?c with _ => _ end =>
    let v := eval vm_compute in c in change c with v end.
  cbv iota beta. split; [reflexivity|]. split; [reflexivity|].
  match goal with |- match ?c with _ => _ end =>
    let v := eval vm_compute in c in change c with v end.
  cbv iota beta. split; [reflexivity | discriminate].
Qed.

(* ================================================================= *)
(** ** Nested shapes *)

Lemma attributed_sourceShapes (P : Term -> Prop) (added : list Quad) :
  Forall (attributed P) added -> forall t, In t (sourceShapes added) -> P t.
Proof.
  intros Hall t Hin. unfold sourceShapes in Hin.
  apply in_map_iff in Hin as (q & <- & Hq).
  apply filter_In in Hq as [Hq Hsource].
  rewrite Forall_forall in Hall. now apply (Hall q Hq).
Qed.

Lemma nestedShapeNode_own (context : Context) :
  constraintsOwned context ->
  forall s constraint,
    In constraint (getConstraints context s) ->
    nestedShapeNode context s (shapeNode (shape constraint)).
Proof.
  intros Howned s constraint Hin. exists s. split; [constructor|].
  now apply Howned.
Qed.

Lemma nestedShapeNode_nested (context : Context) :
  forall s constraint t,
    In constraint (getConstraints context s) ->
    equals (T "sh:PropertyConstraintComponent") (node (component constraint)) = true ->
    nestedShapeNode context (getShape context (paramValue constraint)) t ->
    nestedShapeNode context s t.
Proof.
  intros s constraint t Hin Hcomponent (s' & Hnests & ->).
  exists s'. split; [|reflexivity]. now apply nests_inside with constraint.
Qed.

Lemma nestedConstraints_owned :
  constraintsOwned (Sample.sampleContext [Sample.alice] Sample.nestedConstraints).
Proof.
  intros s constraint. simpl. unfold Sample.nestedConstraints.
  destruct (Sample.isPerson s); simpl; intuition; subst; reflexivity.
Qed.

(** C6, as stated, fails: a value node that violates two constraints of the
    nested shape gets two results; and when the nested shape nests a shape
    itself, the result names that innermost shape and not the nested one. *)
Lemma nested_value_node_with_two_results :
  (let context := Sample.sampleContext [Sample.alice] Sample.nestedConstraints in
   let constraint := Sample.propertyConstraint Sample.personShape Sample.nameShape in
   match validateNodeAgainstConstraint context 1 Sample.alice [Sample.alice]
           constraint [] (constructor false) with
   | Normal found this' =>
       found = true
       /\ length [Sample.alice] = 1%nat
       /\ length (resultNodes (results this')) = 2%nat
       /\ sourceShapes (results this')
          = [shapeNode Sample.nameShape; shapeNode Sample.nameShape]
   | _ => False
   end)
  /\ (let context := Sample.sampleContext [Sample.alice] Sample.deepConstraints in
      let constraint := Sample.propertyConstraint Sample.personShape Sample.nameShape in
      match validateNodeAgainstConstraint context 2 Sample.alice [Sample.alice]
              constraint [] (constructor false) with
      | Normal found this' =>
          found = true
          /\ getShape context (paramValue constraint) = Sample.nameShape
          /\ sourceShapes (results this') = [shapeNode Sample.givenNameShape]
          /\ shapeNode Sample.givenNameShape <> shapeNode Sample.nameShape
      | _ => False
      end).
Proof.
  split; cbv zeta;
    match goal with |- match ?c with _ => _ end =>
      let v := eval vm_compute in c in change c with v end;
    cbv iota beta; repeat split; discriminate.
Qed.

(* ================================================================= *)
(** ** A null outcome *)

Lemma createResultFromObject_null (context : Context) (constraint : Constraint)
    (focusNode : Term) (valueNode : option Term) (this : ValidationEngine) :
  recordErrorsLevel this = 0 ->
  conformanceOnly this = false ->
  exists this',
    createResultFromObject context JNull constraint focusNode valueNode this
    = Throw (TypeError "Cannot read properties of null (reading 'path')") this'.
Proof.
  intros Hlevel Hconformance. unfold createResultFromObject.
  cbn [typeof]. simpl (String.eqb _ _). cbv iota.
  rewrite !bind_gets, Hlevel, Hconformance. simpl (0 >? 0). cbv iota.
  eexists. reflexivity.
Qed.

Lemma executeSuppressed_return (context : Context)
    (recur : Term -> Shape -> DataGraph -> M bool)
    (validationFunction : ValidationFunction) (focusNode : Term)
    (valueNode : option Term) (constraint : Constraint) (obj : JsValue) this :
  execute context validationFunction focusNode valueNode constraint = Return obj ->
  executeSuppressed context recur validationFunction focusNode valueNode constraint
    this
  = Normal obj
      (set_recordErrorsLevel (recordErrorsLevel this + 1 - 1)
         (set_recordErrorsLevel (recordErrorsLevel this + 1) this)).
Proof.
  intros Hexecute. unfold executeSuppressed. now rewrite Hexecute.
Qed.

Lemma null_outcome_raises_in_dispatch (context : Context)
    (recur : Term -> Shape -> DataGraph -> M bool) (focusNode : Term)
    (valueNodes : list Term) (constraint : Constraint) (rdfDataGraph : DataGraph)
    (validationFunction : ValidationFunction) (this : ValidationEngine) :
  maxErrorsReached this = false ->
  recordErrorsLevel this = 0 ->
  conformanceOnly this = false ->
  equals (T "sh:PropertyConstraintComponent") (node (component constraint)) = false ->
  (if isPropertyShape (shape constraint)
   then propertyValidationFunction (component constraint)
   else nodeValidationFunction (component constraint)) = Some validationFunction ->
  (if (if isPropertyShape (shape constraint)
       then propertyValidationFunctionGeneric (component constraint)
       else nodeValidationFunctionGeneric (component constraint))
   then exists valueNode rest,
          valueNodes = valueNode :: rest
          /\ execute context validationFunction focusNode (Some valueNode) constraint
             = Return JNull
   else execute context validationFunction focusNode None constraint = Return JNull) ->
  exists this',
    validateNodeAgainstConstraint_body context recur focusNode valueNodes constraint
      rdfDataGraph this
    = Throw (TypeError "Cannot read properties of null (reading 'path')") this'.
Proof.
  intros Hlimit Hlevel Hconformance Hcomponent Hvalidator Hnull.
  unfold validateNodeAgainstConstraint_body.
  rewrite bind_gets, Hlimit, Hcomponent, Hvalidator.
  set (this1 := set_recordErrorsLevel (recordErrorsLevel this + 1 - 1)
                  (set_recordErrorsLevel (recordErrorsLevel this + 1) this)).
  assert (Hlevel1 : recordErrorsLevel this1 = 0) by (simpl; lia).
  assert (Hconformance1 : conformanceOnly this1 = false) by exact Hconformance.
  destruct (if isPropertyShape (shape constraint)
            then propertyValidationFunctionGeneric (component constraint)
            else nodeValidationFunctionGeneric (component constraint)).
  - destruct Hnull as (valueNode & rest & -> & Hexecute). simpl genericLoop.
    rewrite bind_gets, Hlimit.
    unfold bind at 1. erewrite executeSuppressed_return by exact Hexecute.
    fold this1.
    destruct (@createResultFromObject_null context constraint focusNode
                (Some valueNode) this1 Hlevel1 Hconformance1) as [this' Hthrow].
    exists this'. unfold bind at 1. unfold createResultsFromOutcome, orFlag.
    unfold bind at 1. now rewrite Hthrow.
  - unfold bind at 1. erewrite executeSuppressed_return by exact Hnull.
    fold this1.
    destruct (@createResultFromObject_null context constraint focusNode
                None this1 Hlevel1 Hconformance1) as [this' Hthrow].
    exists this'. unfold createResultsFromOutcome, orFlag.
    unfold bind at 1. now rewrite Hthrow.
Qed.

(** C9: a validator that returns [null] while recording is enabled and
    conformance-only mode is off makes [createResultFromObject] take the
    object branch and raise when it reads [obj.path]; the failure ends the
    run, [validateAll] stores it and returns [true], and [getReport] raises
    it.  The null outcome is not taken for the absence of a violation. *)
Theorem null_outcome_raises
    (context : Context) (depth : nat) (rdfDataGraph : DataGraph)
    (this : ValidationEngine) (s : Shape) (shapes : list Shape)
    (focusNode : Term) (focusNodes : list Term)
    (constraint : Constraint) (constraints : list Constraint)
    (validationFunction : ValidationFunction)
    (Hlimit : maxErrorsReached this = false)
    (Hlevel : recordErrorsLevel this = 0)
    (Hconformance : conformanceOnly this = false)
    (Hshapes : getShapesWithTarget context = s :: shapes)
    (Htargets : getTargetNodes context s rdfDataGraph = focusNode :: focusNodes)
    (Hactive : deactivated s = false)
    (Hconstraints : getConstraints context s = constraint :: constraints)
    (Hcomponent :
       equals (T "sh:PropertyConstraintComponent") (node (component constraint)) = false)
    (Hvalidator :
       (if isPropertyShape (shape constraint)
        then propertyValidationFunction (component constraint)
        else nodeValidationFunction (component constraint)) = Some validationFunction)
    (Hnull :
       if (if isPropertyShape (shape constraint)
           then propertyValidationFunctionGeneric (component constraint)
           else nodeValidationFunctionGeneric (component constraint))
       then exists valueNode rest,
              getValueNodes context s focusNode rdfDataGraph = valueNode :: rest
              /\ execute context validationFunction focusNode (Some valueNode)
                   constraint = Return JNull
       else execute context validationFunction focusNode None constraint
            = Return JNull) :
  (forall c f v this0,
      recordErrorsLevel this0 = 0 ->
      conformanceOnly this0 = false ->
      exists this1,
        createResultFromObject context JNull c f v this0
        = Throw (TypeError "Cannot read properties of null (reading 'path')") this1)
  /\ exists this',
       validateAll context depth rdfDataGraph this = Normal true this'
       /\ validationError this'
          = Some (TypeError "Cannot read properties of null (reading 'path')")
       /\ forall n,
            getReportAgain n this'
            = Throw (TypeError "Cannot read properties of null (reading 'path')") this'.
Proof.
  split; [intros; now apply createResultFromObject_null|].
  set (this1 := set_results [] (set_validationError None this)).
  assert (Hdispatch : forall recur, exists this',
    validateNodeAgainstShape_body context recur focusNode s rdfDataGraph this1
    = Throw (TypeError "Cannot read properties of null (reading 'path')") this').
  { intros recur. unfold validateNodeAgainstShape_body.
    rewrite bind_gets.
    replace (maxErrorsReached this1) with false by (symmetry; exact Hlimit).
    rewrite Hactive, Hconstraints. simpl forLoop.
    destruct (@null_outcome_raises_in_dispatch context recur focusNode
                (getValueNodes context s focusNode rdfDataGraph) constraint
                rdfDataGraph validationFunction this1 Hlimit Hlevel Hconformance
                Hcomponent Hvalidator Hnull) as [this' Hthrow].
    exists this'. unfold orFlag. unfold bind at 1. unfold bind at 1.
    now rewrite Hthrow. }
  assert (Htry : exists this',
    validateAll_try context depth rdfDataGraph (set_validationError None this)
    = Throw (TypeError "Cannot read properties of null (reading 'path')") this').
  { unfold validateAll_try. rewrite bind_modify. cbv zeta. fold this1.
    rewrite Hshapes. simpl forLoop. rewrite Htargets. simpl forLoop.
    assert (Hshape : exists this',
      validateNodeAgainstShape context depth focusNode s rdfDataGraph this1
      = Throw (TypeError "Cannot read properties of null (reading 'path')") this')
      by (destruct depth; simpl; apply Hdispatch).
    destruct Hshape as [this' Hthrow]. exists this'.
    unfold orFlag. unfold bind at 1. unfold bind at 1. unfold bind at 1.
    now rewrite Hthrow. }
  destruct Htry as [this' Htry].
  exists (set_validationError
            (Some (TypeError "Cannot read properties of null (reading 'path')")) this').
  split; [now apply validateAll_catches with depth|].
  split; [reflexivity|]. intros n. now apply getReportAgain_stored.
Qed.

Lemma null_outcome_raises_witness :
  let context :=
    Sample.sampleContext [Sample.alice] (Sample.oneConstraint "null" false) in
  let this := constructor false in
  exists this',
    validateAll context 0 [] this = Normal true this'
    /\ validationError this'
       = Some (TypeError "Cannot read properties of null (reading 'path')")
    /\ forall n,
         getReportAgain n this'
         = Throw (TypeError "Cannot read properties of null (reading 'path')") this'.
Proof.
  intros context this.
  pose proof (@null_outcome_raises context 0%nat [] this Sample.personShape []
                Sample.alice []
                (Sample.constraintOf Sample.personShape
                   (Sample.componentOf "sh:SampleConstraintComponent" "null" false))
                [] {| funcName := "null" |}
                eq_refl eq_refl eq_refl eq_refl eq_refl eq_refl eq_refl eq_refl
                eq_refl eq_refl) as H.
  destruct H as [_ H]. exact H.
Defined.

(* ================================================================= *)
(** ** The quads of a result *)

Lemma bind_Normal {A B} (m : M A) (f : A -> M B) (a : A) this this' :
  m this = Normal a this' -> bind m f this = f a this'.
Proof. intros H. unfold bind. now rewrite H. Qed.

Lemma bind_Throw {A B} (m : M A) (f : A -> M B) (e : JsError) this this' :
  m this = Throw e this' -> bind m f this = Throw e this'.
Proof. intros H. unfold bind. now rewrite H. Qed.

Lemma set_results_same this : set_results (results this) this = this.
Proof. now destruct this. Qed.

Lemma set_results_twice r r' this :
  set_results r (set_results r' this) = set_results r this.
Proof. reflexivity. Qed.

Lemma recordedWith_more (added more : list Quad) this :
  set_results (results (recordedWith added this) ++ more) (recordedWith added this)
  = recordedWith (added ++ more) this.
Proof.
  unfold recordedWith. simpl. now rewrite app_assoc.
Qed.

Lemma addResultProperty_run (result predicate object : Term) this :
  addResultProperty result predicate object this
  = Normal tt (set_results (results this ++ [quad result predicate object]) this).
Proof. reflexivity. Qed.

Lemma createResult_run (constraint : Constraint) (focusNode : Term)
    (valueNode : option Term) this :
  createResult constraint focusNode valueNode this
  = Normal (freshResult this)
      (recordedWith (defaultQuads (freshResult this) constraint focusNode valueNode)
         this).
Proof.
  unfold createResult, blankNode, recordedWith, defaultQuads, freshResult.
  destruct valueNode; simpl; unfold bind, gets, modify, ret, addResultProperty;
    simpl; repeat rewrite <- app_assoc; reflexivity.
Qed.

Lemma addShapePath_run (result : Term) (constraint : Constraint) this :
  addShapePath result constraint this
  = Normal tt (set_results (results this ++ shapePathQuads result constraint) this).
Proof.
  unfold addShapePath, shapePathQuads, isPropertyShape.
  destruct (path (shape constraint)); simpl; [reflexivity|].
  now rewrite app_nil_r, set_results_same.
Qed.

Lemma forLoop_addResultProperty {A} (result predicate : Term) (g : A -> Term)
    (l : list A) this :
  forLoop l (fun x _ => addResultProperty result predicate (g x)) tt this
  = Normal tt
      (set_results (results this ++ map (fun x => quad result predicate (g x)) l) this).
Proof.
  revert this. induction l as [|x l IH]; intros this; simpl.
  - now rewrite app_nil_r, set_results_same.
  - erewrite bind_Normal by apply addResultProperty_run.
    rewrite IH. simpl. now rewrite <- app_assoc.
Qed.

Lemma messageTemplates_selected (context : Context) (constraint : Constraint) :
  (let ms := messages (shapes_store context) (shapeNode (shape constraint)) in
   let ms :=
     if (length ms =? 0)%nat
     then map (fun m => literal context m NoArg) (componentMessages constraint)
     else ms in
   if (length ms =? 0)%nat
   then messages (shapes_store context) (node (component constraint))
   else ms)
  = messageTemplates context constraint.
Proof.
  unfold messageTemplates. cbv zeta.
  destruct (messages (shapes_store context) (shapeNode (shape constraint))); simpl;
    [|reflexivity].
  destruct (componentMessages constraint); reflexivity.
Qed.

Lemma createResultMessages_run (context : Context) (result : Term)
    (constraint : Constraint) this :
  createResultMessages context result constraint this
  = Normal tt
      (set_results (results this ++ messageQuads context result constraint) this).
Proof.
  unfold createResultMessages. cbv zeta.
  pose proof (messageTemplates_selected context constraint) as Hselected.
  cbv zeta in Hselected. rewrite Hselected.
  unfold messageQuads.
  apply (forLoop_addResultProperty result (T "sh:resultMessage")
           (fun m => withSubstitutions context m constraint)).
Qed.

(** X1: [createResultMessages] takes the templates of the shape; if the
    shape has none, those of the constraint; if there are none either, those
    of the component's node.  It adds one [sh:resultMessage] quad for each
    template, in their order, with the substituted literal, and changes
    nothing else. *)
Theorem createResultMessages_adds_selected_templates (context : Context)
    (result : Term) (constraint : Constraint) (this : ValidationEngine) :
  createResultMessages context result constraint this
  = Normal tt
      (set_results (results this ++ messageQuads context result constraint) this)
  /\ (messages (shapes_store context) (shapeNode (shape constraint)) <> [] ->
      messageTemplates context constraint
      = messages (shapes_store context) (shapeNode (shape constraint)))
  /\ (messages (shapes_store context) (shapeNode (shape constraint)) = [] ->
      componentMessages constraint <> [] ->
      messageTemplates context constraint
      = map (fun m => literal context m NoArg) (componentMessages constraint))
  /\ (messages (shapes_store context) (shapeNode (shape constraint)) = [] ->
      componentMessages constraint = [] ->
      messageTemplates context constraint
      = messages (shapes_store context) (node (component constraint))).
Proof.
  split; [|split; [|split]].
  - apply createResultMessages_run.
  - unfold messageTemplates.
    destruct (messages (shapes_store context) (shapeNode (shape constraint)));
      [now intros H | reflexivity].
  - unfold messageTemplates. intros -> H.
    destruct (componentMessages constraint); [now elim H | reflexivity].
  - unfold messageTemplates. now intros -> ->.
Qed.

Lemma resultNodes_app (a b : list Quad) :
  resultNodes (a ++ b) = (resultNodes a ++ resultNodes b)%list.
Proof. unfold resultNodes. now rewrite filter_app, map_app. Qed.

Lemma resultNodes_defaultQuads (result : Term) (constraint : Constraint)
    (focusNode : Term) (valueNode : option Term) :
  resultNodes (defaultQuads result constraint focusNode valueNode) = [result].
Proof. now destruct valueNode. Qed.

Lemma resultNodes_shapePathQuads (result : Term) (constraint : Constraint) :
  resultNodes (shapePathQuads result constraint) = [].
Proof. unfold shapePathQuads. now destruct (path (shape constraint)). Qed.

Lemma resultNodes_valueQuads (result : Term) (valueNode : option Term) :
  resultNodes (valueQuads result valueNode) = [].
Proof. now destruct valueNode. Qed.

Lemma resultNodes_messageQuads (context : Context) (result : Term)
    (constraint : Constraint) :
  resultNodes (messageQuads context result constraint) = [].
Proof.
  unfold messageQuads.
  induction (messageTemplates context constraint) as [|m ms IH]; [reflexivity|].
  exact IH.
Qed.

Lemma not_suppressed (this : ValidationEngine) :
  recordErrorsLevel this <= 0 -> (recordErrorsLevel this >? 0) = false.
Proof. lia. Qed.

Lemma createResultFromObject_false_run (context : Context) (constraint : Constraint)
    (focusNode : Term) (valueNode : option Term) (this : ValidationEngine) :
  recordErrorsLevel this <= 0 ->
  conformanceOnly this = false ->
  createResultFromObject context (JBoolean false) constraint focusNode valueNode this
  = Normal true
      (recordedWith
         (defaultQuads (freshResult this) constraint focusNode valueNode
          ++ shapePathQuads (freshResult this) constraint
          ++ messageQuads context (freshResult this) constraint) this).
Proof.
  intros Hlevel Hconformance. unfold createResultFromObject.
  rewrite !bind_gets, (not_suppressed this Hlevel), Hconformance.
  erewrite bind_Normal by apply createResult_run.
  erewrite bind_Normal by apply addShapePath_run.
  erewrite bind_Normal by apply createResultMessages_run.
  now rewrite !recordedWith_more, <- app_assoc.
Qed.

Lemma createResultFromObject_string_run (context : Context) (message : string)
    (constraint : Constraint) (focusNode : Term) (valueNode : option Term)
    (this : ValidationEngine) :
  recordErrorsLevel this <= 0 ->
  conformanceOnly this = false ->
  createResultFromObject context (JString message) constraint focusNode valueNode this
  = Normal true
      (recordedWith
         (defaultQuads (freshResult this) constraint focusNode valueNode
          ++ shapePathQuads (freshResult this) constraint
          ++ [quad (freshResult this) (T "sh:resultMessage")
                (literal context message (ArgTerm (T "xsd:string")))]
          ++ messageQuads context (freshResult this) constraint) this).
Proof.
  intros Hlevel Hconformance. unfold createResultFromObject.
  rewrite !bind_gets, (not_suppressed this Hlevel), Hconformance.
  erewrite bind_Normal by apply createResult_run.
  erewrite bind_Normal by apply addShapePath_run.
  erewrite bind_Normal by apply addResultProperty_run.
  erewrite bind_Normal by apply createResultMessages_run.
  now rewrite !recordedWith_more, <- !app_assoc.
Qed.

Lemma createResultFromObject_object_run (context : Context)
    (objPath objValue : option Term) (objMessage : option string)
    (constraint : Constraint) (focusNode : Term) (valueNode : option Term)
    (this : ValidationEngine) :
  recordErrorsLevel this <= 0 ->
  conformanceOnly this = false ->
  createResultFromObject context (JObject objPath objValue objMessage) constraint
    focusNode valueNode this
  = Normal true
      (recordedWith
         (detailedQuads context (freshResult this) constraint focusNode valueNode
            objPath objValue objMessage) this).
Proof.
  intros Hlevel Hconformance. unfold createResultFromObject.
  cbn [typeof]. simpl (String.eqb _ _). cbv iota.
  rewrite !bind_gets, (not_suppressed this Hlevel), Hconformance.
  erewrite bind_Normal by apply createResult_run.
  cbn [getPath getValue getMessage]. rewrite bind_ret.
  assert (Hpath : forall st,
    (match objPath with
     | Some p => addResultProperty (freshResult this) (T "sh:resultPath") p
     | None => addShapePath (freshResult this) constraint
     end) st
    = Normal tt
        (set_results
           (results st
            ++ match objPath with
               | Some p => [quad (freshResult this) (T "sh:resultPath") p]
               | None => shapePathQuads (freshResult this) constraint
               end) st)).
  { intros st. destruct objPath; [reflexivity | apply addShapePath_run]. }
  assert (Hvalue : forall st,
    (match objValue with
     | Some v => addResultProperty (freshResult this) (T "sh:value") v
     | None =>
         match valueNode with
         | Some v => addResultProperty (freshResult this) (T "sh:value") v
         | None => ret tt
         end
     end) st
    = Normal tt
        (set_results
           (results st
            ++ match objValue with
               | Some v => [quad (freshResult this) (T "sh:value") v]
               | None => valueQuads (freshResult this) valueNode
               end) st)).
  { intros st. destruct objValue; [reflexivity|].
    destruct valueNode; [reflexivity|].
    simpl. now rewrite app_nil_r, set_results_same. }
  assert (Hmessage : forall st,
    (match truthyString objMessage with
     | Some m =>
         addResultProperty (freshResult this) (T "sh:resultMessage")
           (literal context m (ArgTerm (T "xsd:string")))
     | None => createResultMessages context (freshResult this) constraint
     end) st
    = Normal tt
        (set_results
           (results st
            ++ match truthyString objMessage with
               | Some m =>
                   [quad (freshResult this) (T "sh:resultMessage")
                      (literal context m (ArgTerm (T "xsd:string")))]
               | None => messageQuads context (freshResult this) constraint
               end) st)).
  { intros st. destruct (truthyString objMessage);
      [reflexivity | apply createResultMessages_run]. }
  erewrite bind_Normal by apply Hpath. rewrite bind_ret.
  erewrite bind_Normal by apply Hvalue. rewrite bind_ret.
  erewrite bind_Normal by apply Hmessage.
  unfold detailedQuads. now rewrite !recordedWith_more, <- !app_assoc.
Qed.

Lemma results_recordedWith (added : list Quad) this :
  results (recordedWith added this) = (results this ++ added)%list.
Proof. reflexivity. Qed.

Lemma createResultFromObject_null_at (context : Context) (constraint : Constraint)
    (focusNode : Term) (valueNode : option Term) (this : ValidationEngine) :
  recordErrorsLevel this <= 0 ->
  conformanceOnly this = false ->
  exists this',
    createResultFromObject context JNull constraint focusNode valueNode this
    = Throw (TypeError "Cannot read properties of null (reading 'path')") this'.
Proof.
  intros Hlevel Hconformance. unfold createResultFromObject.
  cbn [typeof]. simpl (String.eqb _ _). cbv iota.
  rewrite !bind_gets, (not_suppressed this Hlevel), Hconformance.
  eexists. reflexivity.
Qed.

Lemma resultNodes_recorded (result : Term) (constraint : Constraint)
    (focusNode : Term) (valueNode : option Term) (rest : list Quad)
    (this : ValidationEngine) :
  resultNodes rest = [] ->
  resultNodes
    (results (recordedWith (defaultQuads result constraint focusNode valueNode ++ rest)
                this))
  = (resultNodes (results this) ++ [result])%list.
Proof.
  intros Hrest. rewrite results_recordedWith.
  now rewrite !resultNodes_app, resultNodes_defaultQuads, Hrest.
Qed.

(** X2: a violation reported as [false], with recording enabled and outside
    conformance-only mode, makes exactly one result: a fresh blank node with
    the type, the severity of the shape, the component, the source shape and
    the focus node, the value node if there is one, the path of the shape if
    it is a property shape, and one message for each template of the
    constraint. *)
Theorem false_outcome_records_one_result (context : Context) (constraint : Constraint)
    (focusNode : Term) (valueNode : option Term) (this : ValidationEngine)
    (Hlevel : recordErrorsLevel this <= 0)
    (Hconformance : conformanceOnly this = false) :
  createResultFromObject context (JBoolean false) constraint focusNode valueNode this
  = Normal true
      (recordedWith
         (defaultQuads (freshResult this) constraint focusNode valueNode
          ++ shapePathQuads (freshResult this) constraint
          ++ messageQuads context (freshResult this) constraint) this)
  /\ resultNodes
       (results
          (recordedWith
             (defaultQuads (freshResult this) constraint focusNode valueNode
              ++ shapePathQuads (freshResult this) constraint
              ++ messageQuads context (freshResult this) constraint) this))
     = (resultNodes (results this) ++ [freshResult this])%list.
Proof.
  split.
  - now apply createResultFromObject_false_run.
  - apply resultNodes_recorded.
    now rewrite resultNodes_app, resultNodes_shapePathQuads, resultNodes_messageQuads.
Qed.

Lemma false_outcome_records_one_result_witness :
  let this := constructor false in
  recordErrorsLevel this <= 0
  /\ conformanceOnly this = false
  /\ createResultFromObject Sample.plainContext (JBoolean false) Sample.fooConstraint
       Sample.alice (Some Sample.bob) this
     = Normal true
         (recordedWith
            (defaultQuads (freshResult this) Sample.fooConstraint Sample.alice
               (Some Sample.bob)
             ++ shapePathQuads (freshResult this) Sample.fooConstraint
             ++ messageQuads Sample.plainContext (freshResult this)
                  Sample.fooConstraint) this).
Proof.
  intros this.
  assert (Hlevel : recordErrorsLevel this <= 0) by (simpl; lia).
  split; [exact Hlevel|]. split; [reflexivity|].
  pose proof (@false_outcome_records_one_result Sample.plainContext
                Sample.fooConstraint Sample.alice (Some Sample.bob) this Hlevel
                eq_refl) as H.
  destruct H as [H _]. exact H.
Defined.

(** X3: a violation reported as a string makes one result that carries the
    string as an [xsd:string] message and, after it, the messages of the
    constraint's templates as well. *)
Theorem string_outcome_records_message_and_templates (context : Context)
    (message : string) (constraint : Constraint) (focusNode : Term)
    (valueNode : option Term) (this : ValidationEngine)
    (Hlevel : recordErrorsLevel this <= 0)
    (Hconformance : conformanceOnly this = false) :
  createResultFromObject context (JString message) constraint focusNode valueNode this
  = Normal true
      (recordedWith
         (defaultQuads (freshResult this) constraint focusNode valueNode
          ++ shapePathQuads (freshResult this) constraint
          ++ [quad (freshResult this) (T "sh:resultMessage")
                (literal context message (ArgTerm (T "xsd:string")))]
          ++ messageQuads context (freshResult this) constraint) this)
  /\ resultNodes
       (results
          (recordedWith
             (defaultQuads (freshResult this) constraint focusNode valueNode
              ++ shapePathQuads (freshResult this) constraint
              ++ [quad (freshResult this) (T "sh:resultMessage")
                    (literal context message (ArgTerm (T "xsd:string")))]
              ++ messageQuads context (freshResult this) constraint) this))
     = (resultNodes (results this) ++ [freshResult this])%list.
Proof.
  split.
  - now apply createResultFromObject_string_run.
  - apply resultNodes_recorded.
    rewrite !resultNodes_app, resultNodes_shapePathQuads, resultNodes_messageQuads.
    reflexivity.
Qed.

Lemma string_outcome_records_message_and_templates_witness :
  let this := constructor false in
  recordErrorsLevel this <= 0
  /\ conformanceOnly this = false
  /\ resultNodes
       (results
          (recordedWith
             (defaultQuads (freshResult this) Sample.fooConstraint Sample.alice None
              ++ shapePathQuads (freshResult this) Sample.fooConstraint
              ++ [quad (freshResult this) (T "sh:resultMessage")
                    (literal Sample.plainContext "too short"
                       (ArgTerm (T "xsd:string")))]
              ++ messageQuads Sample.plainContext (freshResult this)
                   Sample.fooConstraint) this))
     = (resultNodes (results this) ++ [freshResult this])%list.
Proof.
  intros this.
  assert (Hlevel : recordErrorsLevel this <= 0) by (simpl; lia).
  split; [exact Hlevel|]. split; [reflexivity|].
  pose proof (@string_outcome_records_message_and_templates Sample.plainContext
                "too short" Sample.fooConstraint Sample.alice None this Hlevel
                eq_refl) as H.
  destruct H as [_ H]. exact H.
Defined.

Lemma resultNodes_detailedQuads (context : Context) (result : Term)
    (constraint : Constraint) (focusNode : Term)
    (valueNode objPath objValue : option Term) (objMessage : option string) :
  resultNodes
    (detailedQuads context result constraint focusNode valueNode objPath objValue
       objMessage)
  = [result].
Proof.
  unfold detailedQuads.
  rewrite !resultNodes_app, resultNodes_defaultQuads.
  destruct objPath, objValue, (truthyString objMessage);
    rewrite ?resultNodes_shapePathQuads, ?resultNodes_valueQuads,
      ?resultNodes_messageQuads; reflexivity.
Qed.

(** X4: a violation reported as an object makes one result in which the
    object's [path] stands for the path of the shape, its [value] for the
    value node, and its [message], unless it is empty, for the messages of
    the templates; what the object lacks is taken from the constraint and
    the value node. *)
Theorem object_outcome_overrides_defaults (context : Context)
    (objPath objValue : option Term) (objMessage : option string)
    (constraint : Constraint) (focusNode : Term) (valueNode : option Term)
    (this : ValidationEngine)
    (Hlevel : recordErrorsLevel this <= 0)
    (Hconformance : conformanceOnly this = false) :
  createResultFromObject context (JObject objPath objValue objMessage) constraint
    focusNode valueNode this
  = Normal true
      (recordedWith
         (detailedQuads context (freshResult this) constraint focusNode valueNode
            objPath objValue objMessage) this)
  /\ resultNodes
       (results
          (recordedWith
             (detailedQuads context (freshResult this) constraint focusNode valueNode
                objPath objValue objMessage) this))
     = (resultNodes (results this) ++ [freshResult this])%list
  /\ (objMessage = Some "" ->
      detailedQuads context (freshResult this) constraint focusNode valueNode
        objPath objValue objMessage
      = detailedQuads context (freshResult this) constraint focusNode valueNode
          objPath objValue None).
Proof.
  split; [|split].
  - now apply createResultFromObject_object_run.
  - rewrite results_recordedWith.
    now rewrite resultNodes_app, resultNodes_detailedQuads.
  - now intros ->.
Qed.

Lemma object_outcome_overrides_defaults_witness :
  let this := constructor false in
  recordErrorsLevel this <= 0
  /\ conformanceOnly this = false
  /\ createResultFromObject Sample.plainContext
       (JObject (Some Sample.bob) None (Some "wrong")) Sample.fooConstraint
       Sample.alice (Some Sample.alice) this
     = Normal true
         (recordedWith
            (detailedQuads Sample.plainContext (freshResult this) Sample.fooConstraint
               Sample.alice (Some Sample.alice) (Some Sample.bob) None (Some "wrong"))
            this).
Proof.
  intros this.
  assert (Hlevel : recordErrorsLevel this <= 0) by (simpl; lia).
  split; [exact Hlevel|]. split; [reflexivity|].
  pose proof (@object_outcome_overrides_defaults Sample.plainContext
                (Some Sample.bob) None (Some "wrong") Sample.fooConstraint
                Sample.alice (Some Sample.alice) this Hlevel eq_refl) as H.
  destruct H as [H _]. exact H.
Defined.

(** X5: what [createResultFromObject] answers.  An outcome that is neither
    [false], a string nor an object is no violation: the answer is [false]
    and nothing changes.  For the others the answer is [true] outside
    conformance-only mode and [false] inside; only [null], with recording
    enabled and outside conformance-only mode, raises.  An array met as an
    element of an outcome is treated as an object without properties. *)
Theorem createResultFromObject_answer (context : Context) (obj : JsValue)
    (constraint : Constraint) (focusNode : Term) (valueNode : option Term)
    (this : ValidationEngine) :
  match createResultFromObject context obj constraint focusNode valueNode this with
  | Normal found _ => found = isViolation obj && negb (conformanceOnly this)
  | Throw _ _ =>
      obj = JNull /\ recordErrorsLevel this <= 0 /\ conformanceOnly this = false
  | Diverge => False
  end
  /\ (isViolation obj = false ->
      createResultFromObject context obj constraint focusNode valueNode this
      = Normal false this)
  /\ (forall items,
        createResultFromObject context (JArray items) constraint focusNode valueNode
          this
        = createResultFromObject context (JObject None None None) constraint
            focusNode valueNode this).
Proof.
  split; [|split].
  - destruct (Z.leb_spec (recordErrorsLevel this) 0) as [Hlevel|Hlevel].
    + destruct (conformanceOnly this) eqn:Hconformance.
      * unfold createResultFromObject.
        destruct obj as [| |[|]| | | |]; cbn [typeof isViolation];
          simpl (String.eqb _ _); cbv iota;
          rewrite ?bind_gets, ?(not_suppressed this Hlevel), ?Hconformance;
          reflexivity.
      * destruct obj as [| |[|]|n|message|objPath objValue objMessage|items];
          try reflexivity.
        -- destruct (@createResultFromObject_null_at context constraint focusNode
                       valueNode this Hlevel Hconformance) as [this' ->]. auto.
        -- now rewrite createResultFromObject_false_run.
        -- now rewrite createResultFromObject_string_run.
        -- now rewrite createResultFromObject_object_run.
        -- change (createResultFromObject context (JArray items) constraint focusNode
                     valueNode this)
             with (createResultFromObject context (JObject None None None) constraint
                     focusNode valueNode this).
           now rewrite createResultFromObject_object_run.
    + assert (Hgt : (recordErrorsLevel this >? 0) = true) by lia.
      unfold createResultFromObject.
      destruct obj as [| |[|]| | | |]; cbn [typeof isViolation];
        simpl (String.eqb _ _); cbv iota;
        rewrite ?bind_gets, ?Hgt; destruct (conformanceOnly this); reflexivity.
  - intros Hno. destruct obj as [| |[|]| | | |]; try discriminate; reflexivity.
  - reflexivity.
Qed.

(* ================================================================= *)
(** ** The batch limit, counted *)

Lemma evaluatedBeforeLimit_reached (this : ValidationEngine) (n : nat) :
  maxErrorsReached this = true -> evaluatedBeforeLimit this n = 0%nat.
Proof.
  unfold maxErrorsReached, evaluatedBeforeLimit. intros H.
  destruct (getValidationErrorBatch (getConfiguration this) =? -1); [discriminate|].
  lia.
Qed.

Lemma evaluatedBeforeLimit_step (this this' : ValidationEngine) (n : nat) :
  maxErrorsReached this = false ->
  configuration this' = configuration this ->
  violationsCount this' = violationsCount this + 1 ->
  evaluatedBeforeLimit this (S n) = S (evaluatedBeforeLimit this' n).
Proof.
  unfold maxErrorsReached, evaluatedBeforeLimit, getConfiguration.
  intros H Hconfiguration Hcount. rewrite Hconfiguration, Hcount.
  destruct (getValidationErrorBatch (configuration this) =? -1); [reflexivity|].
  lia.
Qed.

Lemma genericLoop_violations (context : Context)
    (recur : Term -> Shape -> DataGraph -> M bool)
    (validationFunction : ValidationFunction) (focusNode : Term)
    (constraint : Constraint) (valueNodes : list Term) :
  (forall valueNode,
      In valueNode valueNodes ->
      execute context validationFunction focusNode (Some valueNode) constraint
      = Return (JBoolean false)) ->
  forall (errorFound : bool) (this : ValidationEngine),
    recordErrorsLevel this <= 0 ->
    conformanceOnly this = false ->
    exists this',
      genericLoop context recur validationFunction focusNode constraint valueNodes
        errorFound this
      = Normal
          (errorFound || (0 <? evaluatedBeforeLimit this (length valueNodes))%nat)
          this'
      /\ violationsCount this'
         = violationsCount this
           + Z.of_nat (evaluatedBeforeLimit this (length valueNodes))
      /\ length (resultNodes (results this'))
         = (length (resultNodes (results this))
            + evaluatedBeforeLimit this (length valueNodes))%nat
      /\ recordErrorsLevel this' = recordErrorsLevel this
      /\ conformanceOnly this' = false
      /\ configuration this' = configuration this.
Proof.
  induction valueNodes as [|valueNode rest IH];
    intros Hviolations errorFound this Hlevel Hconformance.
  - exists this. simpl genericLoop.
    assert (Hzero : evaluatedBeforeLimit this (length (@nil Term)) = 0%nat).
    { unfold evaluatedBeforeLimit. simpl.
      now destruct (getValidationErrorBatch (getConfiguration this) =? -1). }
    rewrite Hzero. simpl. rewrite orb_false_r.
    repeat split; auto; lia.
  - simpl genericLoop. rewrite bind_gets.
    destruct (maxErrorsReached this) eqn:Hreached.
    + exists this. rewrite (evaluatedBeforeLimit_reached this _ Hreached).
      simpl. rewrite orb_false_r. repeat split; auto; lia.
    + erewrite bind_Normal
        by (apply executeSuppressed_return, Hviolations; now left).
      set (this1 := set_recordErrorsLevel (recordErrorsLevel this + 1 - 1)
                      (set_recordErrorsLevel (recordErrorsLevel this + 1) this)).
      assert (Hlevel1 : recordErrorsLevel this1 <= 0) by (simpl; lia).
      assert (Hconformance1 : conformanceOnly this1 = false) by exact Hconformance.
      unfold createResultsFromOutcome, orFlag.
      rewrite bind_bind.
      erewrite bind_Normal
        by (apply createResultFromObject_false_run; assumption).
      rewrite bind_ret. cbv beta iota. rewrite bind_modify.
      match goal with
      | |- context [genericLoop _ _ _ _ _ rest _ ?st] => set (this2 := st)
      end.
      assert (Hlevel2 : recordErrorsLevel this2 <= 0) by (simpl; lia).
      assert (Hconformance2 : conformanceOnly this2 = false) by exact Hconformance.
      destruct (IH (fun v Hv => Hviolations v (or_intror Hv)) (errorFound || true)
                  this2 Hlevel2 Hconformance2)
        as (this' & Hrun & Hcount & Hresults & Hlevel' & Hconformance' & Hconfiguration').
      exists this'.
      assert (Hstep : evaluatedBeforeLimit this (length (valueNode :: rest))
                      = S (evaluatedBeforeLimit this2 (length rest)))
        by (apply evaluatedBeforeLimit_step; [exact Hreached | reflexivity | reflexivity]).
      rewrite Hstep, Hrun.
      assert (Hresults2 : length (resultNodes (results this2))
                          = S (length (resultNodes (results this)))).
      { subst this2. cbn [results set_violationsCount].
        rewrite resultNodes_recorded
          by now rewrite resultNodes_app, resultNodes_shapePathQuads,
               resultNodes_messageQuads.
        rewrite length_app. simpl. lia. }
      split; [now rewrite orb_true_r, orb_true_r|].
      split; [rewrite Hcount; simpl; lia|].
      split; [rewrite Hresults, Hresults2; lia|].
      split; [rewrite Hlevel'; simpl; lia|].
      split; [exact Hconformance' | exact Hconfiguration'].
Qed.

(** X6: a generic validator that reports a plain violation for every value
    node, with recording enabled and outside conformance-only mode, is run
    for the value nodes in turn until the batch limit is reached: for [n]
    value nodes, a limit [N] and a counter at [c] on entry, [min n (N - c)]
    of them are evaluated, all [n] without a limit; each one evaluated adds
    one result and one to the counter. *)
Theorem generic_violations_stop_at_batch_limit (context : Context) (depth : nat)
    (focusNode : Term) (valueNodes : list Term) (constraint : Constraint)
    (rdfDataGraph : DataGraph) (validationFunction : ValidationFunction)
    (this : ValidationEngine)
    (Hlevel : recordErrorsLevel this <= 0)
    (Hconformance : conformanceOnly this = false)
    (Hcomponent :
       equals (T "sh:PropertyConstraintComponent") (node (component constraint)) = false)
    (Hvalidator :
       (if isPropertyShape (shape constraint)
        then propertyValidationFunction (component constraint)
        else nodeValidationFunction (component constraint)) = Some validationFunction)
    (Hgeneric :
       (if isPropertyShape (shape constraint)
        then propertyValidationFunctionGeneric (component constraint)
        else nodeValidationFunctionGeneric (component constraint)) = true)
    (Hviolations :
       forall valueNode,
         In valueNode valueNodes ->
         execute context validationFunction focusNode (Some valueNode) constraint
         = Return (JBoolean false)) :
  exists this',
    validateNodeAgainstConstraint context depth focusNode valueNodes constraint
      rdfDataGraph this
    = Normal (maxErrorsReached this
              || (0 <? evaluatedBeforeLimit this (length valueNodes))%nat) this'
    /\ violationsCount this'
       = violationsCount this
         + Z.of_nat (evaluatedBeforeLimit this (length valueNodes))
    /\ length (resultNodes (results this'))
       = (length (resultNodes (results this))
          + evaluatedBeforeLimit this (length valueNodes))%nat.
Proof.
  unfold validateNodeAgainstConstraint, validateNodeAgainstConstraint_body.
  rewrite bind_gets.
  destruct (maxErrorsReached this) eqn:Hreached.
  - exists this. rewrite (evaluatedBeforeLimit_reached this _ Hreached).
    simpl. repeat split; lia.
  - rewrite Hcomponent, Hvalidator, Hgeneric.
    destruct (@genericLoop_violations context
                (match depth with
                 | O => fun _ _ _ _ => Diverge
                 | S d => validateNodeAgainstShape context d
                 end)
                validationFunction focusNode constraint valueNodes Hviolations false
                this Hlevel Hconformance)
      as (this' & Hrun & Hcount & Hresults & _).
    exists this'. rewrite Hrun. simpl. auto.
Qed.

Lemma generic_violations_stop_at_batch_limit_witness :
  let context :=
    Sample.sampleContext [Sample.alice] (Sample.oneConstraint "violation" true) in
  let constraint :=
    Sample.constraintOf Sample.personShape
      (Sample.componentOf "sh:SampleConstraintComponent" "violation" true) in
  let this := Sample.withBatch 1 (constructor false) in
  recordErrorsLevel this <= 0
  /\ conformanceOnly this = false
  /\ evaluatedBeforeLimit this (length [Sample.alice; Sample.bob]) = 1%nat
  /\ exists this',
       validateNodeAgainstConstraint context 0 Sample.alice [Sample.alice; Sample.bob]
         constraint [] this
       = Normal (maxErrorsReached this
                 || (0 <? evaluatedBeforeLimit this
                            (length [Sample.alice; Sample.bob]))%nat) this'
       /\ violationsCount this'
          = violationsCount this
            + Z.of_nat (evaluatedBeforeLimit this (length [Sample.alice; Sample.bob]))
       /\ length (resultNodes (results this'))
          = (length (resultNodes (results this))
             + evaluatedBeforeLimit this (length [Sample.alice; Sample.bob]))%nat.
Proof.
  intros context constraint this.
  assert (Hlevel : recordErrorsLevel this <= 0) by (simpl; lia).
  split; [exact Hlevel|]. split; [reflexivity|]. split; [reflexivity|].
  exact (@generic_violations_stop_at_batch_limit context 0%nat Sample.alice
           [Sample.alice; Sample.bob] constraint [] {| funcName := "violation" |}
           this Hlevel eq_refl eq_refl eq_refl eq_refl
           (fun valueNode _ => eq_refl)).
Defined.

(* ================================================================= *)
(** ** Failures and the suppression level *)

Lemma first_failure_stored (context : Context) (depth : nat)
    (rdfDataGraph : DataGraph) (this this' : ValidationEngine) (e : JsError)
    (s : Shape) (shapes : list Shape) (focusNode : Term) (focusNodes : list Term)
    (constraint : Constraint) (constraints : list Constraint) :
  maxErrorsReached this = false ->
  getShapesWithTarget context = s :: shapes ->
  getTargetNodes context s rdfDataGraph = focusNode :: focusNodes ->
  deactivated s = false ->
  getConstraints context s = constraint :: constraints ->
  (forall recur,
      validateNodeAgainstConstraint_body context recur focusNode
        (getValueNodes context s focusNode rdfDataGraph) constraint rdfDataGraph
        (set_results [] (set_validationError None this))
      = Throw e this') ->
  validateAll context depth rdfDataGraph this
  = Normal true (set_validationError (Some e) this').
Proof.
  intros Hlimit Hshapes Htargets Hactive Hconstraints Hthrow.
  apply validateAll_catches with depth; [exact Hlimit| |lia].
  unfold validateAll_try. rewrite bind_modify. cbv zeta.
  rewrite Hshapes. simpl forLoop. rewrite Htargets. simpl forLoop.
  assert (Hshape :
    validateNodeAgainstShape context depth focusNode s rdfDataGraph
      (set_results [] (set_validationError None this))
    = Throw e this').
  { assert (Hbody : forall recur,
      validateNodeAgainstShape_body context recur focusNode s rdfDataGraph
        (set_results [] (set_validationError None this))
      = Throw e this').
    { intros recur. unfold validateNodeAgainstShape_body.
      rewrite bind_gets, maxErrorsReached_set_results,
        maxErrorsReached_set_validationError, Hlimit, Hactive, Hconstraints.
      simpl forLoop. unfold orFlag.
      erewrite bind_Throw; [reflexivity|].
      erewrite bind_Throw; [reflexivity|]. apply Hthrow. }
    destruct depth; simpl; apply Hbody. }
  unfold orFlag.
  erewrite bind_Throw; [reflexivity|].
  erewrite bind_Throw; [reflexivity|].
  erewrite bind_Throw; [reflexivity|]. exact Hshape.
Qed.

(** X7: a constraint whose component has no validator for the kind of its
    shape is not skipped: the run ends there, [validateAll] returns [true]
    and stores the failure "Cannot find validator for constraint component"
    with the component's IRI, and [getReport] raises it. *)
Theorem missing_validator_ends_run (context : Context) (depth : nat)
    (rdfDataGraph : DataGraph) (this : ValidationEngine)
    (s : Shape) (shapes : list Shape) (focusNode : Term) (focusNodes : list Term)
    (constraint : Constraint) (constraints : list Constraint)
    (Hlimit : maxErrorsReached this = false)
    (Hshapes : getShapesWithTarget context = s :: shapes)
    (Htargets : getTargetNodes context s rdfDataGraph = focusNode :: focusNodes)
    (Hactive : deactivated s = false)
    (Hconstraints : getConstraints context s = constraint :: constraints)
    (Hcomponent :
       equals (T "sh:PropertyConstraintComponent") (node (component constraint)) = false)
    (Hmissing :
       (if isPropertyShape (shape constraint)
        then propertyValidationFunction (component constraint)
        else nodeValidationFunction (component constraint)) = None) :
  validateAll context depth rdfDataGraph this
  = Normal true
      (set_validationError
         (Some (Error ("Cannot find validator for constraint component "
                       ++ value (node (component constraint)))))
         (set_results [] (set_validationError None this)))
  /\ getReport
       (set_validationError
          (Some (Error ("Cannot find validator for constraint component "
                        ++ value (node (component constraint)))))
          (set_results [] (set_validationError None this)))
     = Throw (Error ("Cannot find validator for constraint component "
                     ++ value (node (component constraint))))
         (set_validationError
            (Some (Error ("Cannot find validator for constraint component "
                          ++ value (node (component constraint)))))
            (set_results [] (set_validationError None this))).
Proof.
  split; [|reflexivity].
  apply first_failure_stored
    with s shapes focusNode focusNodes constraint constraints; auto.
  intros recur. unfold validateNodeAgainstConstraint_body.
  rewrite bind_gets, maxErrorsReached_set_results,
    maxErrorsReached_set_validationError, Hlimit, Hcomponent, Hmissing.
  reflexivity.
Qed.

Lemma missing_validator_ends_run_witness :
  let constraintsOf := fun s : Shape =>
    [Sample.constraintOf s (Sample.bareComponent "sh:SampleConstraintComponent")] in
  let context := Sample.sampleContext [Sample.alice] constraintsOf in
  let this := constructor false in
  maxErrorsReached this = false
  /\ validateAll context 0 [] this
     = Normal true
         (set_validationError
            (Some (Error "Cannot find validator for constraint component sh:SampleConstraintComponent"))
            (set_results [] (set_validationError None this))).
Proof.
  intros constraintsOf context this.
  assert (Hlimit : maxErrorsReached this = false) by reflexivity.
  split; [exact Hlimit|].
  pose proof (@missing_validator_ends_run context 0%nat [] this Sample.personShape []
                Sample.alice [] (Sample.constraintOf Sample.personShape
                   (Sample.bareComponent "sh:SampleConstraintComponent")) []
                Hlimit eq_refl eq_refl eq_refl eq_refl eq_refl eq_refl) as H.
  destruct H as [H _]. exact H.
Defined.

(** Whatever fails while a validator runs, the validator itself or an
    evaluation nested in it, the decrement after [execute] is not reached. *)
Lemma executeSuppressed_interrupted (context : Context) (depth : nat)
    (validationFunction : ValidationFunction) (focusNode : Term)
    (valueNode : option Term) (constraint : Constraint) (this : ValidationEngine) :
  0 <= recordErrorsLevel this ->
  match executeSuppressed context (validateNodeAgainstShape context depth)
          validationFunction focusNode valueNode constraint this with
  | Normal _ this' => recordErrorsLevel this' = recordErrorsLevel this
  | Throw _ this' => recordErrorsLevel this + 1 <= recordErrorsLevel this'
  | Diverge => True
  end.
Proof.
  intros Hbalanced.
  assert (Hrecur : forall focusNode' s rdfDataGraph st,
    sat balanced (evaluated (fun _ => True)) (interrupted (fun _ => True))
      (fun _ : bool => True)
      (validateNodeAgainstShape context depth focusNode' s rdfDataGraph) st).
  { intros.
    apply validateNodeAgainstShape_evaluated with (Allowed := fun _ _ => True); auto. }
  unfold executeSuppressed. rewrite bind_modify.
  set (this1 := set_recordErrorsLevel (recordErrorsLevel this + 1) this).
  assert (Hlevel1 : 0 < recordErrorsLevel this1) by (simpl; lia).
  assert (Hbalanced1 : balanced this1) by (unfold balanced; simpl; lia).
  pose proof (@runValidator_suppressed (fun _ _ => True)
                (validateNodeAgainstShape context depth) Hrecur (fun _ => True)
                (execute context validationFunction focusNode valueNode constraint)
                this1 Hlevel1 Hbalanced1) as Hrun.
  unfold bind at 1.
  destruct (runValidator _ _ this1) as [obj this2|e this2|]; [| |exact I].
  - destruct Hrun as (_ & Hlevel & _). simpl. rewrite Hlevel. simpl. lia.
  - destruct Hrun as (Hlevel & _). simpl in Hlevel. exact Hlevel.
Qed.

(** X8: a failure inside a validator leaves [recordErrorsLevel] raised,
    since the decrement after [execute] is not reached.  Whenever the
    execution of a validator fails, by its own throw or by a failure in an
    evaluation nested in it, the level ends at least one above what it was
    before the call (and after a normal end it is what it was).  When the
    first validator evaluated in a run, generic or not, throws at its first
    call, [validateAll] stores what was thrown, returns [true] with no
    results, and leaves the level exactly one higher than it was. *)
Theorem validator_failure_leaves_level_raised (context : Context) (depth : nat)
    (rdfDataGraph : DataGraph) (this : ValidationEngine) (e : JsError)
    (s : Shape) (shapes : list Shape) (focusNode : Term) (focusNodes : list Term)
    (constraint : Constraint) (constraints : list Constraint)
    (validationFunction : ValidationFunction)
    (Hlimit : maxErrorsReached this = false)
    (Hshapes : getShapesWithTarget context = s :: shapes)
    (Htargets : getTargetNodes context s rdfDataGraph = focusNode :: focusNodes)
    (Hactive : deactivated s = false)
    (Hconstraints : getConstraints context s = constraint :: constraints)
    (Hcomponent :
       equals (T "sh:PropertyConstraintComponent") (node (component constraint)) = false)
    (Hvalidator :
       (if isPropertyShape (shape constraint)
        then propertyValidationFunction (component constraint)
        else nodeValidationFunction (component constraint)) = Some validationFunction)
    (Hraise :
       if (if isPropertyShape (shape constraint)
           then propertyValidationFunctionGeneric (component constraint)
           else nodeValidationFunctionGeneric (component constraint))
       then exists valueNode valueNodes,
              getValueNodes context s focusNode rdfDataGraph = valueNode :: valueNodes
              /\ execute context validationFunction focusNode (Some valueNode) constraint
                 = Raise e
       else execute context validationFunction focusNode None constraint = Raise e) :
  (exists this',
     validateAll context depth rdfDataGraph this = Normal true this'
     /\ validationError this' = Some e
     /\ recordErrorsLevel this' = recordErrorsLevel this + 1
     /\ results this' = [])
  /\ (forall depth' validationFunction' focusNode' valueNode' constraint' st,
        0 <= recordErrorsLevel st ->
        match executeSuppressed context (validateNodeAgainstShape context depth')
                validationFunction' focusNode' valueNode' constraint' st with
        | Normal _ st' => recordErrorsLevel st' = recordErrorsLevel st
        | Throw _ st' => recordErrorsLevel st + 1 <= recordErrorsLevel st'
        | Diverge => True
        end).
Proof.
  split; [|intros; now apply executeSuppressed_interrupted].
  eexists. split.
  - apply first_failure_stored
      with s shapes focusNode focusNodes constraint constraints; auto.
    intros recur. unfold validateNodeAgainstConstraint_body.
    rewrite bind_gets, maxErrorsReached_set_results,
      maxErrorsReached_set_validationError, Hlimit, Hcomponent, Hvalidator.
    destruct (if isPropertyShape (shape constraint)
              then propertyValidationFunctionGeneric (component constraint)
              else nodeValidationFunctionGeneric (component constraint)).
    + destruct Hraise as (valueNode & valueNodes & -> & Hraise).
      simpl genericLoop.
      rewrite bind_gets, maxErrorsReached_set_results,
        maxErrorsReached_set_validationError, Hlimit.
      unfold executeSuppressed. rewrite Hraise. reflexivity.
    + unfold executeSuppressed. rewrite Hraise. reflexivity.
  - repeat split.
Qed.

Lemma validator_failure_leaves_level_raised_witness :
  let context := Sample.sampleContext [Sample.alice] (Sample.oneConstraint "raise" true) in
  let this := constructor false in
  maxErrorsReached this = false
  /\ exists this',
       validateAll context 0 [] this = Normal true this'
       /\ validationError this' = Some (Error "validator failed")
       /\ recordErrorsLevel this' = recordErrorsLevel this + 1
       /\ results this' = [].
Proof.
  intros context this.
  assert (Hlimit : maxErrorsReached this = false) by reflexivity.
  split; [exact Hlimit|].
  pose proof (@validator_failure_leaves_level_raised context 0%nat [] this
                (Error "validator failed") Sample.personShape [] Sample.alice []
                (Sample.constraintOf Sample.personShape
                   (Sample.componentOf "sh:SampleConstraintComponent" "raise" true)) []
                {| funcName := "raise" |}
                Hlimit eq_refl eq_refl eq_refl eq_refl eq_refl eq_refl
                (ex_intro _ Sample.alice (ex_intro _ [] (conj eq_refl eq_refl))))
    as H.
  destruct H as [H _]. exact H.
Defined.

(* ================================================================= *)
(** ** Whole runs *)

Lemma traversal_evaluated (context : Context) (depth : nat)
    (rdfDataGraph : DataGraph) this :
  sat balanced (evaluated (fun _ => True)) (interrupted (fun _ => True))
    (fun _ : bool => True)
    (forLoop (getShapesWithTarget context) (fun s foundError =>
       forLoop (getTargetNodes context s rdfDataGraph) (fun focusNode foundError =>
         orFlag (validateNodeAgainstShape context depth focusNode s rdfDataGraph)
           foundError) foundError) false) this.
Proof.
  apply sat_forLoop; [|exact I]. intros s foundError this1 _ _.
  apply sat_forLoop; [|exact I]. intros focusNode foundError' this2 _ _.
  eapply sat_orFlag; [|auto].
  apply validateNodeAgainstShape_evaluated with (Allowed := fun _ _ => True); auto.
Qed.

(** [validateAll] below the batch limit, by how its traversal ends. *)
Lemma validateAll_unreached (context : Context) (depth : nat)
    (rdfDataGraph : DataGraph) this :
  maxErrorsReached this = false ->
  validateAll context depth rdfDataGraph this
  = match forLoop (getShapesWithTarget context) (fun s foundError =>
            forLoop (getTargetNodes context s rdfDataGraph)
              (fun focusNode foundError =>
                 orFlag (validateNodeAgainstShape context depth focusNode s
                           rdfDataGraph) foundError) foundError) false
            (set_results [] (set_validationError None this)) with
    | Normal found this' => Normal found this'
    | Throw e this' => Normal true (set_validationError (Some e) this')
    | Diverge => Diverge
    end.
Proof.
  intros Hlimit. unfold validateAll. rewrite bind_gets, Hlimit, bind_modify.
  unfold tryCatch, validateAll_try. rewrite bind_modify. cbv zeta.
  now destruct (forLoop _ _ false _).
Qed.

(** X9: a run on an engine whose suppression level is above zero, as a
    validator failure leaves it, records nothing: [validateAll] ends with an
    empty result accumulator, whatever the shapes and the data are, and the
    level is not lower afterwards. *)
Theorem suppressed_run_reports_nothing (context : Context) (depth : nat)
    (rdfDataGraph : DataGraph) (this : ValidationEngine)
    (Hlevel : 0 < recordErrorsLevel this)
    (Hlimit : maxErrorsReached this = false) :
  match validateAll context depth rdfDataGraph this with
  | Normal _ this' =>
      results this' = [] /\ recordErrorsLevel this <= recordErrorsLevel this'
  | Throw _ _ => False
  | Diverge => True
  end.
Proof.
  rewrite validateAll_unreached by exact Hlimit.
  set (this1 := set_results [] (set_validationError None this)).
  assert (Hbalanced : balanced this1) by (unfold balanced; simpl; lia).
  assert (Hlevel1 : 0 < recordErrorsLevel this1) by exact Hlevel.
  pose proof (@traversal_evaluated context depth rdfDataGraph this1 Hbalanced) as H.
  destruct (forLoop _ _ false this1) as [found this'|e this'|]; [| |exact I].
  - destruct H as [_ H]. destruct_engine_relations.
    match goal with
    | Hadded : 0 < _ -> ?added = [], Hres : results _ = _ |- _ =>
        rewrite (Hadded Hlevel1) in Hres; simpl in Hres
    end.
    split; [assumption|]. change (recordErrorsLevel this1 <= recordErrorsLevel this').
    lia.
  - destruct_engine_relations.
    match goal with
    | Hadded : 0 < _ -> ?added = [], Hres : results _ = _ |- _ =>
        rewrite (Hadded Hlevel1) in Hres; simpl in Hres
    end.
    split; [assumption|]. change (recordErrorsLevel this1 <= recordErrorsLevel this').
    lia.
Qed.

Lemma suppressed_run_reports_nothing_witness :
  let context :=
    Sample.sampleContext [Sample.alice] (Sample.oneConstraint "violation" true) in
  let this := set_recordErrorsLevel 1 (constructor false) in
  0 < recordErrorsLevel this
  /\ maxErrorsReached this = false
  /\ match validateAll context 0 [] this with
     | Normal _ this' =>
         results this' = [] /\ recordErrorsLevel this <= recordErrorsLevel this'
     | Throw _ _ => False
     | Diverge => True
     end.
Proof.
  intros context this.
  assert (Hlevel : 0 < recordErrorsLevel this) by (simpl; lia).
  split; [exact Hlevel|]. split; [reflexivity|].
  exact (@suppressed_run_reports_nothing context 0%nat [] this Hlevel eq_refl).
Defined.

Lemma validateNodeAgainstShape_deactivated (context : Context) (depth : nat)
    (focusNode : Term) (s : Shape) (rdfDataGraph : DataGraph) this :
  maxErrorsReached this = false ->
  deactivated s = true ->
  validateNodeAgainstShape context depth focusNode s rdfDataGraph this
  = Normal false this.
Proof.
  intros Hlimit Hdeactivated.
  destruct depth; simpl; unfold validateNodeAgainstShape_body;
    now rewrite bind_gets, Hlimit, Hdeactivated.
Qed.

(** X10: deactivated shapes are skipped.  Below the batch limit a
    deactivated shape is valid for every focus node, with nothing evaluated
    and nothing changed, also where a property constraint nests it; a run
    over a shapes graph whose shapes with targets are all deactivated
    returns [false] with an empty result accumulator and no failure. *)
Theorem deactivated_shapes_are_skipped (context : Context) (depth : nat)
    (rdfDataGraph : DataGraph) (this : ValidationEngine)
    (Hlimit : maxErrorsReached this = false) :
  (forall focusNode s,
      deactivated s = true ->
      validateNodeAgainstShape context depth focusNode s rdfDataGraph this
      = Normal false this)
  /\ (forall focusNode valueNodes constraint,
        equals (T "sh:PropertyConstraintComponent") (node (component constraint))
        = true ->
        deactivated (getShape context (paramValue constraint)) = true ->
        validateNodeAgainstConstraint context (S depth) focusNode valueNodes
          constraint rdfDataGraph this
        = Normal false this)
  /\ ((forall s, In s (getShapesWithTarget context) -> deactivated s = true) ->
      validateAll context depth rdfDataGraph this
      = Normal false (set_results [] (set_validationError None this))).
Proof.
  split; [|split].
  - intros focusNode s Hdeactivated.
    now apply validateNodeAgainstShape_deactivated.
  - intros focusNode valueNodes constraint Hcomponent Hdeactivated.
    unfold validateNodeAgainstConstraint, validateNodeAgainstConstraint_body.
    rewrite bind_gets, Hlimit, Hcomponent.
    generalize false.
    induction valueNodes as [|valueNode rest IH]; intros flag; [reflexivity|].
    simpl forLoop. unfold orFlag at 1.
    erewrite bind_Normal;
      [|erewrite bind_Normal;
          [reflexivity | now apply validateNodeAgainstShape_deactivated]].
    apply IH.
  - intros Hall. rewrite validateAll_unreached by exact Hlimit.
    set (this1 := set_results [] (set_validationError None this)).
    assert (Hlimit1 : maxErrorsReached this1 = false).
    { subst this1.
      now rewrite maxErrorsReached_set_results, maxErrorsReached_set_validationError. }
    assert (Hinner : forall s focusNodes flag,
      deactivated s = true ->
      forLoop focusNodes (fun focusNode foundError =>
        orFlag (validateNodeAgainstShape context depth focusNode s rdfDataGraph)
          foundError) flag this1
      = Normal flag this1).
    { intros s focusNodes flag Hdeactivated. revert flag.
      induction focusNodes as [|focusNode rest IH]; intros flag; [reflexivity|].
      simpl forLoop. unfold orFlag at 1.
      erewrite bind_Normal;
        [|erewrite bind_Normal;
            [reflexivity | now apply validateNodeAgainstShape_deactivated]].
      apply IH. }
    assert (Houter : forall shapes flag,
      (forall s, In s shapes -> deactivated s = true) ->
      forLoop shapes (fun s foundError =>
        forLoop (getTargetNodes context s rdfDataGraph) (fun focusNode foundError =>
          orFlag (validateNodeAgainstShape context depth focusNode s rdfDataGraph)
            foundError) foundError) flag this1
      = Normal flag this1).
    { induction shapes as [|s rest IH]; intros flag Hin; [reflexivity|].
      simpl forLoop.
      erewrite bind_Normal; [|apply Hinner; apply Hin; now left].
      apply IH. intros s' Hs'. apply Hin. now right. }
    now rewrite Houter.
Qed.

Lemma deactivated_shapes_are_skipped_witness :
  let retired :=
    {| shapeNode := NamedNode "http://example.org/RetiredShape";
       severity := T "sh:Violation";
       path := None;
       deactivated := true |} in
  let context :=
    {| shapes_store := Sample.store;
       getShapesWithTarget := [retired];
       getShape := Sample.shapeOf;
       getTargetNodes := fun _ _ => [Sample.alice];
       getConstraints := fun s =>
         [Sample.constraintOf s
            (Sample.componentOf "sh:SampleConstraintComponent" "violation" true)];
       getValueNodes := fun _ focusNode _ => [focusNode];
       execute := Sample.sampleExecute;
       literal := Sample.sampleLiteral;
       StringToNumber := Sample.sampleStringToNumber;
       toString := Sample.sampleToString |} in
  let this := constructor false in
  maxErrorsReached this = false
  /\ validateAll context 0 [] this
     = Normal false (set_results [] (set_validationError None this)).
Proof.
  intros retired context this.
  assert (Hlimit : maxErrorsReached this = false) by reflexivity.
  split; [exact Hlimit|].
  pose proof (@deactivated_shapes_are_skipped context 0%nat [] this Hlimit) as H.
  destruct H as (_ & _ & H). apply H.
  intros s [<-|[]]. reflexivity.
Defined.

(* ================================================================= *)
(** ** What an outcome changes *)

(** How [createResultFromObject] ends: with the engine as it was, or with
    one more result and [true]; a failure comes after the result was
    begun. *)
Lemma createResultFromObject_cases (context : Context) (obj : JsValue)
    (constraint : Constraint) (focusNode : Term) (valueNode : option Term)
    (this : ValidationEngine) :
  exists added,
    match createResultFromObject context obj constraint focusNode valueNode this with
    | Normal found this' =>
        this' = this \/ (found = true /\ this' = recordedWith added this)
    | Throw _ this' => this' = recordedWith added this
    | Diverge => False
    end.
Proof.
  destruct (Z.leb_spec (recordErrorsLevel this) 0) as [Hlevel|Hlevel].
  - destruct (conformanceOnly this) eqn:Hconformance.
    + exists []. unfold createResultFromObject.
      destruct obj as [| |[|]| | | |]; cbn [typeof];
        simpl (String.eqb _ _); cbv iota;
        rewrite ?bind_gets, ?(not_suppressed this Hlevel), ?Hconformance;
        left; reflexivity.
    + destruct obj as [| |[|]|n|message|objPath objValue objMessage|items];
        try (exists []; left; reflexivity).
      * exists (defaultQuads (freshResult this) constraint focusNode None).
        unfold createResultFromObject.
        cbn [typeof]. simpl (String.eqb _ _). cbv iota.
        rewrite !bind_gets, (not_suppressed this Hlevel), Hconformance.
        erewrite bind_Normal by apply createResult_run. reflexivity.
      * eexists. rewrite createResultFromObject_false_run by assumption.
        right. split; reflexivity.
      * eexists. rewrite createResultFromObject_string_run by assumption.
        right. split; reflexivity.
      * eexists. rewrite createResultFromObject_object_run by assumption.
        right. split; reflexivity.
      * eexists.
        change (createResultFromObject context (JArray items) constraint focusNode
                  valueNode this)
          with (createResultFromObject context (JObject None None None) constraint
                  focusNode valueNode this).
        rewrite createResultFromObject_object_run by assumption.
        right. split; reflexivity.
  - assert (Hgt : (recordErrorsLevel this >? 0) = true) by lia.
    exists []. unfold createResultFromObject.
    destruct obj as [| |[|]| | | |]; cbn [typeof];
      simpl (String.eqb _ _); cbv iota;
      rewrite ?bind_gets, ?Hgt; destruct (conformanceOnly this); left; reflexivity.
Qed.


Lemma createResultFromObject_skipped (context : Context) (obj : JsValue)
    (constraint : Constraint) (focusNode : Term) (valueNode : option Term)
    (this : ValidationEngine) :
  isViolation obj = false ->
  createResultFromObject context obj constraint focusNode valueNode this
  = Normal false this.
Proof.
  intros Hno. destruct obj as [| |[|]| | | |]; try discriminate; reflexivity.
Qed.




Lemma createResultsFromOutcome_cases (context : Context) (obj : JsValue)
    (constraint : Constraint) (focusNode : Term) (valueNode : option Term)
    (this : ValidationEngine) :
  match createResultsFromOutcome context obj constraint focusNode valueNode this with
  | Normal _ this' | Throw _ this' =>
      violationsCount this' = violationsCount this
      /\ recordErrorsLevel this' = recordErrorsLevel this
      /\ validationError this' = validationError this
      /\ configuration this' = configuration this
  | Diverge => False
  end.
Proof.
  assert (Hone : forall o flag st,
    match orFlag (createResultFromObject context o constraint focusNode valueNode)
            flag st with
    | Normal _ this' | Throw _ this' =>
        violationsCount this' = violationsCount st
        /\ recordErrorsLevel this' = recordErrorsLevel st
        /\ validationError this' = validationError st
        /\ configuration this' = configuration st
    | Diverge => False
    end).
  { intros o flag st. unfold orFlag, bind.
    destruct (@createResultFromObject_cases context o constraint focusNode valueNode
                st) as [added H].
    destruct (createResultFromObject context o constraint focusNode valueNode st)
      as [found this'|e this'|]; [|subst this'; now simpl|exact H].
    unfold ret. destruct H as [->|[_ ->]]; now simpl. }
  unfold createResultsFromOutcome.
  destruct obj as [| | | | | |items]; try apply Hone.
  generalize false. revert this.
  induction items as [|item rest IH]; intros this flag; [now simpl|].
  simpl forLoop. unfold bind at 1.
  specialize (Hone item flag this).
  destruct (orFlag _ flag this) as [flag' this1|e this1|]; [|exact Hone|exact Hone].
  specialize (IH this1 flag').
  destruct (forLoop rest _ flag' this1) as [found this'|e this'|]; [| |exact IH];
    destruct Hone as (H1 & H2 & H3 & H4); destruct IH as (H5 & H6 & H7 & H8);
    repeat split; congruence.
Qed.

Lemma set_recordErrorsLevel_back (this : ValidationEngine) :
  set_recordErrorsLevel
    (recordErrorsLevel (set_recordErrorsLevel (recordErrorsLevel this + 1) this) - 1)
    (set_recordErrorsLevel (recordErrorsLevel this + 1) this)
  = this.
Proof.
  destruct this. unfold set_recordErrorsLevel. simpl. f_equal. lia.
Qed.

(** X12: a validator that is not generic is called once for the focus node,
    without a value node and whatever the value nodes are.  Its violations
    are recorded but never counted: the violation counter stays as it is,
    so that such constraints never bring the batch limit nearer. *)
Theorem non_generic_validator_is_not_counted (context : Context) (depth : nat)
    (focusNode : Term) (valueNodes : list Term) (constraint : Constraint)
    (rdfDataGraph : DataGraph) (validationFunction : ValidationFunction)
    (obj : JsValue) (this : ValidationEngine)
    (Hlimit : maxErrorsReached this = false)
    (Hcomponent :
       equals (T "sh:PropertyConstraintComponent") (node (component constraint)) = false)
    (Hvalidator :
       (if isPropertyShape (shape constraint)
        then propertyValidationFunction (component constraint)
        else nodeValidationFunction (component constraint)) = Some validationFunction)
    (Hgeneric :
       (if isPropertyShape (shape constraint)
        then propertyValidationFunctionGeneric (component constraint)
        else nodeValidationFunctionGeneric (component constraint)) = false)
    (Houtcome :
       execute context validationFunction focusNode None constraint = Return obj) :
  validateNodeAgainstConstraint context depth focusNode valueNodes constraint
    rdfDataGraph this
  = createResultsFromOutcome context obj constraint focusNode None this
  /\ match validateNodeAgainstConstraint context depth focusNode valueNodes
             constraint rdfDataGraph this with
     | Normal _ this' | Throw _ this' =>
         violationsCount this' = violationsCount this
         /\ maxErrorsReached this' = false
     | Diverge => False
     end.
Proof.
  assert (Hrun :
    validateNodeAgainstConstraint context depth focusNode valueNodes constraint
      rdfDataGraph this
    = createResultsFromOutcome context obj constraint focusNode None this).
  { unfold validateNodeAgainstConstraint, validateNodeAgainstConstraint_body.
    rewrite bind_gets, Hlimit, Hcomponent, Hvalidator, Hgeneric.
    unfold executeSuppressed.
    rewrite bind_bind, bind_modify, Houtcome. simpl runValidator.
    rewrite bind_bind, bind_ret, bind_bind, bind_modify, bind_ret.
    now rewrite set_recordErrorsLevel_back. }
  split; [exact Hrun|]. rewrite Hrun.
  pose proof (@createResultsFromOutcome_cases context obj constraint focusNode None
                this) as H.
  assert (Hsame : forall this',
    violationsCount this' = violationsCount this ->
    configuration this' = configuration this ->
    maxErrorsReached this' = false).
  { intros this' Hcount Hconfiguration. rewrite <- Hlimit.
    unfold maxErrorsReached, getConfiguration. now rewrite Hcount, Hconfiguration. }
  destruct (createResultsFromOutcome context obj constraint focusNode None this)
    as [found this'|e this'|]; [| |exact H];
    destruct H as (Hcount & _ & _ & Hconfiguration); auto.
Qed.

Lemma non_generic_validator_is_not_counted_witness :
  let context :=
    Sample.sampleContext [Sample.alice] (Sample.oneConstraint "pair" false) in
  let constraint :=
    Sample.constraintOf Sample.personShape
      (Sample.componentOf "sh:SampleConstraintComponent" "pair" false) in
  let this := Sample.withBatch 1 (constructor false) in
  maxErrorsReached this = false
  /\ match validateNodeAgainstConstraint context 0 Sample.alice
             [Sample.alice; Sample.bob] constraint [] this with
     | Normal _ this' | Throw _ this' =>
         violationsCount this' = violationsCount this
         /\ maxErrorsReached this' = false
     | Diverge => False
     end.
Proof.
  intros context constraint this.
  assert (Hlimit : maxErrorsReached this = false) by reflexivity.
  split; [exact Hlimit|].
  pose proof (@non_generic_validator_is_not_counted context 0%nat Sample.alice
                [Sample.alice; Sample.bob] constraint [] {| funcName := "pair" |}
                (JArray [JBoolean false; JBoolean false]) this
                Hlimit eq_refl eq_refl eq_refl eq_refl) as H.
  destruct H as [_ H]. exact H.
Defined.

(* ================================================================= *)
(** ** What an evaluation leaves alone *)

#[global] Instance sameFailure_lawful : Lawful (fun _ => True) sameFailure sameFailure.
Proof.
  constructor; unfold sameFailure; intros; auto; congruence.
Qed.

Lemma validateNodeAgainstShape_sameFailure (context : Context) (depth : nat)
    (focusNode : Term) (s : Shape) (rdfDataGraph : DataGraph) this :
  sat (fun _ => True) sameFailure sameFailure (fun _ : bool => True)
    (validateNodeAgainstShape context depth focusNode s rdfDataGraph) this.
Proof.
  apply validateNodeAgainstShape_kept; try exact _; auto.
  - intros l this'. reflexivity.
  - intros [|] this' _; [|now apply sat_ret].
    intros _. simpl. split; [exact I | reflexivity].
  - intros obj constraint focusNode' valueNode this' _.
    pose proof (@createResultsFromOutcome_cases context obj constraint focusNode'
                  valueNode this') as H.
    destruct (createResultsFromOutcome context obj constraint focusNode' valueNode
                this') as [found this''|e this''|]; [| |exact I];
      destruct H as (_ & _ & H & _); [split; [exact I|]|]; exact H.
Qed.

Lemma traversal_sameFailure (context : Context) (depth : nat)
    (rdfDataGraph : DataGraph) this :
  sat (fun _ => True) sameFailure sameFailure (fun _ : bool => True)
    (forLoop (getShapesWithTarget context) (fun s foundError =>
       forLoop (getTargetNodes context s rdfDataGraph) (fun focusNode foundError =>
         orFlag (validateNodeAgainstShape context depth focusNode s rdfDataGraph)
           foundError) foundError) false) this.
Proof.
  apply sat_forLoop; [|exact I]. intros s foundError this1 _ _.
  apply sat_forLoop; [|exact I]. intros focusNode foundError' this2 _ _.
  eapply sat_orFlag; [apply validateNodeAgainstShape_sameFailure | auto].
Qed.

(** X13: what the evaluation of a shape leaves alone.  It only appends to
    the results, never takes the counter back, and changes neither the
    conformance-only flag, the configuration nor the stored failure; after a
    normal end the suppression level is what it was, after a failure it is
    not lower. *)
Theorem evaluation_appends_and_restores (context : Context) (depth : nat)
    (focusNode : Term) (s : Shape) (rdfDataGraph : DataGraph)
    (this : ValidationEngine)
    (Hbalanced : 0 <= recordErrorsLevel this) :
  match validateNodeAgainstShape context depth focusNode s rdfDataGraph this with
  | Normal _ this' =>
      recordErrorsLevel this' = recordErrorsLevel this
      /\ conformanceOnly this' = conformanceOnly this
      /\ configuration this' = configuration this
      /\ validationError this' = validationError this
      /\ violationsCount this <= violationsCount this'
      /\ exists added, results this' = (results this ++ added)%list
  | Throw _ this' =>
      recordErrorsLevel this <= recordErrorsLevel this'
      /\ conformanceOnly this' = conformanceOnly this
      /\ configuration this' = configuration this
      /\ validationError this' = validationError this
      /\ violationsCount this <= violationsCount this'
      /\ exists added, results this' = (results this ++ added)%list
  | Diverge => True
  end.
Proof.
  pose proof (@validateNodeAgainstShape_evaluated context (fun _ _ => True)
                (fun _ _ _ => I) (fun _ _ _ _ _ _ => I) depth focusNode s rdfDataGraph
                this Hbalanced) as He.
  pose proof (@validateNodeAgainstShape_sameFailure context depth focusNode s
                rdfDataGraph this I) as Hf.
  destruct (validateNodeAgainstShape context depth focusNode s rdfDataGraph this)
    as [found this'|e this'|]; [| |exact I].
  - destruct He as [_ He]. destruct Hf as [_ Hf].
    destruct_engine_relations. repeat split; try assumption.
    eexists; eassumption.
  - destruct_engine_relations. repeat split; try assumption.
    eexists; eassumption.
Qed.

Lemma evaluation_appends_and_restores_witness :
  let context :=
    Sample.sampleContext [Sample.alice] (Sample.oneConstraint "violation" true) in
  let this := constructor false in
  0 <= recordErrorsLevel this
  /\ match validateNodeAgainstShape context 0 Sample.alice Sample.personShape []
             this with
     | Normal _ this' =>
         recordErrorsLevel this' = recordErrorsLevel this
         /\ conformanceOnly this' = conformanceOnly this
         /\ configuration this' = configuration this
         /\ validationError this' = validationError this
         /\ violationsCount this <= violationsCount this'
         /\ exists added, results this' = (results this ++ added)%list
     | Throw _ this' =>
         recordErrorsLevel this <= recordErrorsLevel this'
         /\ conformanceOnly this' = conformanceOnly this
         /\ configuration this' = configuration this
         /\ validationError this' = validationError this
         /\ violationsCount this <= violationsCount this'
         /\ exists added, results this' = (results this ++ added)%list
     | Diverge => True
     end.
Proof.
  intros context this.
  assert (Hbalanced : 0 <= recordErrorsLevel this) by (simpl; lia).
  split; [exact Hbalanced|].
  exact (@evaluation_appends_and_restores context 0%nat Sample.alice
           Sample.personShape [] this Hbalanced).
Defined.

(* ================================================================= *)
(** ** What the answer [false] tells *)

Lemma evaluated_same this : evaluated (fun _ => True) this this.
Proof. apply (@RN_refl _ _ _ (evaluated_lawful (fun _ => True))). Qed.

Lemma evaluated_then a b c :
  evaluated (fun _ => True) a b -> evaluated (fun _ => True) b c ->
  evaluated (fun _ => True) a c.
Proof. apply (@RN_trans _ _ _ (evaluated_lawful (fun _ => True))). Qed.

Lemma evaluated_interrupted a b c :
  evaluated (fun _ => True) a b -> interrupted (fun _ => True) b c ->
  interrupted (fun _ => True) a c.
Proof. apply (@RN_RT _ _ _ (evaluated_lawful (fun _ => True))). Qed.

Lemma evaluated_balanced a b :
  balanced a -> evaluated (fun _ => True) a b -> balanced b.
Proof. apply (@Pre_RN _ _ _ (evaluated_lawful (fun _ => True))). Qed.

Lemma quiet_evaluated (m : M bool) this :
  quiet m this ->
  sat balanced (evaluated (fun _ => True)) (interrupted (fun _ => True))
    (fun _ : bool => True) m this.
Proof.
  intros H Hb. specialize (H Hb).
  destruct (m this) as [found this'|e this'|]; auto. destruct H; auto.
Qed.

Lemma flagged_quiet (body : bool -> M bool) this :
  flagged body this -> quiet (body false) this.
Proof.
  intros H Hb. specialize (H false Hb).
  destruct (body false this) as [found this'|e this'|]; auto.
  destruct H as [He Hr]. split; [exact He|].
  intros Hf. now destruct (Hr Hf).
Qed.

Lemma ret_flagged this : flagged ret this.
Proof.
  intros flag Hb. simpl. split; [apply evaluated_same | auto].
Qed.

Lemma orFlag_flagged (call : M bool) this :
  quiet call this -> flagged (orFlag call) this.
Proof.
  intros H flag Hb. specialize (H Hb). unfold orFlag, bind.
  destruct (call this) as [b this'|e this'|]; auto.
  unfold ret. destruct H as [He Hr]. split; [exact He|].
  destruct b; [discriminate|]. intros ->. auto.
Qed.

Lemma forLoop_flagged {A} (l : list A) (body : A -> bool -> M bool) :
  (forall x this, In x l -> flagged (body x) this) ->
  forall this, flagged (forLoop l body) this.
Proof.
  induction l as [|x l IH]; intros Hbody this flag Hb.
  - apply ret_flagged. exact Hb.
  - simpl forLoop. unfold bind.
    pose proof (Hbody x this (or_introl eq_refl) flag Hb) as Hx.
    destruct (body x flag this) as [flag1 this1|e this1|]; [|exact Hx|exact I].
    destruct Hx as [He Hr].
    pose proof (evaluated_balanced Hb He) as Hb1.
    pose proof (IH (fun y st Hin => Hbody y st (or_intror Hin)) this1 flag1 Hb1)
      as Hrest.
    destruct (forLoop l body flag1 this1) as [found this2|e this2|]; [| |exact I].
    + destruct Hrest as [He2 Hr2].
      split; [now apply evaluated_then with this1|].
      intros Hf. destruct (Hr2 Hf) as [-> Hres2].
      destruct (Hr eq_refl) as [-> Hres1]. split; congruence.
    + now apply evaluated_interrupted with this1.
Qed.

Lemma quiet_unless_reached (rest : M bool) this :
  quiet rest this ->
  quiet (reached <- gets maxErrorsReached ;; if reached then ret true else rest) this.
Proof.
  intros H Hb. rewrite bind_gets.
  destruct (maxErrorsReached this); [|now apply H].
  simpl. split; [apply evaluated_same | discriminate].
Qed.

Lemma createResultFromObject_quiet (context : Context) (obj : JsValue)
    (constraint : Constraint) (focusNode : Term) (valueNode : option Term) this :
  quiet (createResultFromObject context obj constraint focusNode valueNode) this.
Proof.
  intros Hb.
  pose proof (@createResultFromObject_evaluated context (fun _ => True) obj
                constraint focusNode valueNode this I Hb) as He.
  destruct (@createResultFromObject_cases context obj constraint focusNode valueNode
              this) as [added Hc].
  destruct (createResultFromObject context obj constraint focusNode valueNode this)
    as [found this'|e this'|]; [|exact He|exact I].
  destruct He as [_ He]. split; [exact He|].
  intros ->. destruct Hc as [->|[Hd _]]; [reflexivity | discriminate].
Qed.

Lemma createResultsFromOutcome_quiet (context : Context) (obj : JsValue)
    (constraint : Constraint) (focusNode : Term) (valueNode : option Term) this :
  quiet (createResultsFromOutcome context obj constraint focusNode valueNode) this.
Proof.
  assert (Hone : forall o,
    quiet (orFlag (createResultFromObject context o constraint focusNode valueNode)
             false) this).
  { intros o.
    apply (@flagged_quiet
             (orFlag (createResultFromObject context o constraint focusNode
                        valueNode))).
    apply orFlag_flagged, createResultFromObject_quiet. }
  destruct obj as [| | | | | |items]; try apply Hone.
  apply (@flagged_quiet
           (forLoop items (fun item =>
              orFlag (createResultFromObject context item constraint focusNode
                        valueNode)))).
  apply forLoop_flagged. intros item this' _.
  apply orFlag_flagged, createResultFromObject_quiet.
Qed.

Section Quiet.

Variable context : Context.
Variable recur : Term -> Shape -> DataGraph -> M bool.
Hypothesis recur_quiet :
  forall focusNode s rdfDataGraph this, quiet (recur focusNode s rdfDataGraph) this.

(** The validator runs with recording suppressed: whatever it evaluates, no
    result is added. *)
Lemma executeSuppressed_silent (validationFunction : ValidationFunction)
    (focusNode : Term) (valueNode : option Term) (constraint : Constraint) this :
  balanced this ->
  match executeSuppressed context recur validationFunction focusNode valueNode
          constraint this with
  | Normal _ this' =>
      evaluated (fun _ => True) this this' /\ results this' = results this
  | Throw _ this' => interrupted (fun _ => True) this this'
  | Diverge => True
  end.
Proof.
  intros Hb.
  assert (Hrecur : forall focusNode' s rdfDataGraph st,
    sat balanced (evaluated (fun _ => True)) (interrupted (fun _ => True))
      (fun _ : bool => True) (recur focusNode' s rdfDataGraph) st).
  { intros. apply quiet_evaluated, recur_quiet. }
  pose proof (@executeSuppressed_evaluated context (fun _ _ => True) recur Hrecur
                (fun _ => True) validationFunction focusNode valueNode constraint
                this Hb) as He.
  revert He. unfold executeSuppressed. rewrite bind_modify.
  set (this1 := set_recordErrorsLevel (recordErrorsLevel this + 1) this).
  assert (Hlevel1 : 0 < recordErrorsLevel this1)
    by (unfold balanced in Hb; simpl; lia).
  pose proof (@suppressed_results_kept JsValue (fun _ => True) (fun _ => True)
                (runValidator recur
                   (execute context validationFunction focusNode valueNode
                      constraint))
                this1 Hlevel1
                (@runValidator_suppressed (fun _ _ => True) recur Hrecur
                   (fun _ => True) _ this1 Hlevel1)) as Hr.
  unfold bind at 1 3.
  destruct (runValidator recur _ this1) as [obj this2|e this2|]; auto.
  simpl. intros [_ He]. split; [exact He | exact Hr].
Qed.

Lemma genericLoop_flagged (validationFunction : ValidationFunction)
    (focusNode : Term) (constraint : Constraint) (valueNodes : list Term) this :
  flagged (genericLoop context recur validationFunction focusNode constraint
             valueNodes) this.
Proof.
  revert this.
  induction valueNodes as [|valueNode rest IH]; intros this flag Hb; simpl genericLoop.
  - now apply ret_flagged.
  - rewrite bind_gets.
    destruct (maxErrorsReached this); [now apply ret_flagged|].
    unfold bind at 1.
    pose proof (@executeSuppressed_silent validationFunction focusNode
                  (Some valueNode) constraint this Hb) as Hx.
    destruct (executeSuppressed context recur validationFunction focusNode
                (Some valueNode) constraint this) as [obj this1|e this1|];
      [|exact Hx|exact I].
    destruct Hx as [He1 Hr1].
    pose proof (evaluated_balanced Hb He1) as Hb1.
    unfold bind at 1.
    pose proof (@createResultsFromOutcome_quiet context obj constraint focusNode
                  (Some valueNode) this1 Hb1) as Ho.
    destruct (createResultsFromOutcome context obj constraint focusNode
                (Some valueNode) this1) as [iterationError this2|e this2|];
      [| |exact I].
    + destruct Ho as [He2 Hr2].
      pose proof (evaluated_then He1 He2) as He12.
      pose proof (evaluated_balanced Hb He12) as Hb2.
      destruct iterationError.
      * rewrite bind_modify.
        set (this3 := set_violationsCount (violationsCount this2 + 1) this2).
        assert (He3 : evaluated (fun _ => True) this2 this3).
        { unfold evaluated, grows. subst this3. simpl.
          repeat split; try lia. exists []. rewrite app_nil_r. auto. }
        pose proof (evaluated_then He12 He3) as He123.
        pose proof (IH this3 (flag || true) (evaluated_balanced Hb He123)) as Hrest.
        destruct (genericLoop context recur validationFunction focusNode constraint
                    rest (flag || true) this3) as [found this'|e this'|];
          [| |exact I].
        -- destruct Hrest as [He4 Hr4].
           split; [now apply evaluated_then with this3|].
           intros Hf. destruct (Hr4 Hf) as [Hflag _].
           rewrite orb_true_r in Hflag. discriminate.
        -- now apply evaluated_interrupted with this3.
      * rewrite bind_ret.
        pose proof (IH this2 (flag || false) Hb2) as Hrest.
        destruct (genericLoop context recur validationFunction focusNode constraint
                    rest (flag || false) this2) as [found this'|e this'|];
          [| |exact I].
        -- destruct Hrest as [He4 Hr4].
           split; [now apply evaluated_then with this2|].
           intros Hf. destruct (Hr4 Hf) as [Hflag Hres].
           rewrite orb_false_r in Hflag. split; [exact Hflag|].
           rewrite Hres, (Hr2 eq_refl). exact Hr1.
        -- now apply evaluated_interrupted with this2.
    + now apply evaluated_interrupted with this1.
Qed.

Lemma validateNodeAgainstConstraint_body_quiet (focusNode : Term)
    (valueNodes : list Term) (constraint : Constraint) (rdfDataGraph : DataGraph)
    this :
  quiet (validateNodeAgainstConstraint_body context recur focusNode valueNodes
           constraint rdfDataGraph) this.
Proof.
  unfold validateNodeAgainstConstraint_body. apply quiet_unless_reached.
  destruct (equals (T "sh:PropertyConstraintComponent") (node (component constraint))).
  - apply (@flagged_quiet
             (forLoop valueNodes (fun valueNode =>
                orFlag (recur valueNode (getShape context (paramValue constraint))
                          rdfDataGraph)))).
    apply forLoop_flagged. intros valueNode this' _.
    apply orFlag_flagged, recur_quiet.
  - destruct (if isPropertyShape (shape constraint)
              then propertyValidationFunction (component constraint)
              else nodeValidationFunction (component constraint))
      as [validationFunction|].
    + destruct (if isPropertyShape (shape constraint)
                then propertyValidationFunctionGeneric (component constraint)
                else nodeValidationFunctionGeneric (component constraint)).
      * apply (@flagged_quiet
                 (genericLoop context recur validationFunction focusNode constraint
                    valueNodes)).
        apply genericLoop_flagged.
      * intros Hb. unfold bind.
        pose proof (@executeSuppressed_silent validationFunction focusNode None
                      constraint this Hb) as Hx.
        destruct (executeSuppressed context recur validationFunction focusNode None
                    constraint this) as [obj this1|e this1|]; [|exact Hx|exact I].
        destruct Hx as [He1 Hr1].
        pose proof (@createResultsFromOutcome_quiet context obj constraint focusNode
                      None this1 (evaluated_balanced Hb He1)) as Ho.
        destruct (createResultsFromOutcome context obj constraint focusNode None
                    this1) as [found this2|e this2|]; [| |exact I].
        -- destruct Ho as [He2 Hr2].
           split; [now apply evaluated_then with this1|].
           intros Hf. now rewrite (Hr2 Hf).
        -- now apply evaluated_interrupted with this1.
    + intros Hb. simpl.
      apply (@RN_sub_RT _ _ _ (evaluated_lawful (fun _ => True))), evaluated_same.
Qed.

Lemma validateNodeAgainstShape_body_quiet (focusNode : Term) (s : Shape)
    (rdfDataGraph : DataGraph) this :
  quiet (validateNodeAgainstShape_body context recur focusNode s rdfDataGraph) this.
Proof.
  unfold validateNodeAgainstShape_body. apply quiet_unless_reached.
  destruct (deactivated s).
  - intros Hb. simpl. split; [apply evaluated_same | auto].
  - apply (@flagged_quiet
             (forLoop (getConstraints context s) (fun constraint =>
                orFlag (validateNodeAgainstConstraint_body context recur focusNode
                          (getValueNodes context s focusNode rdfDataGraph) constraint
                          rdfDataGraph)))).
    apply forLoop_flagged. intros constraint this' _.
    apply orFlag_flagged, validateNodeAgainstConstraint_body_quiet.
Qed.

End Quiet.

Lemma validateNodeAgainstShape_quiet (context : Context) (depth : nat)
    (focusNode : Term) (s : Shape) (rdfDataGraph : DataGraph) this :
  quiet (validateNodeAgainstShape context depth focusNode s rdfDataGraph) this.
Proof.
  revert focusNode s rdfDataGraph this.
  induction depth as [|depth IH]; intros focusNode s rdfDataGraph this; simpl;
    apply validateNodeAgainstShape_body_quiet; auto.
  intros ? ? ? ? _. exact I.
Qed.

Lemma validateNodeAgainstConstraint_quiet (context : Context) (depth : nat)
    (focusNode : Term) (valueNodes : list Term) (constraint : Constraint)
    (rdfDataGraph : DataGraph) this :
  quiet (validateNodeAgainstConstraint context depth focusNode valueNodes constraint
           rdfDataGraph) this.
Proof.
  unfold validateNodeAgainstConstraint.
  apply validateNodeAgainstConstraint_body_quiet.
  destruct depth; intros.
  - intros _. exact I.
  - apply validateNodeAgainstShape_quiet.
Qed.

Lemma traversal_quiet (context : Context) (depth : nat)
    (rdfDataGraph : DataGraph) this :
  quiet
    (forLoop (getShapesWithTarget context) (fun s foundError =>
       forLoop (getTargetNodes context s rdfDataGraph) (fun focusNode foundError =>
         orFlag (validateNodeAgainstShape context depth focusNode s rdfDataGraph)
           foundError) foundError) false) this.
Proof.
  apply (@flagged_quiet
           (forLoop (getShapesWithTarget context) (fun s =>
              forLoop (getTargetNodes context s rdfDataGraph) (fun focusNode =>
                orFlag (validateNodeAgainstShape context depth focusNode s
                          rdfDataGraph))))).
  apply forLoop_flagged. intros s this1 _.
  apply forLoop_flagged. intros focusNode this2 _.
  apply orFlag_flagged, validateNodeAgainstShape_quiet.
Qed.

(** X14: what the answer [false] tells.  On an engine whose suppression
    level is not negative, an evaluation that answers [false] has added no
    result; a run that answers [false] ends with an empty result
    accumulator and no stored failure, so that its report is empty. *)
Theorem false_answer_means_nothing_recorded (context : Context) (depth : nat)
    (rdfDataGraph : DataGraph) (this : ValidationEngine)
    (Hbalanced : 0 <= recordErrorsLevel this) :
  (forall focusNode s this',
      validateNodeAgainstShape context depth focusNode s rdfDataGraph this
      = Normal false this' ->
      results this' = results this)
  /\ (forall focusNode valueNodes constraint this',
        validateNodeAgainstConstraint context depth focusNode valueNodes constraint
          rdfDataGraph this
        = Normal false this' ->
        results this' = results this)
  /\ (forall this',
        validateAll context depth rdfDataGraph this = Normal false this' ->
        results this' = []
        /\ validationError this' = None
        /\ getReport this' = Normal (ValidationReport_new []) this').
Proof.
  split; [|split].
  - intros focusNode s this' Hrun.
    pose proof (@validateNodeAgainstShape_quiet context depth focusNode s
                  rdfDataGraph this Hbalanced) as H.
    rewrite Hrun in H. now apply H.
  - intros focusNode valueNodes constraint this' Hrun.
    pose proof (@validateNodeAgainstConstraint_quiet context depth focusNode
                  valueNodes constraint rdfDataGraph this Hbalanced) as H.
    rewrite Hrun in H. now apply H.
  - intros this' Hrun.
    destruct (maxErrorsReached this) eqn:Hlimit.
    { unfold validateAll in Hrun. rewrite bind_gets, Hlimit in Hrun. discriminate. }
    rewrite validateAll_unreached in Hrun by exact Hlimit.
    set (this1 := set_results [] (set_validationError None this)) in Hrun.
    assert (Hb1 : balanced this1) by exact Hbalanced.
    pose proof (@traversal_quiet context depth rdfDataGraph this1 Hb1) as Hq.
    pose proof (@traversal_sameFailure context depth rdfDataGraph this1 I) as Hf.
    destruct (forLoop _ _ false this1) as [found st|e st|]; try discriminate.
    injection Hrun as -> ->.
    destruct Hq as [_ Hq]. destruct Hf as [_ Hf].
    specialize (Hq eq_refl). unfold sameFailure in Hf. simpl in Hq, Hf.
    assert (Hreport : getReport this' = Normal (ValidationReport_new []) this').
    { unfold getReport. now rewrite Hf, Hq. }
    auto.
Qed.

Lemma false_answer_means_nothing_recorded_witness :
  let context :=
    Sample.sampleContext [Sample.alice] (Sample.oneConstraint "conforms" true) in
  let this := constructor false in
  let this' := set_results [] (set_validationError None this) in
  0 <= recordErrorsLevel this
  /\ validateAll context 0 [] this = Normal false this'
  /\ results this' = []
  /\ validationError this' = None
  /\ getReport this' = Normal (ValidationReport_new []) this'.
Proof.
  intros context this this'.
  assert (Hbalanced : 0 <= recordErrorsLevel this) by (simpl; lia).
  assert (Hrun : validateAll context 0 [] this = Normal false this') by reflexivity.
  split; [exact Hbalanced|]. split; [exact Hrun|].
  pose proof (@false_answer_means_nothing_recorded context 0%nat [] this Hbalanced)
    as H.
  destruct H as (_ & _ & H). exact (H this' Hrun).
Defined.

(* ================================================================= *)
(** ** Templates without placeholders *)

Lemma replace_absent (str pat replacement : string) :
  (forall before after, str <> before ++ pat ++ after) ->
  replace str pat replacement = str.
Proof.
  intros Habsent.
  destruct (replace_replacesFirst str pat replacement)
    as [[_ H]|(before & after & H & _)]; [exact H|].
  now elim (Habsent before after).
Qed.

(** X15: a template in which no placeholder of the constraint's parameters
    occurs keeps its text; so does every template when the constraint has no
    parameters.  The literal made of it still gets the number
    [language | datatype] as its second argument. *)
Theorem withSubstitutions_keeps_text_without_placeholders (context : Context)
    (msg : Term) (constraint : Constraint)
    (Habsent :
       forall key v,
         In (key, v) (parameterValues constraint) ->
         forall before after,
           value msg <> before ++ ("{$" ++ key ++ "}") ++ after
           /\ value msg <> before ++ ("{?" ++ key ++ "}") ++ after) :
  withSubstitutions context msg constraint
  = literal context (value msg)
      (ArgNumber (bitwiseOr context (language_of msg) (datatype_of msg))).
Proof.
  unfold withSubstitutions. cbv zeta. f_equal.
  revert Habsent.
  induction (parameterValues constraint) as [|[key v] values IH]; intros Habsent;
    [reflexivity|].
  simpl fold_left.
  assert (Hstep : substituteParameter context (value msg) (key, v) = value msg).
  { unfold substituteParameter. cbv zeta. simpl fst. simpl snd.
    rewrite (@replace_absent (value msg) ("{$" ++ key ++ "}"))
      by (intros before after; apply (Habsent key v (or_introl eq_refl))).
    apply replace_absent.
    intros before after. apply (Habsent key v (or_introl eq_refl)). }
  rewrite Hstep. apply IH.
  intros key' v' Hin. exact (Habsent key' v' (or_intror Hin)).
Qed.

Lemma withSubstitutions_keeps_text_without_placeholders_witness :
  let msg := Literal "Value {$other} is {value}" "" "xsd:string" in
  (forall key v,
      In (key, v) (parameterValues Sample.fooConstraint) ->
      forall before after,
        value msg <> before ++ ("{$" ++ key ++ "}") ++ after
        /\ value msg <> before ++ ("{?" ++ key ++ "}") ++ after)
  /\ withSubstitutions Sample.plainContext msg Sample.fooConstraint
     = literal Sample.plainContext (value msg)
         (ArgNumber (bitwiseOr Sample.plainContext (language_of msg)
                       (datatype_of msg))).
Proof.
  intros msg.
  assert (Habsent :
    forall key v,
      In (key, v) (parameterValues Sample.fooConstraint) ->
      forall before after,
        value msg <> before ++ ("{$" ++ key ++ "}") ++ after
        /\ value msg <> before ++ ("{?" ++ key ++ "}") ++ after).
  { intros key v [H|[]]. injection H as <- _.
    intros before after. split; apply splitFirst_absent; reflexivity. }
  split; [exact Habsent|].
  exact (@withSubstitutions_keeps_text_without_placeholders Sample.plainContext msg
           Sample.fooConstraint Habsent).
Defined.

(* ================================================================= *)
(** ** The counter while recording is suppressed *)

Lemma createResultFromObject_suppressed (context : Context) (obj : JsValue)
    (constraint : Constraint) (focusNode : Term) (valueNode : option Term)
    (this : ValidationEngine) :
  0 < recordErrorsLevel this ->
  createResultFromObject context obj constraint focusNode valueNode this
  = Normal (negb (conformanceOnly this) && isViolation obj) this.
Proof.
  intros Hlevel.
  assert (Hgt : (recordErrorsLevel this >? 0) = true) by lia.
  unfold createResultFromObject.
  destruct obj as [| |[|]| | | |]; cbn [typeof isViolation];
    simpl (String.eqb _ _); cbv iota;
    rewrite ?bind_gets, ?Hgt; destruct (conformanceOnly this); reflexivity.
Qed.











(* ================================================================= *)
(** ** Results of nested shapes, counted *)

Lemma attributions_app (a b : list Quad) :
  attributions (a ++ b) = (attributions a ++ attributions b)%list.
Proof. unfold attributions. now rewrite filter_app, map_app. Qed.

Lemma attributions_defaultQuads (result : Term) (constraint : Constraint)
    (focusNode : Term) (valueNode : option Term) :
  attributions (defaultQuads result constraint focusNode valueNode)
  = [(result, shapeNode (shape constraint))].
Proof. now destruct valueNode. Qed.

Lemma attributions_shapePathQuads (result : Term) (constraint : Constraint) :
  attributions (shapePathQuads result constraint) = [].
Proof. unfold shapePathQuads. now destruct (path (shape constraint)). Qed.

Lemma attributions_valueQuads (result : Term) (valueNode : option Term) :
  attributions (valueQuads result valueNode) = [].
Proof. now destruct valueNode. Qed.

Lemma attributions_messageQuads (context : Context) (result : Term)
    (constraint : Constraint) :
  attributions (messageQuads context result constraint) = [].
Proof.
  unfold messageQuads.
  induction (messageTemplates context constraint) as [|m ms IH]; [reflexivity|].
  exact IH.
Qed.

Lemma attributions_detailedQuads (context : Context) (result : Term)
    (constraint : Constraint) (focusNode : Term)
    (valueNode objPath objValue : option Term) (objMessage : option string) :
  attributions
    (detailedQuads context result constraint focusNode valueNode objPath objValue
       objMessage)
  = [(result, shapeNode (shape constraint))].
Proof.
  unfold detailedQuads.
  rewrite !attributions_app, attributions_defaultQuads.
  destruct objPath, objValue, (truthyString objMessage);
    rewrite ?attributions_shapePathQuads, ?attributions_valueQuads,
      ?attributions_messageQuads; reflexivity.
Qed.

(** A violation other than [null], where results are recorded, makes one
    result with the shape of the constraint as its one source shape. *)
Lemma createResultFromObject_attributed (context : Context) (obj : JsValue)
    (constraint : Constraint) (focusNode : Term) (valueNode : option Term)
    (this : ValidationEngine) :
  recordErrorsLevel this <= 0 ->
  conformanceOnly this = false ->
  isViolation obj = true ->
  obj <> JNull ->
  exists added,
    createResultFromObject context obj constraint focusNode valueNode this
    = Normal true (recordedWith added this)
    /\ resultNodes added = [freshResult this]
    /\ attributions added = [(freshResult this, shapeNode (shape constraint))].
Proof.
  intros Hlevel Hconformance Hviolation Hnull.
  destruct obj as [| |[|]|n|message|objPath objValue objMessage|items];
    try discriminate; try congruence.
  - eexists. split; [now apply createResultFromObject_false_run|].
    rewrite !resultNodes_app, !attributions_app.
    now rewrite resultNodes_defaultQuads, resultNodes_shapePathQuads,
      resultNodes_messageQuads, attributions_defaultQuads,
      attributions_shapePathQuads, attributions_messageQuads.
  - eexists. split; [now apply createResultFromObject_string_run|].
    rewrite !resultNodes_app, !attributions_app.
    now rewrite resultNodes_defaultQuads, resultNodes_shapePathQuads,
      resultNodes_messageQuads, attributions_defaultQuads,
      attributions_shapePathQuads, attributions_messageQuads.
  - eexists. split; [now apply createResultFromObject_object_run|].
    split; [apply resultNodes_detailedQuads | apply attributions_detailedQuads].
  - eexists. split.
    + change (createResultFromObject context (JArray items) constraint focusNode
                valueNode this)
        with (createResultFromObject context (JObject None None None) constraint
                focusNode valueNode this).
      now apply createResultFromObject_object_run.
    + split; [apply resultNodes_detailedQuads | apply attributions_detailedQuads].
Qed.

Lemma recordedExactly_none (node : Term) this : recordedExactly node 0 this this.
Proof.
  repeat split. exists []. now rewrite app_nil_r.
Qed.

Lemma recordedExactly_more (node : Term) (n m : nat) a b c :
  recordedExactly node n a b -> recordedExactly node m b c ->
  recordedExactly node (n + m) a c.
Proof.
  intros (L1 & C1 & G1 & added1 & R1 & N1 & A1) (L2 & C2 & G2 & added2 & R2 & N2 & A2).
  repeat split; try congruence.
  exists (added1 ++ added2)%list.
  rewrite R2, R1, app_assoc, resultNodes_app, attributions_app, length_app, map_app.
  repeat split; congruence.
Qed.

Lemma recordedExactly_one (node : Term) (added : list Quad) (r : Term) this :
  resultNodes added = [r] ->
  attributions added = [(r, node)] ->
  recordedExactly node 1 this (recordedWith added this).
Proof.
  intros Hnodes Hattributed. repeat split.
  exists added. rewrite Hnodes, Hattributed. repeat split.
Qed.

Lemma recordedExactly_counted (node : Term) (n : nat) (k : Z) a b :
  recordedExactly node n a b -> recordedExactly node n a (set_violationsCount k b).
Proof.
  intros (L & C & G & added & R & N & A). repeat split; try assumption.
  exists added. auto.
Qed.

Lemma recording_kept (node : Term) (n : nat) a b :
  recording a -> recordedExactly node n a b -> recording b.
Proof.
  intros (L & C & B) (L' & C' & G' & _). unfold recording, getConfiguration in *.
  rewrite L', C', G'. auto.
Qed.

Lemma recording_unlimited this : recording this -> maxErrorsReached this = false.
Proof.
  intros (_ & _ & B). unfold maxErrorsReached. now rewrite B.
Qed.

Lemma found_more (flag : bool) (n m : nat) :
  (if (0 <? n)%nat then true else flag) || (0 <? m)%nat
  = flag || (0 <? n + m)%nat.
Proof.
  destruct n; simpl; [reflexivity|]. now rewrite orb_true_r.
Qed.

(** A loop that ORs the answers of calls each of which adds a known number
    of results. *)
Lemma forLoop_recordedExactly {A} (node : Term) (l : list A) (call : A -> M bool)
    (k : A -> nat) :
  (forall x this,
      In x l -> recording this ->
      exists this',
        call x this = Normal (0 <? k x)%nat this'
        /\ recordedExactly node (k x) this this') ->
  forall flag this,
    recording this ->
    exists this',
      forLoop l (fun x errorFound => orFlag (call x) errorFound) flag this
      = Normal (flag || (0 <? list_sum (map k l))%nat) this'
      /\ recordedExactly node (list_sum (map k l)) this this'.
Proof.
  induction l as [|x rest IH]; intros Hcall flag this Hrecording.
  - exists this. simpl. rewrite orb_false_r.
    split; [reflexivity | apply recordedExactly_none].
  - destruct (Hcall x this (or_introl eq_refl) Hrecording) as (this1 & Hx & Hone).
    destruct (IH (fun y st Hin => Hcall y st (or_intror Hin))
                (if (0 <? k x)%nat then true else flag) this1
                (recording_kept Hrecording Hone))
      as (this' & Hrest & Hmore).
    exists this'. simpl forLoop. unfold orFlag at 1.
    erewrite bind_Normal; [|erewrite bind_Normal; [reflexivity | exact Hx]].
    rewrite Hrest. simpl map. simpl list_sum. rewrite found_more.
    split; [reflexivity | now apply recordedExactly_more with this1].
Qed.

Lemma list_sum_violations (items : list JsValue) :
  list_sum (map (fun item => if isViolation item then 1 else 0)%nat items)
  = length (filter isViolation items).
Proof.
  induction items as [|item rest IH]; [reflexivity|].
  simpl. rewrite IH. now destruct (isViolation item).
Qed.

Lemma createResultFromObject_recordedExactly (context : Context) (obj : JsValue)
    (constraint : Constraint) (focusNode : Term) (valueNode : option Term) this :
  obj <> JNull ->
  recording this ->
  exists this',
    createResultFromObject context obj constraint focusNode valueNode this
    = Normal (0 <? (if isViolation obj then 1 else 0))%nat this'
    /\ recordedExactly (shapeNode (shape constraint))
         (if isViolation obj then 1 else 0)%nat this this'.
Proof.
  intros Hnull (Hlevel & Hconformance & _).
  destruct (isViolation obj) eqn:Hviolation.
  - destruct (@createResultFromObject_attributed context obj constraint focusNode
                valueNode this Hlevel Hconformance Hviolation Hnull)
      as (added & Hrun & Hnodes & Hattributed).
    eexists. split; [exact Hrun|].
    now apply recordedExactly_one with (freshResult this).
  - exists this. split; [now apply createResultFromObject_skipped|].
    apply recordedExactly_none.
Qed.

Lemma createResultsFromOutcome_recordedExactly (context : Context) (obj : JsValue)
    (constraint : Constraint) (focusNode : Term) (valueNode : option Term) this :
  withoutNull obj ->
  recording this ->
  exists this',
    createResultsFromOutcome context obj constraint focusNode valueNode this
    = Normal (0 <? resultsOf obj)%nat this'
    /\ recordedExactly (shapeNode (shape constraint)) (resultsOf obj) this this'.
Proof.
  intros [Hnull Hitems] Hrecording.
  assert (Hone : forall o, o <> JNull ->
    exists this',
      orFlag (createResultFromObject context o constraint focusNode valueNode) false
        this
      = Normal (0 <? (if isViolation o then 1 else 0))%nat this'
      /\ recordedExactly (shapeNode (shape constraint))
           (if isViolation o then 1 else 0)%nat this this').
  { intros o Ho.
    destruct (@createResultFromObject_recordedExactly context o constraint focusNode
                valueNode this Ho Hrecording) as (this' & Hrun & Hone).
    exists this'. split; [|exact Hone].
    unfold orFlag. erewrite bind_Normal by exact Hrun.
    now destruct (isViolation o). }
  destruct obj as [| | | | | |items]; try (apply Hone; exact Hnull).
  unfold createResultsFromOutcome, resultsOf.
  rewrite <- list_sum_violations.
  apply (@forLoop_recordedExactly JsValue (shapeNode (shape constraint)) items
           (fun item =>
              createResultFromObject context item constraint focusNode valueNode)
           (fun item => if isViolation item then 1 else 0)%nat);
    [|exact Hrecording].
  intros item st Hin Hst.
  apply createResultFromObject_recordedExactly; [|exact Hst].
  intros ->. now apply (Hitems items eq_refl).
Qed.

Lemma genericLoop_recordedExactly (context : Context)
    (recur : Term -> Shape -> DataGraph -> M bool)
    (validationFunction : ValidationFunction) (focusNode : Term)
    (constraint : Constraint) (outcome : Term -> JsValue) (valueNodes : list Term) :
  (forall w,
      In w valueNodes ->
      execute context validationFunction focusNode (Some w) constraint
      = Return (outcome w)
      /\ withoutNull (outcome w)) ->
  forall (errorFound : bool) (this : ValidationEngine),
    recording this ->
    exists this',
      genericLoop context recur validationFunction focusNode constraint valueNodes
        errorFound this
      = Normal
          (errorFound
           || (0 <? list_sum (map (fun w => resultsOf (outcome w)) valueNodes))%nat)
          this'
      /\ recordedExactly (shapeNode (shape constraint))
           (list_sum (map (fun w => resultsOf (outcome w)) valueNodes)) this this'.
Proof.
  induction valueNodes as [|w rest IH]; intros Houtcome errorFound this Hrecording.
  - exists this. simpl. rewrite orb_false_r.
    split; [reflexivity | apply recordedExactly_none].
  - simpl genericLoop.
    rewrite bind_gets, (recording_unlimited Hrecording).
    destruct (Houtcome w (or_introl eq_refl)) as [Hexecute Hnull].
    erewrite bind_Normal by (apply executeSuppressed_return, Hexecute).
    replace (recordErrorsLevel this + 1 - 1) with (recordErrorsLevel this) by lia.
    assert (Hback :
      set_recordErrorsLevel (recordErrorsLevel this)
        (set_recordErrorsLevel (recordErrorsLevel this + 1) this) = this)
      by now destruct this.
    rewrite Hback.
    destruct (@createResultsFromOutcome_recordedExactly context (outcome w) constraint
                focusNode (Some w) this Hnull Hrecording) as (this1 & Hrun & Hone).
    erewrite bind_Normal by exact Hrun.
    assert (Hcounted : exists this2,
      ((if (0 <? resultsOf (outcome w))%nat
        then modify (fun st => set_violationsCount (violationsCount st + 1) st)
        else ret tt) this1) = Normal tt this2
      /\ recordedExactly (shapeNode (shape constraint)) (resultsOf (outcome w))
           this this2).
    { destruct (0 <? resultsOf (outcome w))%nat.
      - eexists. split; [reflexivity|]. now apply recordedExactly_counted.
      - exists this1. split; [reflexivity | exact Hone]. }
    destruct Hcounted as (this2 & Hcount & Htwo).
    erewrite bind_Normal by exact Hcount.
    destruct (IH (fun x Hx => Houtcome x (or_intror Hx))
                (errorFound || (0 <? resultsOf (outcome w))%nat) this2
                (recording_kept Hrecording Htwo))
      as (this' & Hrest & Hmore).
    exists this'. rewrite Hrest. simpl map. simpl list_sum.
    split; [|now apply recordedExactly_more with this2].
    f_equal. destruct (resultsOf (outcome w)); simpl.
    + now rewrite orb_false_r.
    + now rewrite !orb_true_r.
Qed.

Lemma validateNodeAgainstShape_recordedExactly (context : Context) (depth : nat)
    (rdfDataGraph : DataGraph) (nested : Shape)
    (outcome : Constraint -> Term -> JsValue) (v : Term) this :
  deactivated nested = false ->
  evaluatedDirectly context rdfDataGraph nested outcome v ->
  recording this ->
  exists this',
    validateNodeAgainstShape context depth v nested rdfDataGraph this
    = Normal
        (0 <? list_sum
                (map (fun constraint =>
                   list_sum
                     (map (fun w => resultsOf (outcome constraint w))
                        (getValueNodes context nested v rdfDataGraph)))
                   (getConstraints context nested)))%nat
        this'
    /\ recordedExactly (shapeNode nested)
         (list_sum
            (map (fun constraint =>
               list_sum
                 (map (fun w => resultsOf (outcome constraint w))
                    (getValueNodes context nested v rdfDataGraph)))
               (getConstraints context nested)))
         this this'.
Proof.
  intros Hactive Hdirect Hrecording.
  assert (Hbody : forall recur,
    exists this',
      validateNodeAgainstShape_body context recur v nested rdfDataGraph this
      = Normal
          (0 <? list_sum
                  (map (fun constraint =>
                     list_sum
                       (map (fun w => resultsOf (outcome constraint w))
                          (getValueNodes context nested v rdfDataGraph)))
                     (getConstraints context nested)))%nat
          this'
      /\ recordedExactly (shapeNode nested)
           (list_sum
              (map (fun constraint =>
                 list_sum
                   (map (fun w => resultsOf (outcome constraint w))
                      (getValueNodes context nested v rdfDataGraph)))
                 (getConstraints context nested)))
           this this').
  { intros recur. unfold validateNodeAgainstShape_body.
    rewrite bind_gets, (recording_unlimited Hrecording), Hactive.
    apply (@forLoop_recordedExactly Constraint (shapeNode nested)
             (getConstraints context nested)
             (fun constraint =>
                validateNodeAgainstConstraint_body context recur v
                  (getValueNodes context nested v rdfDataGraph) constraint
                  rdfDataGraph)
             (fun constraint =>
                list_sum
                  (map (fun w => resultsOf (outcome constraint w))
                     (getValueNodes context nested v rdfDataGraph))));
      [|exact Hrecording].
    intros constraint st Hin Hst.
    destruct (Hdirect constraint Hin)
      as (Hcomponent & Hown & Hgeneric & validationFunction & Hvalidator & Houtcome).
    unfold validateNodeAgainstConstraint_body.
    rewrite bind_gets, (recording_unlimited Hst), Hcomponent, Hvalidator, Hgeneric.
    rewrite <- Hown.
    apply (@genericLoop_recordedExactly context recur validationFunction v constraint
             (outcome constraint) (getValueNodes context nested v rdfDataGraph)
             Houtcome false st Hst). }
  destruct depth; simpl; apply Hbody.
Qed.

#[global] Instance paired_lawful : Lawful (fun _ => True) paired paired.
Proof.
  assert (Htrans : forall a b c, paired a b -> paired b c -> paired a c).
  { intros a b c (added1 & R1 & P1) (added2 & R2 & P2).
    exists (added1 ++ added2)%list.
    rewrite R2, R1, app_assoc, attributions_app, resultNodes_app, map_app.
    split; congruence. }
  constructor; auto.
  intros this. exists []. now rewrite app_nil_r.
Qed.

Lemma createResultFromObject_paired (context : Context) (obj : JsValue)
    (constraint : Constraint) (focusNode : Term) (valueNode : option Term)
    (this : ValidationEngine) :
  sat (fun _ => True) paired paired (fun _ : bool => True)
    (createResultFromObject context obj constraint focusNode valueNode) this.
Proof.
  intros _.
  assert (Hsame : paired this this) by apply (@RN_refl _ _ _ paired_lawful).
  assert (Hblock : forall added,
    map fst (attributions added) = resultNodes added ->
    paired this (recordedWith added this)).
  { intros added H. exists added. split; [reflexivity | exact H]. }
  destruct (Z.leb_spec (recordErrorsLevel this) 0) as [Hlevel|Hlevel].
  - destruct (conformanceOnly this) eqn:Hconformance.
    + unfold createResultFromObject.
      destruct obj as [| |[|]| | | |]; cbn [typeof];
        simpl (String.eqb _ _); cbv iota;
        rewrite ?bind_gets, ?(not_suppressed this Hlevel), ?Hconformance;
        simpl; auto.
    + destruct obj as [| |[|]|n|message|objPath objValue objMessage|items];
        try (simpl; now auto).
      * unfold createResultFromObject.
        cbn [typeof]. simpl (String.eqb _ _). cbv iota.
        rewrite !bind_gets, (not_suppressed this Hlevel), Hconformance.
        erewrite bind_Normal by apply createResult_run.
        cbn [getPath]. rewrite bind_throw.
        apply Hblock.
        now rewrite attributions_defaultQuads, resultNodes_defaultQuads.
      * rewrite createResultFromObject_false_run by assumption.
        split; [exact I|]. apply Hblock.
        rewrite !resultNodes_app, !attributions_app.
        now rewrite resultNodes_defaultQuads, resultNodes_shapePathQuads,
          resultNodes_messageQuads, attributions_defaultQuads,
          attributions_shapePathQuads, attributions_messageQuads.
      * rewrite createResultFromObject_string_run by assumption.
        split; [exact I|]. apply Hblock.
        rewrite !resultNodes_app, !attributions_app.
        now rewrite resultNodes_defaultQuads, resultNodes_shapePathQuads,
          resultNodes_messageQuads, attributions_defaultQuads,
          attributions_shapePathQuads, attributions_messageQuads.
      * rewrite createResultFromObject_object_run by assumption.
        split; [exact I|]. apply Hblock.
        now rewrite resultNodes_detailedQuads, attributions_detailedQuads.
      * change (createResultFromObject context (JArray items) constraint focusNode
                  valueNode this)
          with (createResultFromObject context (JObject None None None) constraint
                  focusNode valueNode this).
        rewrite createResultFromObject_object_run by assumption.
        split; [exact I|]. apply Hblock.
        now rewrite resultNodes_detailedQuads, attributions_detailedQuads.
  - rewrite createResultFromObject_suppressed by exact Hlevel. auto.
Qed.

Lemma createResultsFromOutcome_paired (context : Context) (obj : JsValue)
    (constraint : Constraint) (focusNode : Term) (valueNode : option Term) this :
  sat (fun _ => True) paired paired (fun _ : bool => True)
    (createResultsFromOutcome context obj constraint focusNode valueNode) this.
Proof.
  unfold createResultsFromOutcome.
  destruct obj;
    try (eapply sat_orFlag; [apply createResultFromObject_paired | auto]).
  apply sat_forLoop; [|exact I]. intros.
  eapply sat_orFlag; [apply createResultFromObject_paired | auto].
Qed.

Lemma paired_results a b : results b = results a -> paired a b.
Proof.
  intros H. exists []. now rewrite app_nil_r.
Qed.

Lemma validateNodeAgainstConstraint_paired (context : Context) (depth : nat)
    (focusNode : Term) (valueNodes : list Term) (constraint : Constraint)
    (rdfDataGraph : DataGraph) this :
  sat (fun _ => True) paired paired (fun _ : bool => True)
    (validateNodeAgainstConstraint context depth focusNode valueNodes constraint
       rdfDataGraph) this.
Proof.
  apply validateNodeAgainstConstraint_kept; try exact _; auto.
  - intros l this'. now apply paired_results.
  - intros [|] this' _; [|now apply sat_ret].
    intros _. simpl. split; [exact I|]. now apply paired_results.
  - intros. apply createResultsFromOutcome_paired.
Qed.

Lemma attributed_attributions (P : Term -> Prop) (added : list Quad) :
  Forall (attributed P) added ->
  forall r t, In (r, t) (attributions added) -> P t.
Proof.
  intros Hall r t Hin. unfold attributions in Hin.
  apply in_map_iff in Hin as (q & Hq & Hin).
  apply filter_In in Hin as [Hin Hsource].
  injection Hq as _ <-.
  rewrite Forall_forall in Hall. now apply (Hall q Hin).
Qed.

(** C6, as amended: for a constraint of the property-constraint component,
    [validateNodeAgainstConstraint] validates each value node in turn
    against the nested shape and ORs the answers, and every result it adds
    comes from there: each result has exactly one source shape, which is
    the nested shape or a shape nested inside it through property
    constraints.  There is one result for each
    violation found, which may be several for one value node: where results
    are recorded and the constraints of the nested shape are evaluated by
    generic validators that return their outcome directly, the results
    added are as many as the violations among the outcomes for every value
    node of the constraint, every constraint of the nested shape and every
    value node of the nested shape; each names the nested shape, and the
    answer is [true] exactly if there is one. *)
Theorem property_constraint_results_attributed_to_nested_shapes
    (context : Context) (depth : nat) (focusNode : Term) (valueNodes : list Term)
    (constraint : Constraint) (rdfDataGraph : DataGraph) (this : ValidationEngine)
    (Hcomponent :
       equals (T "sh:PropertyConstraintComponent") (node (component constraint)) = true)
    (Howned : constraintsOwned context)
    (Hlevel : 0 <= recordErrorsLevel this)
    (Hlimit : maxErrorsReached this = false) :
  match validateNodeAgainstConstraint context (S depth) focusNode valueNodes
          constraint rdfDataGraph this with
  | Normal _ this' | Throw _ this' =>
      exists added,
        results this' = (results this ++ added)%list
        /\ map fst (attributions added) = resultNodes added
        /\ forall r t,
             In (r, t) (attributions added) ->
             nestedShapeNode context (getShape context (paramValue constraint)) t
  | Diverge => True
  end
  /\ (forall outcome,
        recording this ->
        deactivated (getShape context (paramValue constraint)) = false ->
        (forall v,
            In v valueNodes ->
            evaluatedDirectly context rdfDataGraph
              (getShape context (paramValue constraint)) (outcome v) v) ->
        exists this' added,
          validateNodeAgainstConstraint context (S depth) focusNode valueNodes
            constraint rdfDataGraph this
          = Normal
              (0 <? violationsFound context rdfDataGraph
                      (getShape context (paramValue constraint)) outcome
                      valueNodes)%nat
              this'
          /\ results this' = (results this ++ added)%list
          /\ length (resultNodes added)
             = violationsFound context rdfDataGraph
                 (getShape context (paramValue constraint)) outcome valueNodes
          /\ attributions added
             = map (fun r =>
                      (r, shapeNode (getShape context (paramValue constraint))))
                 (resultNodes added))
  /\ validateNodeAgainstConstraint context (S depth) focusNode valueNodes constraint
       rdfDataGraph this
     = forLoop valueNodes (fun valueNode errorFound =>
         orFlag (validateNodeAgainstShape context depth valueNode
                   (getShape context (paramValue constraint)) rdfDataGraph)
                errorFound) false this.
Proof.
  split; [|split].
  - pose proof (@validateNodeAgainstConstraint_evaluated context
                  (nestedShapeNode context)
                  (nestedShapeNode_own Howned)
                  (@nestedShapeNode_nested context)
                  (nestedShapeNode context (getShape context (paramValue constraint)))
                  (S depth) focusNode valueNodes constraint rdfDataGraph this) as H.
    pose proof (@validateNodeAgainstConstraint_paired context (S depth) focusNode
                  valueNodes constraint rdfDataGraph this I) as Hp.
    assert (Hgrows : forall this',
      grows (nestedShapeNode context (getShape context (paramValue constraint)))
        this this' ->
      paired this this' ->
      exists added,
        results this' = (results this ++ added)%list
        /\ map fst (attributions added) = resultNodes added
        /\ forall r t,
             In (r, t) (attributions added) ->
             nestedShapeNode context (getShape context (paramValue constraint)) t).
    { intros this' Hg (added & Hresults & Hpaired). destruct_engine_relations.
      match goal with
      | Hall : Forall _ ?added', Hres : results this' = (_ ++ ?added')%list |- _ =>
          rewrite Hres in Hresults; apply app_inv_head in Hresults; subst added'
      end.
      exists added. split; [assumption|]. split; [assumption|].
      now apply attributed_attributions. }
    specialize (H ltac:(congruence) ltac:(auto) Hlevel).
    destruct (validateNodeAgainstConstraint context (S depth) focusNode valueNodes
                constraint rdfDataGraph this) as [found this'|e this'|];
      [destruct H as (_ & _ & H); destruct Hp as [_ Hp]
      | destruct H as (_ & H) | exact I];
      now apply Hgrows.
  - intros outcome Hrecording Hactive Hdirect.
    unfold validateNodeAgainstConstraint, validateNodeAgainstConstraint_body.
    rewrite bind_gets, Hlimit, Hcomponent.
    destruct (@forLoop_recordedExactly Term
                (shapeNode (getShape context (paramValue constraint))) valueNodes
                (fun v =>
                   validateNodeAgainstShape context depth v
                     (getShape context (paramValue constraint)) rdfDataGraph)
                (fun v =>
                   list_sum
                     (map (fun c =>
                        list_sum
                          (map (fun w => resultsOf (outcome v c w))
                             (getValueNodes context
                                (getShape context (paramValue constraint)) v
                                rdfDataGraph)))
                        (getConstraints context
                           (getShape context (paramValue constraint)))))
                (fun v st Hin Hst =>
                   @validateNodeAgainstShape_recordedExactly context depth
                     rdfDataGraph (getShape context (paramValue constraint))
                     (outcome v) v st Hactive (Hdirect v Hin) Hst)
                false this Hrecording)
      as (this' & Hrun & _ & _ & _ & added & Hresults & Hcount & Hattributed).
    exists this', added. rewrite Hrun. auto.
  - unfold validateNodeAgainstConstraint, validateNodeAgainstConstraint_body.
    now rewrite bind_gets, Hlimit, Hcomponent.
Qed.

Lemma property_constraint_results_attributed_to_nested_shapes_witness :
  let context := Sample.sampleContext [Sample.alice] Sample.nestedConstraints in
  let constraint := Sample.propertyConstraint Sample.personShape Sample.nameShape in
  let this := constructor false in
  let outcome := fun (_ : Term) (_ : Constraint) (_ : Term) => JBoolean false in
  equals (T "sh:PropertyConstraintComponent") (node (component constraint)) = true
  /\ constraintsOwned context
  /\ 0 <= recordErrorsLevel this
  /\ maxErrorsReached this = false
  /\ recording this
  /\ violationsFound context [] (getShape context (paramValue constraint)) outcome
       [Sample.alice] = 2%nat
  /\ exists this' added,
       validateNodeAgainstConstraint context 1 Sample.alice [Sample.alice]
         constraint [] this
       = Normal
           (0 <? violationsFound context []
                   (getShape context (paramValue constraint)) outcome
                   [Sample.alice])%nat
           this'
       /\ results this' = (results this ++ added)%list
       /\ length (resultNodes added)
          = violationsFound context [] (getShape context (paramValue constraint))
              outcome [Sample.alice]
       /\ attributions added
          = map (fun r => (r, shapeNode (getShape context (paramValue constraint))))
              (resultNodes added).
Proof.
  intros context constraint this outcome.
  assert (H1 : equals (T "sh:PropertyConstraintComponent")
                 (node (component constraint)) = true) by reflexivity.
  assert (H3 : 0 <= recordErrorsLevel this) by (simpl; lia).
  assert (H4 : maxErrorsReached this = false) by reflexivity.
  assert (H5 : recording this) by (repeat split; simpl; lia).
  assert (H6 : forall v,
    In v [Sample.alice] ->
    evaluatedDirectly context [] (getShape context (paramValue constraint))
      (outcome v) v).
  { intros v _ c Hin.
    change (getShape context (paramValue constraint)) with Sample.nameShape in *.
    simpl in Hin. destruct Hin as [<-|[<-|[]]];
      (split; [reflexivity|]; split; [reflexivity|]; split; [reflexivity|];
       exists {| funcName := "violation" |}; split; [reflexivity|];
       intros w _; split; [reflexivity|]; split; [discriminate|];
       intros items Hitems; discriminate). }
  split; [exact H1|]. split; [exact nestedConstraints_owned|].
  split; [exact H3|]. split; [exact H4|]. split; [exact H5|].
  split; [reflexivity|].
  pose proof (@property_constraint_results_attributed_to_nested_shapes
                context 0%nat Sample.alice [Sample.alice] constraint []
                this H1 nestedConstraints_owned H3 H4) as H.
  destruct H as (_ & H & _). exact (H outcome H5 eq_refl H6).
Defined.
